(** * Chesso match session engine: a shallow embedding of the game server

    The websocket game server, with its game store, keeps one room object
    per id, mutates it in response to websocket commands, timers
    and a periodic tick, and writes a snapshot of it through to a game store.
    This file embeds the room data model and the functions that act on it,
    function by function and under the names of the source, and proves the
    properties of the specification about them.

    Conventions of the embedding.
    - A JS string is a [string]; the code units are restricted to Latin-1.
    - A millisecond count or a timestamp is a [Z].
    - [null]/[undefined] is [None]; a test [!x] is written out as the JS
      falsiness test of the type of [x].
    - Every [Date.now()] and every [randomUUID()] of the source is an explicit
      argument of the embedded function.
    - chess.js is an interface ([Engine]); the properties are proved for every
      implementation of it.
    - An exception ([chess.move] on an illegal move) is a [None] result. *)

From Stdlib Require Import ZArith String Ascii Bool Lia Orders OrdersTac.
From stdpp Require Import base option gmap strings list fin_maps fin_sets.


(* ===================================================================== *)
(** ** JS string primitives used by the server *)
(* ===================================================================== *)

Module JsString.

(** White space stripped by [String.prototype.trim], within Latin-1:
    TAB, LF, VT, FF, CR, SPACE and NBSP. *)
Definition isWhite (c : ascii) : bool :=
  let n := nat_of_ascii c in
  Nat.eqb n 9 || Nat.eqb n 10 || Nat.eqb n 11 || Nat.eqb n 12
  || Nat.eqb n 13 || Nat.eqb n 32 || Nat.eqb n 160.

Fixpoint trimStart (s : string) : string :=
  match s with
  | EmptyString => EmptyString
  | String c s' => if isWhite c then trimStart s' else s
  end.

Fixpoint trimEnd (s : string) : string :=
  match s with
  | EmptyString => EmptyString
  | String c s' =>
      match trimEnd s' with
      | EmptyString => if isWhite c then EmptyString else String c EmptyString
      | t => String c t
      end
  end.

(** [s.trim()] *)
Definition trim (s : string) : string := trimEnd (trimStart s).

(** [s.slice(a, b)] for [0 <= a <= b]. *)
Definition slice (a b : nat) (s : string) : string :=
  String.substring a (b - a) s.

(** [toLowerCase] on one Latin-1 code unit: A-Z, and the accented capitals
    U+00C0..U+00DE except the multiplication sign U+00D7. *)
Definition lowerChar (c : ascii) : ascii :=
  let n := nat_of_ascii c in
  if (Nat.leb 65 n && Nat.leb n 90)
     || (Nat.leb 192 n && Nat.leb n 222 && negb (Nat.eqb n 215))
  then ascii_of_nat (n + 32) else c.

Fixpoint toLowerCase (s : string) : string :=
  match s with
  | EmptyString => EmptyString
  | String c s' => String (lowerChar c) (toLowerCase s')
  end.

(** [s.startsWith(p)] *)
Definition startsWith (p s : string) : bool := String.prefix p s.

(** Truthiness of a string value: every string but the empty one. *)
Definition truthy (s : string) : bool := negb (String.eqb s "").

(** [x || d] on a string-or-undefined value. *)
Definition orElse (x : option string) (d : string) : string :=
  match x with
  | Some s => if truthy s then s else d
  | None => d
  end.

End JsString.

Import JsString.

(** Truthiness of an address-or-null value. *)
Definition truthyAddr (a : option string) : bool :=
  match a with
  | Some s => truthy s
  | None => false
  end.

(** Truthiness of a number-or-null value ([0] and [null] are falsy). *)
Definition truthyNum (t : option Z) : bool :=
  match t with
  | Some z => negb (Z.eqb z 0)
  | None => false
  end.

(* ===================================================================== *)
(** ** Colours, result tags, AI levels *)
(* ===================================================================== *)

Inductive Color := white | black.

#[global] Instance Color_eq_dec : EqDecision Color.
Proof. solve_decision. Defined.

#[global] Instance Color_countable : Countable Color.
Proof.
  refine (inj_countable' (fun c => match c with white => true | black => false end)
                         (fun b : bool => if b then white else black) _).
  by intros [].
Defined.

Definition getOpponentColor (color : Color) : Color :=
  match color with
  | white => black
  | black => white
  end.

(** The values the server writes into [room.forcedResult]. *)
Inductive ResultTag :=
| black_wins_by_timeout
| white_wins_by_timeout
| white_wins_by_forfeit
| black_wins_by_forfeit
| white_wins_by_resign
| black_wins_by_resign
| draw_agreed.

#[global] Instance ResultTag_eq_dec : EqDecision ResultTag.
Proof. solve_decision. Defined.

(** The tag that gives the game to the opponent of [c] on time. *)
Definition timeoutAgainst (c : Color) : ResultTag :=
  match c with
  | white => black_wins_by_timeout
  | black => white_wins_by_timeout
  end.

Inductive Level := beginner | intermediate | hard | master.

#[global] Instance Level_eq_dec : EqDecision Level.
Proof. solve_decision. Defined.

Definition levelName (l : Level) : string :=
  match l with
  | beginner => "beginner"
  | intermediate => "intermediate"
  | hard => "hard"
  | master => "master"
  end.

(** [AI_LEVELS.has(level)], returning the level. *)
Definition parseLevel (s : string) : option Level :=
  if String.eqb s "beginner" then Some beginner
  else if String.eqb s "intermediate" then Some intermediate
  else if String.eqb s "hard" then Some hard
  else if String.eqb s "master" then Some master
  else None.

(** The pieces a pawn can promote to (the [promotion] field of a move). *)
Inductive Promotion := promo_q | promo_r | promo_b | promo_n.

(* ===================================================================== *)
(** ** The rules engine (chess.js) as an interface *)
(* ===================================================================== *)

Record Engine := {
  Position : Type;
  Fen : Type;
  (** [new Chess()] *)
  newChess : Position;
  (** [new Chess(fen)] *)
  loadFen : Fen -> Position;
  (** [chess.fen()] *)
  fen : Position -> Fen;
  (** [chess.turn()] as a colour *)
  turn : Position -> Color;
  (** [chess.isGameOver()] *)
  isGameOver : Position -> bool;
  (** [chess.history().length] *)
  historyLength : Position -> nat;
  (** [chess.move({from, to, promotion})]; [None] when it throws. *)
  move : Position -> string -> string -> Promotion -> option Position
}.

(** Environment configuration read at start-up. *)
Record Config := {
  DISCONNECT_FORFEIT_MS : Z;
  CLOCK_INITIAL_MS : Z;
  CLOCK_INCREMENT_MS : Z
}.

Definition MAX_CHAT_MESSAGES : nat := 100.

(* ===================================================================== *)
(** ** Data model *)
(* ===================================================================== *)

Record ClockState := {
  whiteMs : Z;
  blackMs : Z;
  incrementMs : Z;
  running : bool;
  lastTickAt : option Z
}.

Record ChatMember := {
  username : string;
  avatar : string
}.

(** A stored roster entry: an object, or (older snapshots) a bare name. *)
Inductive StoredMember :=
| MemberName (name : string)
| MemberObj (m : ChatMember).

Record ChatMessage := {
  msg_id : string;
  msg_at : Z;
  msg_address : string;
  msg_username : string;
  msg_avatar : string;
  msg_text : string
}.

Record ChatState := {
  members : gmap string StoredMember;
  messages : list ChatMessage
}.

Record AiState := {
  enabled : bool;
  level : option Level;
  botAddress : option string;
  thinking : bool
}.

Record Players := {
  p_white : option string;
  p_black : option string
}.

Record ForfeitState := {
  f_color : option Color;
  deadlineAt : option Z;
  timer : option nat
}.

(** A websocket as the room sees it. *)
Record Client := {
  connId : nat;
  readyState : nat;
  playerAddress : option string;
  ws_roomId : option string
}.

Definition seat (p : Players) (c : Color) : option string :=
  match c with
  | white => p_white p
  | black => p_black p
  end.

Definition clockMs (c : Color) (k : ClockState) : Z :=
  match c with
  | white => whiteMs k
  | black => blackMs k
  end.

(* ===================================================================== *)
(** ** The server, over an arbitrary engine and configuration *)
(* ===================================================================== *)

Section Server.

Context {E : Engine} (cfg : Config).

Record Room := {
  roomId : string;
  chess : Position E;
  players : Players;
  clients : list Client;
  forcedResult : option ResultTag;
  drawOfferBy : option Color;
  rematchOffers : gset Color;
  clock : ClockState;
  chat : ChatState;
  ai : AiState;
  createdAt : Z;
  forfeit : ForfeitState
}.

(** The record written to the game store. A field that [fromSnapshot] guards
    with [||] is optional here. *)
Record Snapshot := {
  s_id : string;
  s_fen : Fen E;
  s_players : Players;
  s_forcedResult : option ResultTag;
  s_drawOfferBy : option Color;
  s_rematchOffers : option (list Color);
  s_clock : option ClockState;
  s_chat : option ChatState;
  s_ai : option AiState;
  s_createdAt : option Z;
  s_updatedAt : Z
}.

(** *** Field updates (the source mutates the objects in place) *)

Definition set_chess (r : Room) (p : Position E) : Room :=
  {| roomId := roomId r; chess := p; players := players r; clients := clients r;
     forcedResult := forcedResult r; drawOfferBy := drawOfferBy r;
     rematchOffers := rematchOffers r; clock := clock r; chat := chat r;
     ai := ai r; createdAt := createdAt r; forfeit := forfeit r |}.

Definition set_players (r : Room) (p : Players) : Room :=
  {| roomId := roomId r; chess := chess r; players := p; clients := clients r;
     forcedResult := forcedResult r; drawOfferBy := drawOfferBy r;
     rematchOffers := rematchOffers r; clock := clock r; chat := chat r;
     ai := ai r; createdAt := createdAt r; forfeit := forfeit r |}.

Definition set_clients (r : Room) (cl : list Client) : Room :=
  {| roomId := roomId r; chess := chess r; players := players r; clients := cl;
     forcedResult := forcedResult r; drawOfferBy := drawOfferBy r;
     rematchOffers := rematchOffers r; clock := clock r; chat := chat r;
     ai := ai r; createdAt := createdAt r; forfeit := forfeit r |}.

Definition set_forcedResult (r : Room) (x : option ResultTag) : Room :=
  {| roomId := roomId r; chess := chess r; players := players r; clients := clients r;
     forcedResult := x; drawOfferBy := drawOfferBy r;
     rematchOffers := rematchOffers r; clock := clock r; chat := chat r;
     ai := ai r; createdAt := createdAt r; forfeit := forfeit r |}.

(** [room.drawOfferBy = null; room.rematchOffers.clear()] *)
Definition clearOffers (r : Room) : Room :=
  {| roomId := roomId r; chess := chess r; players := players r; clients := clients r;
     forcedResult := forcedResult r; drawOfferBy := None;
     rematchOffers := ∅; clock := clock r; chat := chat r;
     ai := ai r; createdAt := createdAt r; forfeit := forfeit r |}.

Definition set_drawOfferBy (r : Room) (x : option Color) : Room :=
  {| roomId := roomId r; chess := chess r; players := players r; clients := clients r;
     forcedResult := forcedResult r; drawOfferBy := x;
     rematchOffers := rematchOffers r; clock := clock r; chat := chat r;
     ai := ai r; createdAt := createdAt r; forfeit := forfeit r |}.

Definition set_rematchOffers (r : Room) (x : gset Color) : Room :=
  {| roomId := roomId r; chess := chess r; players := players r; clients := clients r;
     forcedResult := forcedResult r; drawOfferBy := drawOfferBy r;
     rematchOffers := x; clock := clock r; chat := chat r;
     ai := ai r; createdAt := createdAt r; forfeit := forfeit r |}.

Definition set_clock (r : Room) (k : ClockState) : Room :=
  {| roomId := roomId r; chess := chess r; players := players r; clients := clients r;
     forcedResult := forcedResult r; drawOfferBy := drawOfferBy r;
     rematchOffers := rematchOffers r; clock := k; chat := chat r;
     ai := ai r; createdAt := createdAt r; forfeit := forfeit r |}.

Definition set_chat (r : Room) (c : ChatState) : Room :=
  {| roomId := roomId r; chess := chess r; players := players r; clients := clients r;
     forcedResult := forcedResult r; drawOfferBy := drawOfferBy r;
     rematchOffers := rematchOffers r; clock := clock r; chat := c;
     ai := ai r; createdAt := createdAt r; forfeit := forfeit r |}.

Definition set_ai (r : Room) (a : AiState) : Room :=
  {| roomId := roomId r; chess := chess r; players := players r; clients := clients r;
     forcedResult := forcedResult r; drawOfferBy := drawOfferBy r;
     rematchOffers := rematchOffers r; clock := clock r; chat := chat r;
     ai := a; createdAt := createdAt r; forfeit := forfeit r |}.

Definition set_forfeit (r : Room) (f : ForfeitState) : Room :=
  {| roomId := roomId r; chess := chess r; players := players r; clients := clients r;
     forcedResult := forcedResult r; drawOfferBy := drawOfferBy r;
     rematchOffers := rematchOffers r; clock := clock r; chat := chat r;
     ai := ai r; createdAt := createdAt r; forfeit := f |}.

Definition set_black (r : Room) (a : option string) : Room :=
  set_players r {| p_white := p_white (players r); p_black := a |}.

Definition set_ms (c : Color) (k : ClockState) (v : Z) : ClockState :=
  match c with
  | white => {| whiteMs := v; blackMs := blackMs k; incrementMs := incrementMs k;
                running := running k; lastTickAt := lastTickAt k |}
  | black => {| whiteMs := whiteMs k; blackMs := v; incrementMs := incrementMs k;
                running := running k; lastTickAt := lastTickAt k |}
  end.

Definition set_running (k : ClockState) (b : bool) : ClockState :=
  {| whiteMs := whiteMs k; blackMs := blackMs k; incrementMs := incrementMs k;
     running := b; lastTickAt := lastTickAt k |}.

Definition set_lastTickAt (k : ClockState) (t : option Z) : ClockState :=
  {| whiteMs := whiteMs k; blackMs := blackMs k; incrementMs := incrementMs k;
     running := running k; lastTickAt := t |}.

Definition set_thinking (a : AiState) (b : bool) : AiState :=
  {| enabled := enabled a; level := level a; botAddress := botAddress a;
     thinking := b |}.

(** *** Constructors of the sub-states (lines 21-45) *)

Definition createClockState : ClockState :=
  {| whiteMs := CLOCK_INITIAL_MS cfg;
     blackMs := CLOCK_INITIAL_MS cfg;
     incrementMs := CLOCK_INCREMENT_MS cfg;
     running := false;
     lastTickAt := None |}.

Definition createChatState : ChatState :=
  {| members := ∅; messages := [] |}.

Definition createAiState : AiState :=
  {| enabled := false; level := None; botAddress := None; thinking := false |}.

Definition noForfeit : ForfeitState :=
  {| f_color := None; deadlineAt := None; timer := None |}.

(** *** Chat normalisation (lines 47-102) *)

Definition dicebear (seed : string) : string :=
  "https://api.dicebear.com/9.x/identicon/svg?seed=" +:+ seed.

Definition normalizeChatMember (member : option StoredMember) (address : string)
  : option ChatMember :=
  match member with
  | None => None
  | Some (MemberName name) =>
      if truthy name
      then Some {| username := slice 0 24 (trim name);
                   avatar := dicebear (if truthy address then address else name) |}
      else None
  | Some (MemberObj m) =>
      let username' := slice 0 24 (trim (username m)) in
      if truthy username' then
        let avatar' := slice 0 512 (trim (avatar m)) in
        Some {| username := username';
                avatar := if truthy avatar' then avatar'
                          else dicebear (if truthy address then address
                                         else username') |}
      else None
  end.

Definition normalizeMessage (now : Z) (uuid : nat -> string) (i : nat)
  (m : ChatMessage) : ChatMessage :=
  {| msg_id := if truthy (msg_id m) then msg_id m else slice 0 8 (uuid i);
     msg_at := if Z.eqb (msg_at m) 0 then now else msg_at m;
     msg_address := toLowerCase (msg_address m);
     msg_username := (let u := slice 0 24 (trim (msg_username m)) in
                      if truthy u then u else "Player");
     msg_avatar := slice 0 512 (trim (msg_avatar m));
     msg_text := slice 0 280 (trim (msg_text m)) |}.

Definition normalizeChatState (chat0 : option ChatState) (now : Z)
  (uuid : nat -> string) : ChatState :=
  let base := default createChatState chat0 in
  {| members :=
       map_imap (fun address member =>
                   MemberObj <$> normalizeChatMember (Some member) address)
                (members base);
     messages :=
       List.filter (fun m => truthy (msg_text m))
                   (imap (normalizeMessage now uuid) (messages base)) |}.

Definition pushChatMessage (r : Room) (address username' avatar' text : string)
  (id : string) (now : Z) : Room :=
  let pushed := messages (chat r) ++
                [ {| msg_id := slice 0 8 id; msg_at := now; msg_address := address;
                     msg_username := username'; msg_avatar := avatar';
                     msg_text := text |} ] in
  let kept := if Nat.ltb MAX_CHAT_MESSAGES (length pushed)
              then drop (length pushed - MAX_CHAT_MESSAGES) pushed
              else pushed in
  set_chat r {| members := members (chat r); messages := kept |}.

(** *** Snapshot codec (lines 104-135) *)

Definition toSnapshot (r : Room) (now : Z) : Snapshot :=
  {| s_id := roomId r;
     s_fen := fen E (chess r);
     s_players := players r;
     s_forcedResult := forcedResult r;
     s_drawOfferBy := drawOfferBy r;
     s_rematchOffers := Some (elements (rematchOffers r));
     s_clock := Some (clock r);
     s_chat := Some (chat r);
     s_ai := Some (ai r);
     s_createdAt := Some (createdAt r);
     s_updatedAt := now |}.

Definition fromSnapshot (snapshot : Snapshot) (now : Z) (uuid : nat -> string)
  : Room :=
  {| roomId := s_id snapshot;
     chess := loadFen E (s_fen snapshot);
     players := s_players snapshot;
     clients := [];
     forcedResult := s_forcedResult snapshot;
     drawOfferBy := s_drawOfferBy snapshot;
     rematchOffers := list_to_set (default [] (s_rematchOffers snapshot));
     clock := default createClockState (s_clock snapshot);
     chat := normalizeChatState (s_chat snapshot) now uuid;
     ai := default createAiState (s_ai snapshot);
     createdAt := (if truthyNum (s_createdAt snapshot)
                   then default now (s_createdAt snapshot) else now);
     forfeit := noForfeit |}.

(** *** Queries (lines 150-164, 322-343) *)

Definition isFinished (r : Room) : bool :=
  bool_decide (is_Some (forcedResult r)) || isGameOver E (chess r).

Definition currentTurnColor (r : Room) : Color := turn E (chess r).

Definition isAiAddress (address : option string) : bool :=
  match address with
  | Some a => startsWith "ai:" a
  | None => false
  end.

Definition getPlayerColor (r : Room) (address : option string) : option Color :=
  if negb (truthyAddr address) then None
  else if bool_decide (p_white (players r) = address) then Some white
  else if bool_decide (p_black (players r) = address) then Some black
  else None.

Definition getConnectedCount (r : Room) (color : Color) : nat :=
  let player := seat (players r) color in
  if negb (truthyAddr player) then 0
  else length (List.filter
                 (fun client => Nat.eqb (readyState client) 1
                                && bool_decide (playerAddress client = player))
                 (clients r)).

Definition isPlayerOnline (r : Room) (color : Color) : bool :=
  isAiAddress (seat (players r) color) || Nat.ltb 0 (getConnectedCount r color).

(** *** Clock (lines 264-320) *)

Definition applyClockDecay (r : Room) (now : Z) : Room :=
  if negb (running (clock r)) || isFinished r then r
  else
    let activeColor := currentTurnColor r in
    match lastTickAt (clock r) with
    | None => set_clock r (set_lastTickAt (clock r) (Some now))
    | Some last =>
        if Z.eqb last 0 then set_clock r (set_lastTickAt (clock r) (Some now))
        else
          let elapsed := (now - last)%Z in
          if Z.leb elapsed 0 then r
          else
            let k1 := set_ms activeColor (clock r)
                        (Z.max 0 (clockMs activeColor (clock r) - elapsed)) in
            let k2 := set_lastTickAt k1 (Some now) in
            let f1 := if Z.eqb (whiteMs k2) 0 then Some black_wins_by_timeout
                      else forcedResult r in
            let f2 := if Z.eqb (blackMs k2) 0 then Some white_wins_by_timeout
                      else f1 in
            match f2 with
            | Some _ =>
                clearOffers
                  (set_forcedResult (set_clock r (set_running k2 false)) f2)
            | None => set_forcedResult (set_clock r k2) f2
            end
    end.

Definition stopClock (r : Room) : Room :=
  set_clock r (set_lastTickAt (set_running (clock r) false) None).

Definition startClockIfReady (r : Room) (now : Z) : Room :=
  if isFinished r then stopClock r
  else if negb (truthyAddr (p_white (players r)))
          || negb (truthyAddr (p_black (players r)))
  then stopClock r
  else set_clock r (set_lastTickAt (set_running (clock r) true) (Some now)).

Definition resetGameForRematch (r : Room) (now : Z) : Room :=
  let r1 := clearOffers (set_forcedResult (set_chess r (newChess E)) None) in
  let r2 := if enabled (ai r1) && truthyAddr (botAddress (ai r1))
            then set_black r1 (botAddress (ai r1)) else r1 in
  startClockIfReady (set_clock r2 createClockState) now.

(** *** The room together with the runtime it lives in

    [timers] are the forfeit time-outs of this room object that [setTimeout]
    has scheduled and that have neither fired nor been cancelled;
    [gameStore] is the [rooms] map of the in-memory store. A stored snapshot
    is a value, as it is once the Redis store has serialised it; that the
    in-memory store keeps the clock, players, chat and AI objects of the live
    room inside the snapshot is not modelled. [Sys] follows one room object.
    A timer still pending on a room object that was evicted from memory acts
    on that object, not on the one loaded later; the registry ([World],
    below) keeps such an object in [evicted] and runs its timer with
    [staleTimerExpired]. *)

Record Timer := {
  tid : nat;
  tcolor : Color
}.

Record Sys := {
  room : Room;
  timers : list Timer;
  nextTimer : nat;
  gameStore : gmap string Snapshot
}.

Definition set_room (s : Sys) (r : Room) : Sys :=
  {| room := r; timers := timers s; nextTimer := nextTimer s;
     gameStore := gameStore s |}.

Definition clearTimeout (t : nat) (l : list Timer) : list Timer :=
  List.filter (fun x => negb (Nat.eqb (tid x) t)) l.

(** [gameStore.saveRoom(toSnapshot(room))] (lines 390-392, 947-950) *)
Definition saveRoom (s : Sys) (now : Z) : Sys :=
  {| room := room s; timers := timers s; nextTimer := nextTimer s;
     gameStore := <[roomId (room s) := toSnapshot (room s) now]> (gameStore s) |}.

(** [broadcastRoom] (lines 406-414); the messages sent to the clients do not
    change the state and are left out. *)
Definition broadcastRoom (s : Sys) (tDecay tSave : Z) : Sys :=
  saveRoom (set_room s (applyClockDecay (room s) tDecay)) tSave.

(** *** The forfeit timer (lines 416-470) *)

Definition clearForfeitTimer (s : Sys) : Sys :=
  {| room := set_forfeit (room s) noForfeit;
     timers := match timer (forfeit (room s)) with
               | Some t => clearTimeout t (timers s)
               | None => timers s
               end;
     nextTimer := nextTimer s;
     gameStore := gameStore s |}.

Definition forfeitTag (winner : Color) : ResultTag :=
  match winner with
  | white => white_wins_by_forfeit
  | black => black_wins_by_forfeit
  end.

Definition maybeStartForfeitTimer (s : Sys) (disconnectedColor : Color)
  (tNow tDecay tSave : Z) : Sys :=
  if isFinished (room s) then s
  else
    let opponentColor := getOpponentColor disconnectedColor in
    if negb (truthyAddr (seat (players (room s)) opponentColor)) then s
    else if isPlayerOnline (room s) disconnectedColor then s
    else if negb (isPlayerOnline (room s) opponentColor) then s
    else
      let s1 := clearForfeitTimer s in
      let handle := nextTimer s1 in
      let s2 :=
        {| room := set_forfeit (room s1)
                     {| f_color := Some disconnectedColor;
                        deadlineAt := Some (tNow + DISCONNECT_FORFEIT_MS cfg)%Z;
                        timer := Some handle |};
           timers := timers s1 ++ [ {| tid := handle; tcolor := disconnectedColor |} ];
           nextTimer := S handle;
           gameStore := gameStore s1 |} in
      broadcastRoom s2 tDecay tSave.

(** The callback given to [setTimeout] (lines 435-460), run when the pending
    timer [handle] fires. *)
Definition forfeitTimerExpired (s : Sys) (handle : nat) (tDecay tSave : Z) : Sys :=
  match List.find (fun x => Nat.eqb (tid x) handle) (timers s) with
  | None => s
  | Some fired =>
      let s0 := {| room := room s; timers := clearTimeout handle (timers s);
                   nextTimer := nextTimer s; gameStore := gameStore s |} in
      let disconnectedColor := tcolor fired in
      let opponentColor := getOpponentColor disconnectedColor in
      if isFinished (room s0) then broadcastRoom (clearForfeitTimer s0) tDecay tSave
      else if isPlayerOnline (room s0) disconnectedColor
      then broadcastRoom (clearForfeitTimer s0) tDecay tSave
      else if negb (isPlayerOnline (room s0) opponentColor)
      then broadcastRoom (clearForfeitTimer s0) tDecay tSave
      else
        let r1 := set_forcedResult (room s0) (Some (forfeitTag opponentColor)) in
        let r2 := clearOffers r1 in
        let r3 := set_clock r2 (set_running (clock r2) false) in
        broadcastRoom (clearForfeitTimer (set_room s0 r3)) tDecay tSave
  end.

Definition maybeClearForfeitOnReconnect (s : Sys) (reconnectedColor : Color)
  (tDecay tSave : Z) : Sys :=
  if bool_decide (f_color (forfeit (room s)) = Some reconnectedColor)
     && isPlayerOnline (room s) reconnectedColor
  then broadcastRoom (clearForfeitTimer s) tDecay tSave
  else s.

(** *** Connections (lines 518-549) *)

(** [room.clients.add(ws)] after [ws.playerAddress = address;
    ws.roomId = room.id]: the set holds the socket once, with its current
    fields. *)
Definition addClient (cl : list Client) (ws : Client) : list Client :=
  if existsb (fun c => Nat.eqb (connId c) (connId ws)) cl
  then List.map (fun c => if Nat.eqb (connId c) (connId ws) then ws else c) cl
  else cl ++ [ws].

(** [room.clients.delete(ws)] *)
Definition deleteClient (cl : list Client) (ws : Client) : list Client :=
  List.filter (fun c => negb (Nat.eqb (connId c) (connId ws))) cl.

(** [attachClientToRoom], the part that acts on [room]; detaching the socket
    from a previous room is [removeFromPreviousRoom] below. *)
Definition attachClientToRoom (s : Sys) (ws : Client) (address : string)
  (tDecay tSave : Z) : Sys :=
  let ws' := {| connId := connId ws; readyState := readyState ws;
                playerAddress := Some address;
                ws_roomId := Some (roomId (room s)) |} in
  let s1 := set_room s (set_clients (room s) (addClient (clients (room s)) ws')) in
  match getPlayerColor (room s1) (Some address) with
  | Some color => maybeClearForfeitOnReconnect s1 color tDecay tSave
  | None => s1
  end.

Definition removeFromPreviousRoom (s : Sys) (ws : Client) : Sys :=
  set_room s (set_clients (room s) (deleteClient (clients (room s)) ws)).

(** The payload of a command: a JSON object, every field optional. *)
Record Payload := {
  pl_roomId : option string;
  pl_address : option string;
  pl_from : string;
  pl_to : string;
  pl_promotion : option Promotion;
  pl_level : option string;
  pl_username : option string;
  pl_avatar : option string;
  pl_text : option string
}.

Inductive Reply :=
| Done
| Error (message : string).

(** [payload?.address?.toLowerCase()] *)
Definition payloadAddress (payload : Payload) : option string :=
  toLowerCase <$> pl_address payload.

(** [resolveRoomAndPlayer] once the room is loaded: the acting address and
    its seat, or the error. *)
Definition resolvePlayer (r : Room) (payload : Payload) (label : string)
  : (string * Color) + string :=
  let address := payloadAddress payload in
  match address, getPlayerColor r address with
  | Some a, Some color => if truthy a then inl (a, color)
                          else inr ("Invalid " +:+ label +:+ " player")
  | _, _ => inr ("Invalid " +:+ label +:+ " player")
  end.

(** *** The AI turn (lines 472-516)

    [maybeRunAiTurn] suspends at its 400 ms delay; the part before the delay
    runs inside the calling handler, the part after it is a step of its own.
    The move that [pickAiMove] returns is an argument of the second part. *)

Record AiMove := {
  am_from : string;
  am_to : string;
  am_promotion : option Promotion
}.

Definition maybeRunAiTurn_begin (s : Sys) (tDecay tSave : Z) : Sys * bool :=
  if negb (enabled (ai (room s))) then (s, false)
  else if isFinished (room s) then (s, false)
  else if negb (bool_decide (currentTurnColor (room s) = black)) then (s, false)
  else if thinking (ai (room s)) then (s, false)
  else
    (broadcastRoom
       (set_room s (set_ai (room s) (set_thinking (ai (room s)) true)))
       tDecay tSave, true).

(** The [finally] clause. *)
Definition aiDone (r : Room) : Room := set_ai r (set_thinking (ai r) false).

Definition maybeRunAiTurn_resume (s : Sys) (picked : option AiMove)
  (t0 t1 tDecay tSave : Z) : Sys * Reply :=
  let r1 := applyClockDecay (room s) t0 in
  if isFinished r1 then (set_room s (aiDone (stopClock r1)), Done)
  else
    match picked with
    | None => (set_room s (aiDone (stopClock r1)), Done)
    | Some mv =>
        match move E (chess r1) (am_from mv) (am_to mv)
                (default promo_q (am_promotion mv)) with
        | None => (set_room s (aiDone r1), Error "Illegal move")
        | Some p' =>
            let s2 := clearForfeitTimer (set_room s (clearOffers (set_chess r1 p'))) in
            let k := clock (room s2) in
            let k1 := set_ms black k (blackMs k + incrementMs k)%Z in
            let r3 := set_clock (room s2) k1 in
            let r4 := if isFinished r3 then stopClock r3
                      else set_clock r3 (set_lastTickAt (set_running k1 true) (Some t1)) in
            (broadcastRoom (set_room s2 (aiDone r4)) tDecay tSave, Done)
        end
    end.

(** *** Command handlers (lines 645-900), from the point where the room is
    loaded. [tm n] is the value of a [Date.now()] call of the handler; the
    calls along one execution path have different indices. *)

Inductive MoveOutcome :=
| MoveRejected (message : string)
| MoveTimedOut
| MoveApplied.

Definition make_move (s : Sys) (payload : Payload) (tm : nat -> Z)
  : Sys * MoveOutcome :=
  match resolvePlayer (room s) payload "move" with
  | inr e => (s, MoveRejected e)
  | inl (_, color) =>
      if isFinished (room s) then (s, MoveRejected "Game already over")
      else if negb (bool_decide (currentTurnColor (room s) = color))
      then (s, MoveRejected "Not your turn")
      else
        let r1 := applyClockDecay (room s) (tm 0%nat) in
        if isFinished r1
        then (broadcastRoom (set_room s r1) (tm 1%nat) (tm 2%nat), MoveTimedOut)
        else
          match move E (chess r1) (pl_from payload) (pl_to payload) promo_q with
          | None => (set_room s r1, MoveRejected "Illegal move")
          | Some p' =>
              let s2 := clearForfeitTimer (set_room s (clearOffers (set_chess r1 p'))) in
              let k := clock (room s2) in
              let k1 := set_ms color k (clockMs color k + incrementMs k)%Z in
              let k2 := set_running (set_lastTickAt k1 (Some (tm 1%nat))) true in
              let r3 := set_clock (room s2) k2 in
              let s3 := set_room s2 r3 in
              if negb (isFinished r3) then
                let nextToMoveColor := currentTurnColor r3 in
                if enabled (ai r3) && bool_decide (nextToMoveColor = black)
                then (fst (maybeRunAiTurn_begin s3 (tm 2%nat) (tm 3%nat)), MoveApplied)
                else if negb (isPlayerOnline r3 nextToMoveColor)
                then (maybeStartForfeitTimer s3 nextToMoveColor
                        (tm 2%nat) (tm 3%nat) (tm 4%nat), MoveApplied)
                else (broadcastRoom s3 (tm 2%nat) (tm 3%nat), MoveApplied)
              else
                (broadcastRoom (set_room s3 (set_clock r3 (set_running k2 false)))
                   (tm 2%nat) (tm 3%nat), MoveApplied)
          end
  end.

Definition resignTag (winner : Color) : ResultTag :=
  match winner with
  | white => white_wins_by_resign
  | black => black_wins_by_resign
  end.

(** The common tail of [resign], [accept_draw]: set the result, clear the
    offers, stop the clock, clear the forfeit timer, broadcast. *)
Definition finishWith (s : Sys) (tag : ResultTag) (tDecay tSave : Z) : Sys :=
  let r1 := clearOffers (set_forcedResult (room s) (Some tag)) in
  let r2 := set_clock r1 (set_running (clock r1) false) in
  broadcastRoom (clearForfeitTimer (set_room s r2)) tDecay tSave.

Definition resign (s : Sys) (payload : Payload) (tm : nat -> Z) : Sys * Reply :=
  match resolvePlayer (room s) payload "resign" with
  | inr e => (s, Error e)
  | inl (_, color) =>
      if isFinished (room s) then (s, Error "Game already over")
      else (finishWith s (resignTag (getOpponentColor color)) (tm 0%nat) (tm 1%nat), Done)
  end.

Definition offer_draw (s : Sys) (payload : Payload) (tm : nat -> Z) : Sys * Reply :=
  match resolvePlayer (room s) payload "draw offer" with
  | inr e => (s, Error e)
  | inl (_, color) =>
      if isFinished (room s) then (s, Error "Game already over")
      else if negb (truthyAddr (p_white (players (room s))))
              || negb (truthyAddr (p_black (players (room s))))
      then (s, Error "Both players not joined")
      else if bool_decide (drawOfferBy (room s) = Some color)
      then (s, Error "Draw already offered")
      else (broadcastRoom (set_room s (set_drawOfferBy (room s) (Some color)))
              (tm 0%nat) (tm 1%nat), Done)
  end.

Definition accept_draw (s : Sys) (payload : Payload) (tm : nat -> Z) : Sys * Reply :=
  match resolvePlayer (room s) payload "draw accept" with
  | inr e => (s, Error e)
  | inl (_, color) =>
      if isFinished (room s) then (s, Error "Game already over")
      else if negb (bool_decide (is_Some (drawOfferBy (room s))))
      then (s, Error "No draw offer to accept")
      else if bool_decide (drawOfferBy (room s) = Some color)
      then (s, Error "Cannot accept your own draw offer")
      else (finishWith s draw_agreed (tm 0%nat) (tm 1%nat), Done)
  end.

(** [room.rematchOffers.add(color)] *)
Definition recordRematchOffer (r : Room) (color : Color) : Room :=
  set_rematchOffers r ({[color]} ∪ rematchOffers r).

Definition offer_rematch (s : Sys) (payload : Payload) (tm : nat -> Z) : Sys * Reply :=
  match resolvePlayer (room s) payload "rematch offer" with
  | inr e => (s, Error e)
  | inl (_, color) =>
      if negb (isFinished (room s)) then (s, Error "Rematch only after game ends")
      else
        let r1 := recordRematchOffer (room s) color in
        if Nat.eqb (size (rematchOffers r1)) 2
        then (broadcastRoom (set_room s (resetGameForRematch r1 (tm 0%nat)))
                (tm 1%nat) (tm 2%nat), Done)
        else (broadcastRoom (set_room s r1) (tm 1%nat) (tm 2%nat), Done)
  end.

(** [room.chat.members[address] = member]; a [null] member reads back as an
    absent one. *)
Definition setMember (r : Room) (address : string) (member : option ChatMember) : Room :=
  set_chat r {| members := match member with
                           | Some m => <[address := MemberObj m]> (members (chat r))
                           | None => delete address (members (chat r))
                           end;
                messages := messages (chat r) |}.

Definition enter_chat (s : Sys) (payload : Payload) (tm : nat -> Z) : Sys * Reply :=
  match resolvePlayer (room s) payload "chat enter" with
  | inr e => (s, Error e)
  | inl (address, _) =>
      let username' := trim (orElse (pl_username payload) "") in
      let avatar' := trim (orElse (pl_avatar payload) "") in
      if Nat.ltb (String.length username') 2 || Nat.ltb 24 (String.length username')
      then (s, Error "Username must be 2-24 chars")
      else
        let member := normalizeChatMember
                        (Some (MemberObj {| username := username'; avatar := avatar' |}))
                        address in
        (broadcastRoom (set_room s (setMember (room s) address member))
           (tm 0%nat) (tm 1%nat), Done)
  end.

Definition send_chat (s : Sys) (payload : Payload) (id : string) (tm : nat -> Z)
  : Sys * Reply :=
  match resolvePlayer (room s) payload "chat message" with
  | inr e => (s, Error e)
  | inl (address, _) =>
      let fallbackName := "Player-" +:+ slice 2 6 address in
      let '(r1, member) :=
        match normalizeChatMember (members (chat (room s)) !! address) address with
        | Some member => (room s, member)
        | None =>
            let member :=
              default {| username := fallbackName; avatar := dicebear address |}
                (normalizeChatMember
                   (Some (MemberObj
                            {| username := orElse (pl_username payload) fallbackName;
                               avatar := orElse (pl_avatar payload) "" |}))
                   address) in
            (setMember (room s) address (Some member), member)
        end in
      let text := trim (orElse (pl_text payload) "") in
      if negb (truthy text) || Nat.ltb 280 (String.length text)
      then (set_room s r1, Error "Chat message must be 1-280 chars")
      else
        (broadcastRoom
           (set_room s (pushChatMessage r1 address (username member) (avatar member)
                          text id (tm 0%nat)))
           (tm 1%nat) (tm 2%nat), Done)
  end.

Definition join_room (s : Sys) (ws : Client) (payload : Payload) (tm : nat -> Z)
  : Sys * Reply :=
  let address := payloadAddress payload in
  if negb (truthyAddr address) || negb (truthyAddr (pl_roomId payload))
  then (s, Error "Missing join payload")
  else if enabled (ai (room s)) && negb (bool_decide (p_white (players (room s)) = address))
  then (s, Error "AI room is private to the owner")
  else
    let r1 := if negb (truthyAddr (p_black (players (room s))))
                 && negb (bool_decide (p_white (players (room s)) = address))
              then startClockIfReady (set_black (room s) address) (tm 0%nat)
              else room s in
    if negb (bool_decide (p_white (players r1) = address))
       && negb (bool_decide (p_black (players r1) = address))
    then (set_room s r1, Error "Room is full")
    else
      (broadcastRoom
         (attachClientToRoom (set_room s r1) ws (default "" address)
            (tm 1%nat) (tm 2%nat))
         (tm 3%nat) (tm 4%nat), Done).

Definition set_ai_level (s : Sys) (payload : Payload) (tm : nat -> Z) : Sys * Reply :=
  match resolvePlayer (room s) payload "ai setup" with
  | inr e => (s, Error e)
  | inl (address, color) =>
      if negb (bool_decide (color = white))
      then (s, Error "Only white can enable AI mode")
      else if Nat.ltb 0 (historyLength E (chess (room s)))
      then (s, Error "Enable AI before first move")
      else
        match parseLevel (toLowerCase (orElse (pl_level payload) "")) with
        | None => (s, Error "Invalid AI level")
        | Some level' =>
            let blackSeat := p_black (players (room s)) in
            if truthyAddr blackSeat && negb (isAiAddress blackSeat)
               && negb (bool_decide (blackSeat = Some address))
            then (s, Error "Cannot enable AI after human opponent joined")
            else
              let botAddress' := "ai:" +:+ levelName level' in
              let r1 := set_ai (room s)
                          {| enabled := true; level := Some level';
                             botAddress := Some botAddress'; thinking := false |} in
              let s1 := clearForfeitTimer (set_room s (set_black r1 (Some botAddress'))) in
              (broadcastRoom (set_room s1 (startClockIfReady (room s1) (tm 0%nat)))
                 (tm 1%nat) (tm 2%nat), Done)
        end
  end.

Definition resume_room (s : Sys) (ws : Client) (payload : Payload) (tm : nat -> Z)
  : Sys * Reply :=
  let address := payloadAddress payload in
  if negb (truthyAddr address) || negb (truthyAddr (pl_roomId payload))
  then (s, Error "Missing resume payload")
  else if negb (bool_decide (p_white (players (room s)) = address))
          && negb (bool_decide (p_black (players (room s)) = address))
  then (s, Error "Only existing players can resume")
  else
    (broadcastRoom
       (attachClientToRoom s ws (default "" address) (tm 0%nat) (tm 1%nat))
       (tm 2%nat) (tm 3%nat), Done).

(** [escrow_log] only writes a log line. *)
Definition escrow_log (s : Sys) (payload : Payload) : Sys * Reply :=
  match resolvePlayer (room s) payload "escrow log" with
  | inr e => (s, Error e)
  | inl _ => (s, Done)
  end.

(** The body of the one-second ticker for this room (lines 598-603). *)
Definition tick (s : Sys) (tm : nat -> Z) : Sys :=
  if Nat.eqb (length (clients (room s))) 0
     || isFinished (room s) || negb (running (clock (room s)))
  then s
  else broadcastRoom s (tm 0%nat) (tm 1%nat).

(** *** Detaching a connection (lines 551-580) *)

(** What [removeClient] does with the registry entry of the room. *)
Inductive Disposal :=
| Kept
| DeletedRoom
| Evicted.

(** [gameStore.deleteRoom(room.id)] *)
Definition deleteRoom (s : Sys) : Sys :=
  {| room := room s; timers := timers s; nextTimer := nextTimer s;
     gameStore := delete (roomId (room s)) (gameStore s) |}.

Definition removeClient_tail (s1 : Sys) (tm : nat -> Z) : Sys * Disposal :=
  let shouldDeleteEmptyUnstartedRoom :=
    Nat.eqb (length (clients (room s1))) 0
    && negb (truthyAddr (p_black (players (room s1))))
    && Nat.eqb (historyLength E (chess (room s1))) 0 in
  if shouldDeleteEmptyUnstartedRoom
  then (deleteRoom (clearForfeitTimer s1), DeletedRoom)
  else
    let s2 := broadcastRoom s1 (tm 0%nat) (tm 1%nat) in
    if Nat.eqb (length (clients (room s2))) 0 then (s2, Evicted) else (s2, Kept).

(** [removeClient] once the room of the socket is found. *)
Definition removeClient_room (s : Sys) (ws : Client) (tm : nat -> Z)
  : Sys * Disposal :=
  let s1 := set_room s (set_clients (room s) (deleteClient (clients (room s)) ws)) in
  match getPlayerColor (room s1) (playerAddress ws) with
  | Some color =>
      if negb (isFinished (room s1)) && negb (isPlayerOnline (room s1) color)
      then (maybeStartForfeitTimer s1 color (tm 0%nat) (tm 1%nat) (tm 2%nat), Kept)
      else removeClient_tail s1 tm
  | None => removeClient_tail s1 tm
  end.

(** *** Creating a room (lines 618-643) *)

Definition newRoom (id address : string) (now : Z) : Room :=
  {| roomId := id;
     chess := newChess E;
     players := {| p_white := Some address; p_black := None |};
     clients := [];
     forcedResult := None;
     drawOfferBy := None;
     rematchOffers := ∅;
     clock := createClockState;
     chat := createChatState;
     ai := createAiState;
     createdAt := now;
     forfeit := noForfeit |}.

(** [create_room] for a truthy address, in a runtime with the given store:
    the room is built, saved, attached to and broadcast. *)
Definition create_room_sys (store0 : gmap string Snapshot) (ws : Client)
  (address uuid : string) (tm : nat -> Z) : Sys :=
  let s0 := {| room := newRoom (slice 0 8 uuid) address (tm 0%nat);
               timers := []; nextTimer := 0; gameStore := store0 |} in
  broadcastRoom
    (attachClientToRoom (saveRoom s0 (tm 1%nat)) ws address (tm 2%nat) (tm 3%nat))
    (tm 4%nat) (tm 5%nat).

(** *** Loading a room back from the store (lines 394-404)

    The room object is rebuilt from the stored snapshot; it starts without
    connections and without forfeit state, and no timer is pending on it.
    This is what a restarted process sees, and what a process sees that has
    evicted the room. In the second case a timer that was pending on the
    evicted object is not cancelled (lines 575-579): it stays with that
    object, outside this [Sys], and is followed in the registry below
    ([evicted], [staleTimerExpired]). *)
Definition reloadRoom (s : Sys) (now : Z) (uuid : nat -> string) : Sys :=
  match gameStore s !! roomId (room s) with
  | Some snapshot =>
      {| room := fromSnapshot snapshot now uuid; timers := [];
         nextTimer := nextTimer s; gameStore := gameStore s |}
  | None => s
  end.

(** A socket of the room changes its [readyState] (it starts closing, say). *)
Definition socketState (s : Sys) (conn state : nat) : Sys :=
  set_room s
    (set_clients (room s)
       (List.map (fun c => if Nat.eqb (connId c) conn
                           then {| connId := connId c; readyState := state;
                                   playerAddress := playerAddress c;
                                   ws_roomId := ws_roomId c |}
                           else c)
          (clients (room s)))).

(** *** The operations on a live room

    One operation is one run of the server between two suspension points: a
    command handler up to its last broadcast, the second half of the AI turn,
    the ticker, a timer callback, a socket closing. [OpBroadcast] is the
    broadcast that a handler left pending when it was suspended. The second
    half of an AI turn and a pending broadcast may run in any state here,
    which allows every interleaving of the server and more. *)

Inductive Op :=
| OpJoin (ws : Client) (payload : Payload)
| OpSetAiLevel (payload : Payload)
| OpResume (ws : Client) (payload : Payload)
| OpMove (payload : Payload)
| OpAiTurn (picked : option AiMove)
| OpResign (payload : Payload)
| OpOfferDraw (payload : Payload)
| OpAcceptDraw (payload : Payload)
| OpOfferRematch (payload : Payload)
| OpEscrowLog (payload : Payload)
| OpEnterChat (payload : Payload)
| OpSendChat (payload : Payload) (uuid : string)
| OpTick
| OpForfeitExpired (handle : nat)
| OpDetach (ws : Client)
| OpMovedAway (ws : Client)
| OpSocketState (conn state : nat)
| OpBroadcast.

Definition step (op : Op) (tm : nat -> Z) (s : Sys) : Sys :=
  match op with
  | OpJoin ws payload => fst (join_room s ws payload tm)
  | OpSetAiLevel payload => fst (set_ai_level s payload tm)
  | OpResume ws payload => fst (resume_room s ws payload tm)
  | OpMove payload => fst (make_move s payload tm)
  | OpAiTurn picked =>
      fst (maybeRunAiTurn_resume s picked (tm 0%nat) (tm 1%nat) (tm 2%nat) (tm 3%nat))
  | OpResign payload => fst (resign s payload tm)
  | OpOfferDraw payload => fst (offer_draw s payload tm)
  | OpAcceptDraw payload => fst (accept_draw s payload tm)
  | OpOfferRematch payload => fst (offer_rematch s payload tm)
  | OpEscrowLog payload => fst (escrow_log s payload)
  | OpEnterChat payload => fst (enter_chat s payload tm)
  | OpSendChat payload uuid => fst (send_chat s payload uuid tm)
  | OpTick => tick s tm
  | OpForfeitExpired handle => forfeitTimerExpired s handle (tm 0%nat) (tm 1%nat)
  | OpDetach ws => fst (removeClient_room s ws tm)
  | OpMovedAway ws => removeFromPreviousRoom s ws
  | OpSocketState conn state => socketState s conn state
  | OpBroadcast => broadcastRoom s (tm 0%nat) (tm 1%nat)
  end.

(** The states a room goes through: created by [create_room], changed by the
    operations, and rebuilt from its stored snapshot when it is loaded again. *)
Inductive reachable : Sys -> Prop :=
| reach_create store0 ws address uuid tm :
    truthy address = true ->
    reachable (create_room_sys store0 ws address uuid tm)
| reach_step op tm s :
    reachable s -> reachable (step op tm s)
| reach_reload now uuid s :
    reachable s -> reachable (reloadRoom s now uuid).

(** *** The registry of live rooms (lines 19, 394-404, 518-532, 551-580)

    A room object that [removeClient] takes out of [activeRooms] is not
    gone while one of its forfeit timers is pending: nothing cancels that
    timer (lines 575-579 do not call [clearForfeitTimer]), and its callback
    holds the object. [evicted] lists these objects; [staleTimerExpired] is
    the callback of such a timer. *)

Record Live := {
  live_room : Room;
  live_timers : list Timer;
  live_next : nat
}.

Record World := {
  activeRooms : gmap string Live;
  store : gmap string Snapshot;
  evicted : list Live
}.

Definition focus (w : World) (l : Live) : Sys :=
  {| room := live_room l; timers := live_timers l; nextTimer := live_next l;
     gameStore := store w |}.

Definition toLive (s : Sys) : Live :=
  {| live_room := room s; live_timers := timers s; live_next := nextTimer s |}.

(** Write the room back under its id; the store is the one the handler left. *)
Definition commit (w : World) (s : Sys) : World :=
  {| activeRooms := <[roomId (room s) := toLive s]> (activeRooms w);
     store := gameStore s;
     evicted := evicted w |}.

Definition loadRoom (w : World) (id : string) (now : Z) (uuid : nat -> string)
  : option Live * World :=
  match activeRooms w !! id with
  | Some active => (Some active, w)
  | None =>
      match store w !! id with
      | None => (None, w)
      | Some snapshot =>
          let l := {| live_room := fromSnapshot snapshot now uuid;
                      live_timers := []; live_next := 0 |} in
          (Some l,
           {| activeRooms := <[roomId (live_room l) := l]> (activeRooms w);
              store := store w;
              evicted := evicted w |})
      end
  end.

(** The first lines of [attachClientToRoom] (519-522): a socket that is
    attached to another live room is deleted from the clients of that room;
    nothing else of that room changes, and nothing is saved or broadcast. *)
Definition withoutSocket (ws : Client) (l : Live) : Live :=
  {| live_room := set_clients (live_room l) (deleteClient (clients (live_room l)) ws);
     live_timers := live_timers l;
     live_next := live_next l |}.

Definition detachFromPreviousRoom (w : World) (ws : Client) (id : string) : World :=
  match ws_roomId ws with
  | None => w
  | Some previous =>
      if negb (truthy previous) || String.eqb previous id then w
      else
        match activeRooms w !! previous with
        | None => w
        | Some l =>
            {| activeRooms := <[previous := withoutSocket ws l]> (activeRooms w);
               store := store w;
               evicted := evicted w |}
        end
  end.

Definition create_room (w : World) (ws : Client) (payload : Payload)
  (uuid : string) (tm : nat -> Z) : World * Reply :=
  match payloadAddress payload with
  | Some address =>
      if truthy address
      then (commit (detachFromPreviousRoom w ws (slice 0 8 uuid))
              (create_room_sys (store w) ws address uuid tm), Done)
      else (w, Error "Missing address")
  | None => (w, Error "Missing address")
  end.

(** A handler that starts with [resolveRoomAndPlayer] (lines 534-549): the
    room is loaded, which registers it, and the handler runs on the room
    object. *)
Definition withRoom (w : World) (payload : Payload) (now : Z)
  (uuid : nat -> string) (handler : Sys -> Sys * Reply) : World * Reply :=
  match pl_roomId payload with
  | None => (w, Error "Room not found")
  | Some id =>
      match loadRoom w id now uuid with
      | (None, _) => (w, Error "Room not found")
      | (Some l, w1) =>
          (commit w1 (fst (handler (focus w1 l))), snd (handler (focus w1 l)))
      end
  end.

(** [resume_room] (lines 698-713) from the message on: the room is loaded
    before the payload is checked. *)
Definition resume_room_message (w : World) (ws : Client) (payload : Payload)
  (uuid : nat -> string) (tm : nat -> Z) : World * Reply :=
  let loaded := match pl_roomId payload with
                | Some id => loadRoom w id (tm 4%nat) uuid
                | None => (None, w)
                end in
  if negb (truthyAddr (payloadAddress payload))
     || negb (truthyAddr (pl_roomId payload))
  then (snd loaded, Error "Missing resume payload")
  else
    match loaded with
    | (None, w1) => (w1, Error "Room not found")
    | (Some l, w1) =>
        match resume_room (focus w1 l) ws payload tm with
        | (s', Done) =>
            (commit (detachFromPreviousRoom w1 ws (roomId (live_room l))) s', Done)
        | (s', reply) => (commit w1 s', reply)
        end
    end.

(** What is left of a room object that leaves the registry: the object
    itself, as long as a timer of its own is pending. *)
Definition retire (s : Sys) (l : list Live) : list Live :=
  match timers s with
  | [] => l
  | _ => toLive s :: l
  end.

Definition removeClient (w : World) (ws : Client) (uuid : nat -> string)
  (tm : nat -> Z) : World :=
  match ws_roomId ws with
  | None => w
  | Some id =>
      if negb (truthy id) then w
      else
        match loadRoom w id (tm 3%nat) uuid with
        | (None, _) => w
        | (Some l, w1) =>
            match removeClient_room (focus w1 l) ws tm with
            | (s', Kept) => commit w1 s'
            | (s', DeletedRoom) | (s', Evicted) =>
                {| activeRooms := delete (roomId (room s')) (activeRooms w1);
                   store := gameStore s';
                   evicted := retire s' (evicted w1) |}
            end
        end
  end.

(** The callback of the forfeit timer [handle] of the [i]-th evicted room
    object (lines 435-460): it runs on that object and saves the snapshot of
    that object under the id of the room, whatever room object is registered
    under the id by then. *)
Definition staleTimerExpired (w : World) (i handle : nat) (tm : nat -> Z) : World :=
  match evicted w !! i with
  | None => w
  | Some l =>
      let s' := forfeitTimerExpired (focus w l) handle (tm 0%nat) (tm 1%nat) in
      {| activeRooms := activeRooms w;
         store := gameStore s';
         evicted := <[i := toLive s']> (evicted w) |}
  end.

End Server.

(** The engine is read off the room; the configuration stays explicit. *)
Arguments Room : clear implicits.
Arguments Snapshot : clear implicits.
Arguments Sys : clear implicits.
Arguments Live : clear implicits.
Arguments World : clear implicits.

(* ===================================================================== *)
(** ** Results, the broadcast view and the AI search *)
(* ===================================================================== *)

(** A piece on the board, and a move as [chess.moves({verbose: true})] and
    [chess.history({verbose: true})] report it. *)
Inductive PieceType := pawn | knight | bishop | rook | queen | king.

Record Piece := {
  pc_type : PieceType;
  pc_color : Color
}.

Record VerboseMove := {
  vm_color : Color;
  vm_from : string;
  vm_to : string;
  vm_san : string;
  vm_captured : option PieceType;
  vm_promotion : option Promotion
}.

(** The queries of chess.js that the result classification, the broadcast
    view and the AI search use, beside those of [Engine]. *)
Record EngineQueries (E : Engine) := {
  isCheckmate : Position E -> bool;
  isStalemate : Position E -> bool;
  isInsufficientMaterial : Position E -> bool;
  isThreefoldRepetition : Position E -> bool;
  isDraw : Position E -> bool;
  (** [chess.board()] *)
  board : Position E -> list (list (option Piece));
  (** [chess.moves({verbose: true})] *)
  moves : Position E -> list VerboseMove;
  (** [chess.move(move)] on a move object; [None] when it throws. *)
  moveObject : Position E -> VerboseMove -> option (Position E);
  (** [chess.history({verbose: true})] *)
  history : Position E -> list VerboseMove
}.

Arguments isCheckmate {E}.
Arguments isStalemate {E}.
Arguments isInsufficientMaterial {E}.
Arguments isThreefoldRepetition {E}.
Arguments isDraw {E}.
Arguments board {E}.
Arguments moves {E}.
Arguments moveObject {E}.
Arguments history {E}.

(** What [getGameResult] returns: the forced result, or the verdict of the
    engine. *)
Inductive GameResult :=
| Forced (tag : ResultTag)
| black_wins
| white_wins
| stalemate
| insufficient_material
| threefold_repetition
| draw
| game_over.

(** A JS number that may be [Infinity] or [-Infinity]. *)
Inductive Score :=
| NegInf
| Fin (z : Z)
| PosInf.

(** [a <= b] *)
Definition sleb (a b : Score) : bool :=
  match a, b with
  | NegInf, _ => true
  | _, PosInf => true
  | Fin x, Fin y => Z.leb x y
  | _, _ => false
  end.

(** [a > b] *)
Definition sgtb (a b : Score) : bool := negb (sleb a b).

(** [Math.max(a, b)] and [Math.min(a, b)] *)
Definition smax (a b : Score) : Score := if sleb a b then b else a.
Definition smin (a b : Score) : Score := if sleb a b then a else b.

Record MoveView := {
  mv_ply : nat;
  mv_color : Color;
  mv_from : string;
  mv_to : string;
  mv_san : string
}.

Record ClockView := {
  cv_whiteMs : Z;
  cv_blackMs : Z;
  cv_running : bool;
  cv_incrementMs : Z
}.

Record ConnectionView := {
  whiteOnline : bool;
  blackOnline : bool;
  forfeitColor : option Color;
  forfeitDeadlineAt : option Z
}.

Record AiView := {
  av_enabled : bool;
  av_level : option Level;
  av_thinking : bool
}.

Section Views.

Context {E : Engine} (Q : EngineQueries E).

(** [getGameResult] (lines 137-148) *)
Definition getGameResult (r : Room E) : option GameResult :=
  match forcedResult r with
  | Some tag => Some (Forced tag)
  | None =>
      let chess := chess r in
      if negb (isGameOver E chess) then None
      else if isCheckmate Q chess
      then Some (match turn E chess with white => black_wins | black => white_wins end)
      else if isStalemate Q chess then Some stalemate
      else if isInsufficientMaterial Q chess then Some insufficient_material
      else if isThreefoldRepetition Q chess then Some threefold_repetition
      else if isDraw Q chess then Some draw
      else Some game_over
  end.

(** The object that [broadcastRoom] sends to every client. *)
Record GameView := {
  gv_id : string;
  gv_fen : Fen E;
  gv_turn : Color;
  gv_players : Players;
  gv_finished : bool;
  gv_result : option GameResult;
  gv_drawOfferBy : option Color;
  gv_rematchOffers : list Color;
  gv_moveHistory : list MoveView;
  gv_clock : ClockView;
  gv_chat : ChatState;
  gv_connection : ConnectionView;
  gv_ai : AiView
}.

(** [serializeGame] (lines 345-383) *)
Definition serializeGame (r : Room E) : GameView :=
  let moveHistory :=
    imap (fun idx m => {| mv_ply := idx + 1; mv_color := vm_color m;
                          mv_from := vm_from m; mv_to := vm_to m;
                          mv_san := vm_san m |})
         (history Q (chess r)) in
  {| gv_id := roomId r;
     gv_fen := fen E (chess r);
     gv_turn := turn E (chess r);
     gv_players := players r;
     gv_finished := isFinished r;
     gv_result := getGameResult r;
     gv_drawOfferBy := drawOfferBy r;
     gv_rematchOffers := elements (rematchOffers r);
     gv_moveHistory := moveHistory;
     gv_clock := {| cv_whiteMs := whiteMs (clock r); cv_blackMs := blackMs (clock r);
                    cv_running := running (clock r);
                    cv_incrementMs := incrementMs (clock r) |};
     gv_chat := chat r;
     gv_connection := {| whiteOnline := isPlayerOnline r white;
                         blackOnline := isPlayerOnline r black;
                         forfeitColor := f_color (forfeit r);
                         forfeitDeadlineAt := deadlineAt (forfeit r) |};
     gv_ai := {| av_enabled := enabled (ai r); av_level := level (ai r);
                 av_thinking := thinking (ai r) |} |}.

(** *** The AI search (lines 166-262) *)

Definition pieceValue (t : PieceType) : Z :=
  match t with
  | pawn => 100
  | knight => 320
  | bishop => 330
  | rook => 500
  | queen => 900
  | king => 0
  end.

Definition evaluatePositionForBlack (chess : Position E) : Z :=
  if isCheckmate Q chess
  then match turn E chess with white => 100000 | black => -100000 end
  else if isDraw Q chess || isStalemate Q chess || isInsufficientMaterial Q chess
  then 0
  else
    fold_left
      (fun (score : Z) (row : list (option Piece)) =>
         fold_left
           (fun (score : Z) (piece : option Piece) =>
              match piece with
              | None => score
              | Some pc =>
                  match pc_color pc with
                  | black => (score + pieceValue (pc_type pc))%Z
                  | white => (score - pieceValue (pc_type pc))%Z
                  end
              end)
           row score)
      (board Q chess) 0%Z.

(** [const next = new Chess(chess.fen()); next.move(move)]; [None] when the
    move throws. *)
Definition afterMove (chess : Position E) (m : VerboseMove) : option (Position E) :=
  moveObject Q (loadFen E (fen E chess)) m.

(** The loop of [minimaxForBlack] on a node where Black is to move. [child]
    is the recursive call one ply deeper; [None] is an exception. *)
Fixpoint maxLoop (child : Position E -> Score -> Score -> option Score)
  (chess : Position E) (ms : list VerboseMove) (best alpha beta : Score)
  : option Score :=
  match ms with
  | [] => Some best
  | m :: ms' =>
      match afterMove chess m with
      | None => None
      | Some next =>
          match child next alpha beta with
          | None => None
          | Some score =>
              let best' := smax best score in
              let alpha' := smax alpha best' in
              if sleb beta alpha' then Some best'
              else maxLoop child chess ms' best' alpha' beta
          end
      end
  end.

(** The loop on a node where White is to move. *)
Fixpoint minLoop (child : Position E -> Score -> Score -> option Score)
  (chess : Position E) (ms : list VerboseMove) (best alpha beta : Score)
  : option Score :=
  match ms with
  | [] => Some best
  | m :: ms' =>
      match afterMove chess m with
      | None => None
      | Some next =>
          match child next alpha beta with
          | None => None
          | Some score =>
              let best' := smin best score in
              let beta' := smin beta best' in
              if sleb beta' alpha then Some best'
              else minLoop child chess ms' best' alpha beta'
          end
      end
  end.

Fixpoint minimaxForBlack (depth : nat) (chess : Position E) (isBlackTurn : bool)
  (alpha beta : Score) : option Score :=
  match depth with
  | 0 => Some (Fin (evaluatePositionForBlack chess))
  | S depth' =>
      if isGameOver E chess then Some (Fin (evaluatePositionForBlack chess))
      else
        match moves Q chess with
        | [] => Some (Fin (evaluatePositionForBlack chess))
        | ms =>
            if isBlackTurn
            then maxLoop (fun next a b => minimaxForBlack depth' next false a b)
                   chess ms NegInf alpha beta
            else minLoop (fun next a b => minimaxForBlack depth' next true a b)
                   chess ms PosInf alpha beta
        end
  end.

(** The loop shared by the [hard] and [master] branches of [pickAiMove]:
    keep the first move whose score is greater than every score before it. *)
Fixpoint pickLoop (score : Position E -> option Score) (chess : Position E)
  (ms : list VerboseMove) (best : option VerboseMove) (bestScore : Score)
  : option (option VerboseMove) :=
  match ms with
  | [] => Some best
  | m :: ms' =>
      match afterMove chess m with
      | None => None
      | Some next =>
          match score next with
          | None => None
          | Some sc =>
              if sgtb sc bestScore then pickLoop score chess ms' (Some m) sc
              else pickLoop score chess ms' best bestScore
          end
      end
  end.

(** [return best || moves[0]] *)
Definition bestOrFirst (best : option VerboseMove) (ms : list VerboseMove)
  : option VerboseMove :=
  match best with
  | Some b => Some b
  | None => head ms
  end.

(** [pickAiMove] for the levels [hard] and [master]. The outer [None] is an
    exception, the inner one the [null] returned when there is no move. The
    levels [beginner] and [intermediate] draw on [Math.random()] and are not
    embedded. *)
Definition pickAiMove_hard (chess : Position E) : option (option VerboseMove) :=
  match moves Q chess with
  | [] => Some None
  | ms =>
      match pickLoop (fun next => Some (Fin (evaluatePositionForBlack next)))
              chess ms None NegInf with
      | None => None
      | Some best => Some (bestOrFirst best ms)
      end
  end.

Definition pickAiMove_master (chess : Position E) : option (option VerboseMove) :=
  match moves Q chess with
  | [] => Some None
  | ms =>
      match pickLoop (fun next => minimaxForBlack 2 next false NegInf PosInf)
              chess ms None NegInf with
      | None => None
      | Some best => Some (bestOrFirst best ms)
      end
  end.

End Views.

(* ===================================================================== *)
(** ** A concrete engine and configuration for the examples *)
(* ===================================================================== *)

(** The rules of chess on the first two plies from the starting position:
    White, then Black, has exactly twenty legal moves (sixteen pawn moves and
    four knight moves), whatever the other side played, and the game cannot
    be over. The examples never ask this engine about a third ply, where it
    refuses every move. *)
Module TwoPly.

Record Pos := {
  played : list (string * string);
  hist : nat
}.

Definition whiteFirst : list (string * string) :=
  [("a2","a3"); ("a2","a4"); ("b2","b3"); ("b2","b4"); ("c2","c3"); ("c2","c4");
   ("d2","d3"); ("d2","d4"); ("e2","e3"); ("e2","e4"); ("f2","f3"); ("f2","f4");
   ("g2","g3"); ("g2","g4"); ("h2","h3"); ("h2","h4");
   ("b1","a3"); ("b1","c3"); ("g1","f3"); ("g1","h3")].

Definition blackFirst : list (string * string) :=
  [("a7","a6"); ("a7","a5"); ("b7","b6"); ("b7","b5"); ("c7","c6"); ("c7","c5");
   ("d7","d6"); ("d7","d5"); ("e7","e6"); ("e7","e5"); ("f7","f6"); ("f7","f5");
   ("g7","g6"); ("g7","g5"); ("h7","h6"); ("h7","h5");
   ("b8","a6"); ("b8","c6"); ("g8","f6"); ("g8","h6")].

Definition listed (from to : string) (l : list (string * string)) : bool :=
  existsb (fun m => String.eqb (fst m) from && String.eqb (snd m) to) l.

Definition start : Pos := {| played := []; hist := 0 |}.

Definition sideToMove (p : Pos) : Color :=
  if Nat.even (length (played p)) then white else black.

Definition play (p : Pos) (from to : string) (_ : Promotion) : option Pos :=
  match played p with
  | [] => if listed from to whiteFirst
          then Some {| played := [(from, to)]; hist := S (hist p) |} else None
  | [w] => if listed from to blackFirst
           then Some {| played := [w; (from, to)]; hist := S (hist p) |} else None
  | _ => None
  end.

Definition engine : Engine :=
  {| Position := Pos;
     Fen := list (string * string);
     newChess := start;
     loadFen := fun f => {| played := f; hist := 0 |};
     fen := played;
     turn := sideToMove;
     isGameOver := fun _ => false;
     historyLength := hist;
     move := play |}.

End TwoPly.

(** The defaults of the source: a 60 s forfeit window, 5 min + 2 s clocks. *)
Definition defaultConfig : Config :=
  {| DISCONNECT_FORFEIT_MS := 60000;
     CLOCK_INITIAL_MS := 300000;
     CLOCK_INCREMENT_MS := 2000 |}.

Module Sample.

Definition E := TwoPly.engine.

Definition alice : string := "0xa11ce00000000000000000000000000000000001".
Definition bob : string := "0xb0b0000000000000000000000000000000000002".

Definition sock (n : nat) : Client :=
  {| connId := n; readyState := 1; playerAddress := None; ws_roomId := None |}.

Definition cmd (address : string) : Payload :=
  {| pl_roomId := Some "room0001"; pl_address := Some address;
     pl_from := ""; pl_to := ""; pl_promotion := None; pl_level := None;
     pl_username := None; pl_avatar := None; pl_text := None |}.

Definition moveCmd (address from to : string) : Payload :=
  {| pl_roomId := Some "room0001"; pl_address := Some address;
     pl_from := from; pl_to := to; pl_promotion := None; pl_level := None;
     pl_username := None; pl_avatar := None; pl_text := None |}.

Definition chatCmd (address : string) (name : option string) (text : string) : Payload :=
  {| pl_roomId := Some "room0001"; pl_address := Some address;
     pl_from := ""; pl_to := ""; pl_promotion := None; pl_level := None;
     pl_username := name; pl_avatar := None; pl_text := Some text |}.

(** Every [Date.now()] of a step returns the same millisecond. *)
Definition at_ (t : Z) : nat -> Z := fun _ => t.

Definition uuids : nat -> string := fun _ => "feedc0de-0000".

(** Alice creates the room at t = 1000. *)
Definition created : Sys E :=
  create_room_sys defaultConfig ∅ (sock 1) alice "room0001-uuid" (at_ 1000).

(** Bob joins at t = 2000: both seats are filled and the clock runs. *)
Definition joined : Sys E :=
  step defaultConfig (OpJoin (sock 2) (cmd bob)) (at_ 2000) created.

(** Bob's socket as the room holds it once attached, now closed. *)
Definition bobSocket : Client :=
  {| connId := 2; readyState := 3; playerAddress := Some bob;
     ws_roomId := Some "room0001" |}.

Definition aliceSocket : Client :=
  {| connId := 1; readyState := 3; playerAddress := Some alice;
     ws_roomId := Some "room0001" |}.

(** White's clock runs out: the tick at t = 302000 finds 300 s elapsed. *)
Definition flagged : Sys E := step defaultConfig OpTick (at_ 302000) joined.

(** Bob's only socket closes at t = 5000 while Alice stays connected. *)
Definition bobAway : Sys E :=
  step defaultConfig (OpDetach bobSocket) (at_ 5000) joined.

(** Alice sends "hello" at t = 3000 without a roster entry. *)
Definition chatted : Sys E :=
  step defaultConfig (OpSendChat (chatCmd alice None "hello") "c0ffee00-1111")
    (at_ 3000) joined.

(** Alice sends "hello" with a display name of 28 code units whose 24th is
    a space. *)
Definition longName : string := "aaaaaaaaaaaaaaaaaaaaaaa bbbb".

Definition chattedLong : Sys E :=
  step defaultConfig (OpSendChat (chatCmd alice (Some longName) "hello") "c0ffee00-1111")
    (at_ 3000) joined.

(** The registry and the store after Alice created the room, and after
    her socket closed. *)
Definition world0 : World E := {| activeRooms := ∅; store := ∅; evicted := [] |}.

Definition world1 : World E :=
  fst (create_room defaultConfig world0 (sock 1) (cmd alice) "room0001-uuid" (at_ 1000)).

Definition world2 : World E :=
  removeClient defaultConfig world1 aliceSocket uuids (at_ 9000).

End Sample.

(** The same two players under environments the start-up code accepts as
    they are: [Number(process.env.X || default)] takes the default only
    for an unset or empty variable, so [CLOCK_INITIAL_MS=0] and
    [CLOCK_INCREMENT_MS=-400000] are read as written (lines 13-14). *)
Module SampleEnv.

Import Sample.

Definition zeroBudget : Config :=
  {| DISCONNECT_FORFEIT_MS := 60000;
     CLOCK_INITIAL_MS := 0;
     CLOCK_INCREMENT_MS := 2000 |}.

Definition negativeIncrement : Config :=
  {| DISCONNECT_FORFEIT_MS := 60000;
     CLOCK_INITIAL_MS := 300000;
     CLOCK_INCREMENT_MS := -400000 |}.

(** Alice creates the room at t = 1000 and Bob joins at t = 2000. *)
Definition joinedUnder (cfg : Config) : Sys E :=
  step cfg (OpJoin (sock 2) (cmd bob)) (at_ 2000)
    (create_room_sys cfg ∅ (sock 1) alice "room0001-uuid" (at_ 1000)).

(** White plays e2-e4 at t = 5000. *)
Definition movedUnder (cfg : Config) : Sys E :=
  step cfg (OpMove (moveCmd alice "e2" "e4")) (at_ 5000) (joinedUnder cfg).

End SampleEnv.

(* ===================================================================== *)
(** ** Basic facts: what each function leaves alone *)
(* ===================================================================== *)

Section Frames.

Context {E : Engine} (cfg : Config).

Implicit Types (r : Room E) (s : Sys E) (k : ClockState).

Lemma isFinished_forced r x : forcedResult r = Some x -> isFinished r = true.
Proof. intros H. unfold isFinished. rewrite H. reflexivity. Qed.

Lemma isFinished_false r :
  isFinished r = false -> forcedResult r = None /\ isGameOver E (chess r) = false.
Proof.
  unfold isFinished. intros H. apply orb_false_iff in H as [H1 H2].
  split; [|exact H2]. destruct (forcedResult r); [|reflexivity].
  rewrite bool_decide_eq_false in H1. exfalso. apply H1. eauto.
Qed.

(** [isFinished] reads the forced result and the position only. *)
Lemma isFinished_ext r r' :
  forcedResult r' = forcedResult r -> chess r' = chess r ->
  isFinished r' = isFinished r.
Proof. unfold isFinished. intros -> ->. reflexivity. Qed.

Lemma applyClockDecay_finished r now :
  isFinished r = true -> applyClockDecay r now = r.
Proof. intros H. unfold applyClockDecay. rewrite H, orb_true_r. reflexivity. Qed.

Lemma applyClockDecay_stopped r now :
  running (clock r) = false -> applyClockDecay r now = r.
Proof. intros H. unfold applyClockDecay. rewrite H. reflexivity. Qed.

(** Decay touches the clock, the forced result and the offers, nothing else. *)
Lemma applyClockDecay_frame r now :
  let r' := applyClockDecay r now in
  roomId r' = roomId r /\ chess r' = chess r /\ players r' = players r /\
  clients r' = clients r /\ chat r' = chat r /\ ai r' = ai r /\
  createdAt r' = createdAt r /\ forfeit r' = forfeit r /\
  incrementMs (clock r') = incrementMs (clock r).
Proof.
  unfold applyClockDecay.
  repeat case_match; simpl; repeat split; try reflexivity;
    destruct (currentTurnColor r); reflexivity.
Qed.

Lemma applyClockDecay_chess r now : chess (applyClockDecay r now) = chess r.
Proof. apply (applyClockDecay_frame r now). Qed.

Lemma applyClockDecay_roomId r now : roomId (applyClockDecay r now) = roomId r.
Proof. apply (applyClockDecay_frame r now). Qed.

(** The result tag after a decay: the old one, or a time-out. *)
Lemma applyClockDecay_forcedResult r now :
  forcedResult (applyClockDecay r now) = forcedResult r \/
  (forcedResult r = None /\
   exists c, forcedResult (applyClockDecay r now) = Some (timeoutAgainst c)).
Proof.
  destruct (isFinished r) eqn:Hf.
  { rewrite applyClockDecay_finished by exact Hf. by left. }
  apply isFinished_false in Hf as [Hn _].
  unfold applyClockDecay.
  repeat case_match; simpl; try (by left); right; (split; [exact Hn|]);
    repeat match goal with
    | H : (if ?b then _ else _) = Some _ |- _ => destruct b eqn:?
    end; simplify_eq; try (by exists white); try (by exists black);
    congruence.
Qed.

Lemma stopClock_frame r :
  forcedResult (stopClock r) = forcedResult r /\ chess (stopClock r) = chess r /\
  roomId (stopClock r) = roomId r.
Proof. done. Qed.

Lemma startClockIfReady_frame r now :
  let r' := startClockIfReady r now in
  roomId r' = roomId r /\ chess r' = chess r /\ players r' = players r /\
  forcedResult r' = forcedResult r /\ drawOfferBy r' = drawOfferBy r /\
  rematchOffers r' = rematchOffers r /\ forfeit r' = forfeit r /\
  whiteMs (clock r') = whiteMs (clock r) /\ blackMs (clock r') = blackMs (clock r) /\
  incrementMs (clock r') = incrementMs (clock r).
Proof. unfold startClockIfReady. repeat case_match; done. Qed.

Lemma broadcastRoom_room s t t' :
  room (broadcastRoom s t t') = applyClockDecay (room s) t.
Proof. reflexivity. Qed.

Lemma broadcastRoom_timers s t t' :
  timers (broadcastRoom s t t') = timers s /\
  nextTimer (broadcastRoom s t t') = nextTimer s.
Proof. done. Qed.

Lemma clearForfeitTimer_room s :
  room (clearForfeitTimer s) = set_forfeit (room s) noForfeit.
Proof. reflexivity. Qed.

(** The clock is idempotent in the timestamp: a second decay at the same
    instant finds nothing to subtract. *)
Lemma applyClockDecay_tick_only r now :
  isFinished r = false ->
  applyClockDecay (set_clock r (set_lastTickAt (clock r) (Some now))) now
  = set_clock r (set_lastTickAt (clock r) (Some now)).
Proof.
  intros Hf. unfold applyClockDecay. simpl.
  replace (isFinished (set_clock r _)) with (isFinished r) by reflexivity.
  rewrite Hf, orb_false_r.
  destruct (negb (running (clock r))); [reflexivity|].
  destruct (Z.eqb_spec now 0) as [->|Hne]; [reflexivity|].
  rewrite Z.sub_diag. reflexivity.
Qed.

Lemma applyClockDecay_idempotent r now :
  applyClockDecay (applyClockDecay r now) now = applyClockDecay r now.
Proof.
  destruct (isFinished r) eqn:Hf.
  { rewrite (applyClockDecay_finished r now Hf).
    apply applyClockDecay_finished, Hf. }
  destruct (running (clock r)) eqn:Hrun.
  2:{ rewrite (applyClockDecay_stopped r now Hrun).
      apply applyClockDecay_stopped, Hrun. }
  unfold applyClockDecay at 2 3. rewrite Hrun, Hf. simpl.
  destruct (lastTickAt (clock r)) as [last|] eqn:Hlast.
  2:{ by apply applyClockDecay_tick_only. }
  destruct (Z.eqb last 0) eqn:Hz.
  { by apply applyClockDecay_tick_only. }
  destruct (Z.leb (now - last) 0) eqn:Hel.
  { unfold applyClockDecay. rewrite Hrun, Hf, Hlast, Hz, Hel. reflexivity. }
  match goal with |- context [match ?f with Some _ => _ | None => _ end] =>
    destruct f eqn:Hf2 end.
  - apply applyClockDecay_stopped. reflexivity.
  - match goal with |- applyClockDecay ?x _ = _ => set (r1 := x) end.
    assert (Hfr : forcedResult r1 = None) by reflexivity.
    assert (Hf1 : isFinished r1 = false).
    { rewrite <- Hf. apply isFinished_ext; [|reflexivity].
      rewrite Hfr. symmetry. by apply isFinished_false in Hf as [-> _]. }
    assert (Hl1 : lastTickAt (clock r1) = Some now) by reflexivity.
    unfold applyClockDecay. rewrite Hf1, Hl1, orb_false_r.
    destruct (negb (running (clock r1))); [reflexivity|].
    destruct (Z.eqb_spec now 0) as [Hn|Hn].
    + subst r1. simpl. rewrite Hn. reflexivity.
    + rewrite Z.sub_diag. reflexivity.
Qed.

End Frames.

(* ===================================================================== *)
(** ** The clock invariant of the reachable rooms *)
(* ===================================================================== *)

Section Invariant.

Context {E : Engine} (cfg : Config).
Hypothesis initial_nonneg : (0 <= CLOCK_INITIAL_MS cfg)%Z.
Hypothesis increment_nonneg : (0 <= CLOCK_INCREMENT_MS cfg)%Z.

Implicit Types (r : Room E) (s : Sys E) (k : ClockState) (id : string).

(** Budgets and increment are never negative; while no result is forced both
    budgets are positive (when the initial budget is); a forced result stops
    the clock. *)
Definition clockInv (k : ClockState) (f : option ResultTag) : Prop :=
  (0 <= whiteMs k /\ 0 <= blackMs k /\ 0 <= incrementMs k)%Z /\
  (f = None -> (0 < CLOCK_INITIAL_MS cfg)%Z -> (0 < whiteMs k /\ 0 < blackMs k)%Z) /\
  (is_Some f -> running k = false).

Definition roomInv id r : Prop :=
  roomId r = id /\ clockInv (clock r) (forcedResult r).

Definition snapInv id (snap : Snapshot E) : Prop :=
  s_id snap = id /\
  clockInv (default (createClockState cfg) (s_clock snap)) (s_forcedResult snap).

Definition sysInv id s : Prop :=
  roomInv id (room s) /\
  forall snap, gameStore s !! id = Some snap -> snapInv id snap.

Lemma roomInv_frame id r r' :
  roomInv id r -> roomId r' = roomId r -> clock r' = clock r ->
  forcedResult r' = forcedResult r -> roomInv id r'.
Proof. unfold roomInv. intros [? ?] -> -> ->. done. Qed.

Lemma clockInv_create : clockInv (createClockState cfg) None.
Proof.
  unfold clockInv; simpl. split; [lia|].
  split; [intros _ Hp; lia | by intros [? ?]].
Qed.

Lemma roomInv_decay id r now : roomInv id r -> roomInv id (applyClockDecay r now).
Proof.
  intros [Hid Hk]. split; [by rewrite applyClockDecay_roomId|].
  destruct (isFinished r) eqn:Hf.
  { by rewrite applyClockDecay_finished. }
  apply isFinished_false in Hf as [Hn _].
  destruct Hk as ((Hw & Hb & Hi) & Hpos & Hrun).
  unfold applyClockDecay.
  repeat case_match; try done; unfold clockInv; simpl;
    repeat match goal with
    | H : (if ?b then _ else _) = _ |- _ => destruct b eqn:?
    end; simplify_eq;
    repeat match goal with
    | H : Z.eqb _ _ = true |- _ => apply Z.eqb_eq in H
    | H : Z.eqb _ _ = false |- _ => apply Z.eqb_neq in H
    end;
    try (destruct (currentTurnColor r); simpl in *;
         split_and!; try lia; try done;
         try (intros ? Hp; specialize (Hpos Hn Hp); lia);
         try (by intros [? ?]); try congruence).
Qed.

Lemma roomInv_stop id r : roomInv id r -> roomInv id (stopClock r).
Proof.
  intros [Hid ((Hw & Hb & Hi) & Hpos & Hrun)]. split; [done|].
  unfold clockInv; simpl. split_and!; done.
Qed.

Lemma roomInv_start id r now : roomInv id r -> roomInv id (startClockIfReady r now).
Proof.
  intros H. unfold startClockIfReady.
  destruct (isFinished r) eqn:Hf; [by apply roomInv_stop|].
  case_match; [by apply roomInv_stop|].
  apply isFinished_false in Hf as [Hn _].
  destruct H as [Hid ((Hw & Hb & Hi) & Hpos & Hrun)]. split; [done|].
  unfold clockInv; simpl. split_and!; try done.
  rewrite Hn. by intros [? ?].
Qed.

(** Setting a result: the tail shared by resignation, agreed draw, forfeit. *)
Lemma roomInv_finish id r tag :
  roomInv id r ->
  roomInv id (let r1 := clearOffers (set_forcedResult r (Some tag)) in
              set_clock r1 (set_running (clock r1) false)).
Proof.
  intros [Hid ((Hw & Hb & Hi) & Hpos & Hrun)]. split; [done|].
  unfold clockInv; simpl. split_and!; done.
Qed.

(** The Fischer increment after a move, in a game that is not decided. *)
Lemma roomInv_increment id r c t b :
  roomInv id r -> forcedResult r = None ->
  roomInv id (set_clock r
                (set_running
                   (set_lastTickAt
                      (set_ms c (clock r) (clockMs c (clock r) + incrementMs (clock r)))
                      t) b)).
Proof.
  intros [Hid ((Hw & Hb & Hi) & Hpos & Hrun)] Hn. split; [done|].
  unfold clockInv. destruct c; simpl; rewrite Hn; split_and!; try lia;
    try (intros _ Hp; specialize (Hpos Hn Hp); lia); by intros [? ?].
Qed.

Lemma roomInv_reset id r now :
  roomId r = id -> roomInv id (resetGameForRematch cfg r now).
Proof.
  intros Hid. unfold resetGameForRematch.
  apply roomInv_start. split.
  - case_match; exact Hid.
  - case_match; apply clockInv_create.
Qed.

Lemma roomInv_new id address now : roomInv id (newRoom cfg id address now).
Proof. split; [done|]. apply clockInv_create. Qed.

Lemma roomInv_fromSnapshot id snap now uuid :
  snapInv id snap -> roomInv id (fromSnapshot cfg snap now uuid).
Proof. intros [Hid Hk]. split; done. Qed.

Lemma snapInv_toSnapshot id r now : roomInv id r -> snapInv id (toSnapshot r now).
Proof. intros [Hid Hk]. split; done. Qed.

(** *** Lifting to the room in its runtime *)

Lemma sysInv_room id s : sysInv id s -> roomInv id (room s).
Proof. by intros [? _]. Qed.

Lemma sysInv_set_room id s r : sysInv id s -> roomInv id r -> sysInv id (set_room s r).
Proof. intros [_ Hs] Hr. split; done. Qed.

Lemma sysInv_update id s r :
  sysInv id s -> roomId r = roomId (room s) -> clock r = clock (room s) ->
  forcedResult r = forcedResult (room s) -> sysInv id (set_room s r).
Proof.
  intros H ???. apply sysInv_set_room; [done|].
  eapply roomInv_frame; eauto using sysInv_room.
Qed.

Lemma sysInv_save id s now : sysInv id s -> sysInv id (saveRoom s now).
Proof.
  intros [Hr Hs]. split; [done|]. intros snap. simpl.
  destruct Hr as [Hid Hk]. rewrite Hid, lookup_insert_eq.
  intros [= <-]. by apply snapInv_toSnapshot.
Qed.

Lemma sysInv_broadcast id s t t' : sysInv id s -> sysInv id (broadcastRoom s t t').
Proof.
  intros H. apply sysInv_save, sysInv_set_room; [done|].
  apply roomInv_decay, sysInv_room, H.
Qed.

Lemma sysInv_clearForfeitTimer id s : sysInv id s -> sysInv id (clearForfeitTimer s).
Proof. intros [Hr Hs]. split; [|done]. eapply roomInv_frame; eauto. Qed.

Lemma sysInv_deleteRoom id s : sysInv id s -> sysInv id (deleteRoom s).
Proof.
  intros [Hr Hs]. split; [done|]. intros snap. simpl.
  destruct Hr as [-> _]. by rewrite lookup_delete_eq.
Qed.

Lemma sysInv_maybeStartForfeitTimer id s c t0 t1 t2 :
  sysInv id s -> sysInv id (maybeStartForfeitTimer cfg s c t0 t1 t2).
Proof.
  intros H. unfold maybeStartForfeitTimer. repeat case_match; try done.
  apply sysInv_broadcast. destruct H as [Hr Hs]. split; [|done].
  eapply roomInv_frame; eauto.
Qed.

Lemma sysInv_finishWith id s tag t t' :
  sysInv id s -> sysInv id (finishWith s tag t t').
Proof.
  intros H. unfold finishWith.
  apply sysInv_broadcast, sysInv_clearForfeitTimer, sysInv_set_room; [done|].
  apply (roomInv_finish id (room s) tag), sysInv_room, H.
Qed.

Lemma sysInv_forfeitTimerExpired id s h t t' :
  sysInv id s -> sysInv id (forfeitTimerExpired s h t t').
Proof.
  intros H. unfold forfeitTimerExpired.
  assert (Hany : forall tl, sysInv id {| room := room s; timers := tl;
                nextTimer := nextTimer s; gameStore := gameStore s |})
    by (intros tl; destruct H; split; done).
  destruct (List.find _ _); [|done].
  repeat case_match;
    try (apply sysInv_broadcast, sysInv_clearForfeitTimer, Hany).
  apply sysInv_broadcast, sysInv_clearForfeitTimer, sysInv_set_room; [apply Hany|].
  apply (roomInv_finish id (room s) _), sysInv_room, H.
Qed.

Lemma sysInv_maybeClearForfeitOnReconnect id s c t t' :
  sysInv id s -> sysInv id (maybeClearForfeitOnReconnect s c t t').
Proof.
  intros H. unfold maybeClearForfeitOnReconnect. case_match; [|done].
  by apply sysInv_broadcast, sysInv_clearForfeitTimer.
Qed.

Lemma sysInv_attachClientToRoom id s ws a t t' :
  sysInv id s -> sysInv id (attachClientToRoom s ws a t t').
Proof.
  intros H. unfold attachClientToRoom.
  assert (sysInv id (set_room s (set_clients (room s)
            (addClient (clients (room s))
               {| connId := connId ws; readyState := readyState ws;
                  playerAddress := Some a; ws_roomId := Some (roomId (room s)) |}))))
    by (by apply sysInv_update).
  case_match; [|done]. by apply sysInv_maybeClearForfeitOnReconnect.
Qed.

(** *** Every handler keeps the invariant *)

Lemma sysInv_join_room id s ws payload tm :
  sysInv id s -> sysInv id (fst (join_room s ws payload tm)).
Proof.
  intros H. unfold join_room.
  assert (Hr1 : forall a, roomInv id (startClockIfReady (set_black (room s) a) (tm 0%nat))).
  { intros a. apply roomInv_start. eapply roomInv_frame; eauto using sysInv_room. }
  repeat case_match; simpl; try done;
    try (apply sysInv_broadcast, sysInv_attachClientToRoom);
    try (apply sysInv_set_room; [done|]); auto using sysInv_room.
Qed.

Lemma sysInv_set_ai_level id s payload tm :
  sysInv id s -> sysInv id (fst (set_ai_level s payload tm)).
Proof.
  intros H. unfold set_ai_level.
  repeat case_match; simpl; try done.
  apply sysInv_broadcast.
  match goal with |- sysInv _ (set_room ?s1 _) => assert (Hs1 : sysInv id s1) end.
  { apply sysInv_clearForfeitTimer. by apply sysInv_update. }
  apply sysInv_set_room; [done|]. apply roomInv_start, sysInv_room, Hs1.
Qed.

Lemma sysInv_resume_room id s ws payload tm :
  sysInv id s -> sysInv id (fst (resume_room s ws payload tm)).
Proof.
  intros H. unfold resume_room. repeat case_match; simpl; try done.
  by apply sysInv_broadcast, sysInv_attachClientToRoom.
Qed.

Lemma sysInv_maybeRunAiTurn_begin id s t t' :
  sysInv id s -> sysInv id (fst (maybeRunAiTurn_begin s t t')).
Proof.
  intros H. unfold maybeRunAiTurn_begin. repeat case_match; simpl; try done.
  apply sysInv_broadcast. by apply sysInv_update.
Qed.

(** The state right after a move was applied: position replaced, offers and
    forfeit timer cleared. *)
Lemma sysInv_moved id s r1 p' :
  sysInv id s -> roomInv id r1 ->
  sysInv id (clearForfeitTimer (set_room s (clearOffers (set_chess r1 p')))).
Proof.
  intros H Hr1. apply sysInv_clearForfeitTimer, sysInv_set_room; [done|].
  eapply roomInv_frame; eauto.
Qed.

Lemma sysInv_make_move id s payload tm :
  sysInv id s -> sysInv id (fst (make_move cfg s payload tm)).
Proof.
  intros H. unfold make_move.
  destruct (resolvePlayer _ _ _) as [[a color]|e]; [|done].
  destruct (isFinished (room s)) eqn:Hf0; [done|].
  destruct (negb _); [done|].
  set (r1 := applyClockDecay (room s) (tm 0%nat)).
  assert (Hr1 : roomInv id r1) by apply roomInv_decay, sysInv_room, H.
  destruct (isFinished r1) eqn:Hf1.
  { simpl. by apply sysInv_broadcast, sysInv_set_room. }
  destruct (move E _ _ _ _) as [p'|]; [|by apply sysInv_set_room].
  pose proof (sysInv_moved id s r1 p' H Hr1) as H2.
  set (s2 := clearForfeitTimer _) in *.
  apply isFinished_false in Hf1 as [Hn1 _].
  assert (Hn2 : forcedResult (room s2) = None) by exact Hn1.
  pose proof (roomInv_increment id (room s2) color (Some (tm 1%nat)) true
                (sysInv_room _ _ H2) Hn2) as Hr3.
  match type of Hr3 with roomInv _ ?x => set (r3 := x) in * end.
  assert (H3 : sysInv id (set_room s2 r3)) by (by apply sysInv_set_room).
  cbv zeta. fold r3.
  destruct (negb (isFinished r3)).
  - destruct (enabled (ai r3) && _).
    + by apply sysInv_maybeRunAiTurn_begin.
    + destruct (negb _); simpl.
      * by apply sysInv_maybeStartForfeitTimer.
      * by apply sysInv_broadcast.
  - simpl. apply sysInv_broadcast, sysInv_set_room; [done|].
    destruct Hr3 as [Hid ((Hw & Hb & Hi) & Hpos & Hrun)]. split; [done|].
    unfold clockInv. split_and!; try done.
Qed.

Lemma sysInv_maybeRunAiTurn_resume id s picked t0 t1 t2 t3 :
  sysInv id s -> sysInv id (fst (maybeRunAiTurn_resume s picked t0 t1 t2 t3)).
Proof.
  intros H. unfold maybeRunAiTurn_resume.
  set (r1 := applyClockDecay (room s) t0).
  assert (Hr1 : roomInv id r1) by apply roomInv_decay, sysInv_room, H.
  assert (Hdone : forall r, roomInv id r -> roomInv id (aiDone r))
    by (intros r Hr; eapply roomInv_frame; eauto).
  destruct (isFinished r1) eqn:Hf1.
  { simpl. apply sysInv_set_room; [done|]. by apply Hdone, roomInv_stop. }
  destruct picked as [mv|]; simpl.
  2:{ apply sysInv_set_room; [done|]. by apply Hdone, roomInv_stop. }
  destruct (move E _ _ _ _) as [p'|]; simpl.
  2:{ apply sysInv_set_room; [done|]. by apply Hdone. }
  pose proof (sysInv_moved id s r1 p' H Hr1) as H2.
  set (s2 := clearForfeitTimer _) in *.
  apply isFinished_false in Hf1 as [Hn1 _].
  assert (Hn2 : forcedResult (room s2) = None) by exact Hn1.
  apply sysInv_broadcast, sysInv_set_room; [done|]. apply Hdone.
  pose proof (roomInv_increment id (room s2) black (lastTickAt (clock (room s2)))
                (running (clock (room s2))) (sysInv_room _ _ H2) Hn2) as Hr3.
  match goal with |- roomInv _ (if isFinished ?x then _ else _) => set (r3 := x) end.
  assert (Hr3' : roomInv id r3).
  { destruct Hr3 as [Hid Hk]. split; [done|]. exact Hk. }
  destruct (isFinished r3); [by apply roomInv_stop|].
  exact (roomInv_increment id (room s2) black (Some t1) true
           (sysInv_room _ _ H2) Hn2).
Qed.

Lemma sysInv_resign id s payload tm :
  sysInv id s -> sysInv id (fst (resign s payload tm)).
Proof.
  intros H. unfold resign. repeat case_match; simpl; try done.
  by apply sysInv_finishWith.
Qed.

Lemma sysInv_offer_draw id s payload tm :
  sysInv id s -> sysInv id (fst (offer_draw s payload tm)).
Proof.
  intros H. unfold offer_draw. repeat case_match; simpl; try done.
  apply sysInv_broadcast. by apply sysInv_update.
Qed.

Lemma sysInv_accept_draw id s payload tm :
  sysInv id s -> sysInv id (fst (accept_draw s payload tm)).
Proof.
  intros H. unfold accept_draw. repeat case_match; simpl; try done.
  by apply sysInv_finishWith.
Qed.

Lemma sysInv_offer_rematch id s payload tm :
  sysInv id s -> sysInv id (fst (offer_rematch cfg s payload tm)).
Proof.
  intros H. unfold offer_rematch. repeat case_match; simpl; try done.
  - apply sysInv_broadcast, sysInv_set_room; [done|].
    apply roomInv_reset. apply (sysInv_room _ _ H).
  - apply sysInv_broadcast. by apply sysInv_update.
Qed.

Lemma sysInv_escrow_log id s payload :
  sysInv id s -> sysInv id (fst (escrow_log s payload)).
Proof. intros H. unfold escrow_log. by repeat case_match. Qed.

Lemma sysInv_enter_chat id s payload tm :
  sysInv id s -> sysInv id (fst (enter_chat s payload tm)).
Proof.
  intros H. unfold enter_chat. repeat case_match; simpl; try done.
  apply sysInv_broadcast. by apply sysInv_update.
Qed.

Lemma sysInv_send_chat id s payload uuid tm :
  sysInv id s -> sysInv id (fst (send_chat s payload uuid tm)).
Proof.
  intros H. unfold send_chat.
  destruct (resolvePlayer _ _ _) as [[a color]|e]; [|done].
  destruct (normalizeChatMember _ _); cbv zeta beta iota;
    (destruct (negb _ || _); simpl;
     [|apply sysInv_broadcast]; by apply sysInv_update).
Qed.

Lemma sysInv_tick id s tm : sysInv id s -> sysInv id (tick s tm).
Proof.
  intros H. unfold tick. case_match; [done|]. by apply sysInv_broadcast.
Qed.

Lemma sysInv_removeClient_tail id s tm :
  sysInv id s -> sysInv id (fst (removeClient_tail s tm)).
Proof.
  intros H. unfold removeClient_tail. repeat case_match; simpl.
  - by apply sysInv_deleteRoom, sysInv_clearForfeitTimer.
  - by apply sysInv_broadcast.
  - by apply sysInv_broadcast.
Qed.

Lemma sysInv_removeClient_room id s ws tm :
  sysInv id s -> sysInv id (fst (removeClient_room cfg s ws tm)).
Proof.
  intros H. unfold removeClient_room.
  match goal with |- context [getPlayerColor (room ?x)] =>
    assert (Hs1 : sysInv id x) by (by apply sysInv_update) end.
  repeat case_match; simpl;
    auto using sysInv_removeClient_tail, sysInv_maybeStartForfeitTimer.
Qed.

Lemma sysInv_create store0 ws address uuid tm :
  sysInv (slice 0 8 uuid) (create_room_sys cfg store0 ws address uuid tm).
Proof.
  unfold create_room_sys.
  apply sysInv_broadcast, sysInv_attachClientToRoom.
  split; [apply roomInv_new|]. intros snap. simpl.
  rewrite lookup_insert_eq. intros [= <-].
  apply snapInv_toSnapshot, roomInv_new.
Qed.

Lemma sysInv_reloadRoom id s now uuid :
  sysInv id s -> sysInv id (reloadRoom cfg s now uuid).
Proof.
  intros H. unfold reloadRoom. destruct (H) as [[Hid _] Hs]. rewrite Hid.
  destruct (gameStore s !! id) as [snap|] eqn:Hl; [|done].
  split; [by apply roomInv_fromSnapshot, Hs |].
  intros snap0. simpl. rewrite Hl. apply Hs.
Qed.

Lemma sysInv_step id op tm s : sysInv id s -> sysInv id (step cfg op tm s).
Proof.
  intros H. destruct op; simpl;
    auto using sysInv_join_room, sysInv_set_ai_level, sysInv_resume_room,
      sysInv_make_move, sysInv_maybeRunAiTurn_resume, sysInv_resign,
      sysInv_offer_draw, sysInv_accept_draw, sysInv_offer_rematch,
      sysInv_escrow_log, sysInv_enter_chat, sysInv_send_chat, sysInv_tick,
      sysInv_forfeitTimerExpired, sysInv_removeClient_room, sysInv_broadcast;
    by apply sysInv_update.
Qed.

Lemma reachable_sysInv s : reachable cfg s -> exists id, sysInv id s.
Proof.
  induction 1 as [store0 ws address uuid tm _|op tm s _ [id IH]|now uuid s _ [id IH]].
  - eexists. apply sysInv_create.
  - exists id. by apply sysInv_step.
  - exists id. by apply sysInv_reloadRoom.
Qed.

End Invariant.

(* ===================================================================== *)
(** ** Clock properties *)
(* ===================================================================== *)

Section ClockClaims.

Context {E : Engine} (cfg : Config).

Implicit Types (r : Room E) (s : Sys E).

Lemma reachable_clockInv s :
  (0 <= CLOCK_INITIAL_MS cfg)%Z -> (0 <= CLOCK_INCREMENT_MS cfg)%Z ->
  reachable cfg s -> clockInv cfg (clock (room s)) (forcedResult (room s)).
Proof.
  intros Hi Hc Hr. destruct (reachable_sysInv cfg Hi Hc s Hr) as [id [[_ Hk] _]].
  exact Hk.
Qed.

(** When the budget of the side to move is zero after a decay, in a room
    whose clock runs and whose other budget is not zero, that decay has set
    the time-out result for the opponent, stopped the clock and cleared the
    offers. *)
Lemma applyClockDecay_flags r now :
  running (clock r) = true -> forcedResult r = None ->
  (0 < whiteMs (clock r))%Z -> (0 < blackMs (clock r))%Z ->
  clockMs (currentTurnColor r) (clock (applyClockDecay r now)) = 0%Z ->
  let r' := applyClockDecay r now in
  forcedResult r' = Some (timeoutAgainst (currentTurnColor r)) /\
  running (clock r') = false /\ drawOfferBy r' = None /\ rematchOffers r' = ∅.
Proof.
  intros Hrun Hn Hw Hb. unfold applyClockDecay. rewrite Hrun, Hn. simpl.
  destruct (isFinished r) eqn:Hover.
  { destruct (currentTurnColor r); simpl; lia. }
  destruct (lastTickAt (clock r)) as [last|].
  2:{ destruct (currentTurnColor r); simpl; lia. }
  destruct (Z.eqb last 0).
  { destruct (currentTurnColor r); simpl; lia. }
  destruct (Z.leb (now - last) 0).
  { destruct (currentTurnColor r); simpl; lia. }
  destruct (currentTurnColor r); simpl.
  - destruct (Z.eqb_spec (blackMs (clock r)) 0); [lia|].
    destruct (Z.eqb_spec (0 `max` (whiteMs (clock r) - (now - last))) 0) as [e|ne];
      simpl; [done|]. intros; contradiction.
  - destruct (Z.eqb_spec (0 `max` (blackMs (clock r) - (now - last))) 0) as [e|ne];
      simpl; [done|].
    destruct (Z.eqb_spec (whiteMs (clock r)) 0); [lia|]. simpl.
    intros; contradiction.
Qed.

(** C6 (as amended). In every room reached under a configuration with a
    positive initial budget and a non-negative increment, if the clock runs
    and a clock decay leaves the side to move with zero remaining time, then
    that decay sets [forcedResult] to the time-out win of the opponent,
    stops the clock and clears the draw offer and the rematch offers. Every
    operation decays through the same function: the room a broadcast leaves
    is the decayed room. *)
Theorem decay_to_zero_forces_timeout s now tSave :
  (0 < CLOCK_INITIAL_MS cfg)%Z -> (0 <= CLOCK_INCREMENT_MS cfg)%Z ->
  reachable cfg s ->
  running (clock (room s)) = true ->
  clockMs (currentTurnColor (room s)) (clock (applyClockDecay (room s) now)) = 0%Z ->
  forcedResult (applyClockDecay (room s) now)
    = Some (timeoutAgainst (currentTurnColor (room s))) /\
  running (clock (applyClockDecay (room s) now)) = false /\
  drawOfferBy (applyClockDecay (room s) now) = None /\
  rematchOffers (applyClockDecay (room s) now) = ∅ /\
  room (broadcastRoom s now tSave) = applyClockDecay (room s) now.
Proof.
  intros Hi Hc Hr Hrun Hzero.
  destruct (reachable_clockInv s ltac:(lia) Hc Hr) as (_ & Hpos & Hstop).
  assert (Hn : forcedResult (room s) = None).
  { destruct (forcedResult (room s)) eqn:Hf; [|done].
    rewrite Hstop in Hrun by eauto. discriminate. }
  destruct (Hpos Hn Hi) as [Hw Hb].
  destruct (applyClockDecay_flags (room s) now Hrun Hn Hw Hb Hzero)
    as (H1 & H2 & H3 & H4).
  split_and!; done.
Qed.

(** C9 (as amended). In every room reached under a configuration with a
    non-negative initial budget and a non-negative increment, both remaining
    times are non-negative, and they still are after any further operation;
    and a second clock decay at the same timestamp changes nothing. *)
Theorem clock_never_negative_decay_idempotent s op tm now :
  (0 <= CLOCK_INITIAL_MS cfg)%Z -> (0 <= CLOCK_INCREMENT_MS cfg)%Z ->
  reachable cfg s ->
  (0 <= whiteMs (clock (room s)) /\ 0 <= blackMs (clock (room s)))%Z /\
  (0 <= whiteMs (clock (room (step cfg op tm s))) /\
   0 <= blackMs (clock (room (step cfg op tm s))))%Z /\
  applyClockDecay (applyClockDecay (room s) now) now = applyClockDecay (room s) now.
Proof.
  intros Hi Hc Hr.
  destruct (reachable_clockInv s Hi Hc Hr) as ((Hw & Hb & _) & _).
  destruct (reachable_clockInv _ Hi Hc (reach_step cfg op tm s Hr))
    as ((Hw' & Hb' & _) & _).
  split_and!; try done. apply applyClockDecay_idempotent.
Qed.

End ClockClaims.

(* ===================================================================== *)
(** ** The forced result is written once *)
(* ===================================================================== *)

Section ForcedResult.

Context {E : Engine} (cfg : Config) (x : ResultTag).

Implicit Types (r : Room E) (s : Sys E).

(** The game of the room has the forced result [x]. *)
Definition decided s : Prop := forcedResult (room s) = Some x.

Lemma decided_finished s : decided s -> isFinished (room s) = true.
Proof. apply isFinished_forced. Qed.



Lemma decided_clearForfeitTimer s : decided s -> decided (clearForfeitTimer s).
Proof. done. Qed.

Lemma decided_maybeStartForfeitTimer s c t0 t1 t2 :
  decided s -> maybeStartForfeitTimer cfg s c t0 t1 t2 = s.
Proof.
  intros H. unfold maybeStartForfeitTimer. by rewrite decided_finished.
Qed.
















End ForcedResult.

(* ===================================================================== *)
(** ** The forfeit timer *)
(* ===================================================================== *)

Section ForfeitTimer.

Context {E : Engine} (cfg : Config).

Implicit Types (r : Room E) (s : Sys E).

(** The pending timers of a room are exactly the one its forfeit state
    holds, if it holds one; handles are fresh. *)
Definition timerInv s : Prop :=
  match timer (forfeit (room s)), f_color (forfeit (room s)) with
  | Some t, Some c => timers s = [ {| tid := t; tcolor := c |} ] /\ t < nextTimer s
  | _, _ => timers s = []
  end.

Lemma timerInv_update s r :
  timerInv s -> forfeit r = forfeit (room s) -> timerInv (set_room s r).
Proof. unfold timerInv. simpl. by intros H ->. Qed.

Lemma timerInv_broadcast s t t' : timerInv s -> timerInv (broadcastRoom s t t').
Proof.
  unfold timerInv. rewrite broadcastRoom_room.
  destruct (applyClockDecay_frame (room s) t) as (_&_&_&_&_&_&_&->&_). done.
Qed.

Lemma clearForfeitTimer_timers s :
  timerInv s ->
  timers (clearForfeitTimer s) = [] /\ forfeit (room (clearForfeitTimer s)) = noForfeit.
Proof.
  unfold timerInv. intros H. split; [|done]. simpl.
  destruct (timer (forfeit (room s))) as [t|]; [|exact H].
  destruct (f_color (forfeit (room s))).
  - destruct H as [-> _]. simpl. by rewrite Nat.eqb_refl.
  - by rewrite H.
Qed.

Lemma timerInv_clearForfeitTimer s : timerInv s -> timerInv (clearForfeitTimer s).
Proof. intros H. by apply clearForfeitTimer_timers. Qed.

(** Starting a timer either does nothing or leaves the new timer alone. *)
Lemma maybeStartForfeitTimer_timers s c t0 t1 t2 :
  timerInv s ->
  maybeStartForfeitTimer cfg s c t0 t1 t2 = s \/
  (timers (maybeStartForfeitTimer cfg s c t0 t1 t2)
     = [ {| tid := nextTimer s; tcolor := c |} ] /\
   timer (forfeit (room (maybeStartForfeitTimer cfg s c t0 t1 t2))) = Some (nextTimer s) /\
   f_color (forfeit (room (maybeStartForfeitTimer cfg s c t0 t1 t2))) = Some c /\
   nextTimer (maybeStartForfeitTimer cfg s c t0 t1 t2) = S (nextTimer s)).
Proof.
  intros H. unfold maybeStartForfeitTimer.
  repeat case_match; try (by left). right.
  destruct (clearForfeitTimer_timers s H) as [Ht _].
  rewrite broadcastRoom_room.
  destruct (broadcastRoom_timers
              {| room := set_forfeit (room (clearForfeitTimer s))
                           {| f_color := Some c;
                              deadlineAt := Some (t0 + DISCONNECT_FORFEIT_MS cfg)%Z;
                              timer := Some (nextTimer (clearForfeitTimer s)) |};
                 timers := timers (clearForfeitTimer s)
                           ++ [ {| tid := nextTimer (clearForfeitTimer s); tcolor := c |} ];
                 nextTimer := S (nextTimer (clearForfeitTimer s));
                 gameStore := gameStore (clearForfeitTimer s) |} t1 t2) as [-> ->].
  match goal with |- context [applyClockDecay ?r t1] =>
    destruct (applyClockDecay_frame r t1) as (_&_&_&_&_&_&_&->&_) end.
  rewrite Ht. done.
Qed.

Lemma timerInv_maybeStartForfeitTimer s c t0 t1 t2 :
  timerInv s -> timerInv (maybeStartForfeitTimer cfg s c t0 t1 t2).
Proof.
  intros H. destruct (maybeStartForfeitTimer_timers s c t0 t1 t2 H)
    as [->|(Ht & Hh & Hc & Hn)]; [done|].
  unfold timerInv. rewrite Hh, Hc, Ht, Hn. split; [done|lia].
Qed.

Lemma timerInv_find s h fired :
  timerInv s -> List.find (fun x => Nat.eqb (tid x) h) (timers s) = Some fired ->
  timers s = [fired] /\ tid fired = h /\
  timer (forfeit (room s)) = Some h /\ f_color (forfeit (room s)) = Some (tcolor fired).
Proof.
  unfold timerInv. intros H Hfind.
  destruct (timer (forfeit (room s))) as [t|];
    [destruct (f_color (forfeit (room s))) as [c|]|];
    try (rewrite H in Hfind; discriminate).
  destruct H as [Ht _]. rewrite Ht in Hfind. simpl in Hfind.
  destruct (Nat.eqb_spec t h); [|discriminate].
  injection Hfind as <-. subst. done.
Qed.

Lemma timerInv_forfeitTimerExpired s h t t' :
  timerInv s -> timerInv (forfeitTimerExpired s h t t').
Proof.
  intros H. unfold forfeitTimerExpired.
  destruct (List.find _ _) as [fired|] eqn:Hfind; [|done].
  destruct (timerInv_find s h fired H Hfind) as (Ht & Hid & Hh & Hc).
  assert (Hclear : forall r, forfeit r = forfeit (room s) ->
            timerInv (broadcastRoom
                        (clearForfeitTimer
                           {| room := r; timers := clearTimeout h (timers s);
                              nextTimer := nextTimer s; gameStore := gameStore s |})
                        t t')).
  { intros r Hr. apply timerInv_broadcast. unfold timerInv. simpl.
    rewrite Hr, Hh, Ht. simpl. rewrite Hid, Nat.eqb_refl. done. }
  repeat case_match; by apply Hclear.
Qed.

Lemma timerInv_attachClientToRoom s ws a t t' :
  timerInv s -> timerInv (attachClientToRoom s ws a t t').
Proof.
  intros H. unfold attachClientToRoom, maybeClearForfeitOnReconnect.
  repeat case_match; try (by apply timerInv_update).
  apply timerInv_broadcast, timerInv_clearForfeitTimer. by apply timerInv_update.
Qed.

Lemma timerInv_moved s r1 p' :
  timers (clearForfeitTimer (set_room s (clearOffers (set_chess r1 p')))) =
  match timer (forfeit r1) with
  | Some t => clearTimeout t (timers s)
  | None => timers s
  end.
Proof. reflexivity. Qed.

Lemma timerInv_step op tm s : timerInv s -> timerInv (step cfg op tm s).
Proof.
  intros H.
  assert (Hfin : forall tag t t', timerInv (finishWith s tag t t')).
  { intros. unfold finishWith.
    apply timerInv_broadcast, timerInv_clearForfeitTimer. by apply timerInv_update. }
  destruct op; simpl.
  - (* join_room *)
    unfold join_room.
    assert (Hr1 : forall a, forfeit (startClockIfReady (set_black (room s) a) (tm 0%nat))
                            = forfeit (room s))
      by (intros a; apply (startClockIfReady_frame (set_black (room s) a))).
    repeat case_match; simpl; try done;
      try (apply timerInv_broadcast, timerInv_attachClientToRoom);
      try (by apply timerInv_update); by destruct s.
  - (* set_ai_level *)
    unfold set_ai_level. repeat case_match; simpl; try done.
    apply timerInv_broadcast.
    match goal with |- timerInv (set_room ?s1 _) => assert (Hs1 : timerInv s1) end.
    { apply timerInv_clearForfeitTimer. by apply timerInv_update. }
    apply timerInv_update; [done|].
    match goal with |- forfeit (startClockIfReady ?r _) = _ =>
      apply (startClockIfReady_frame r) end.
  - (* resume_room *)
    unfold resume_room. repeat case_match; simpl; try done.
    by apply timerInv_broadcast, timerInv_attachClientToRoom.
  - (* make_move *)
    unfold make_move.
    destruct (resolvePlayer _ _ _) as [[a color]|e]; [|done].
    destruct (isFinished (room s)); [done|].
    destruct (negb _); [done|].
    set (r1 := applyClockDecay (room s) (tm 0%nat)).
    assert (Hfr : forfeit r1 = forfeit (room s))
      by apply (applyClockDecay_frame (room s)).
    assert (Hs1 : timerInv (set_room s r1)) by (by apply timerInv_update).
    destruct (isFinished r1); [by apply timerInv_broadcast|].
    destruct (move E _ _ _ _) as [p'|]; [|done].
    assert (Hs2 : timerInv (clearForfeitTimer (set_room s (clearOffers (set_chess r1 p'))))).
    { apply timerInv_clearForfeitTimer. by apply timerInv_update. }
    set (s2 := clearForfeitTimer _) in *.
    cbv zeta.
    match goal with |- context [negb (isFinished ?x)] => set (r3 := x) end.
    assert (Hs3 : timerInv (set_room s2 r3)) by (by apply timerInv_update).
    destruct (negb (isFinished r3)).
    + destruct (enabled (ai r3) && _).
      * unfold maybeRunAiTurn_begin. repeat case_match; simpl; try done.
        apply timerInv_broadcast. by apply timerInv_update.
      * destruct (negb _); simpl.
        -- by apply timerInv_maybeStartForfeitTimer.
        -- by apply timerInv_broadcast.
    + simpl. apply timerInv_broadcast. by apply timerInv_update.
  - (* AI turn *)
    unfold maybeRunAiTurn_resume.
    set (r1 := applyClockDecay (room s) (tm 0%nat)).
    assert (Hfr : forfeit r1 = forfeit (room s))
      by apply (applyClockDecay_frame (room s)).
    destruct (isFinished r1); [by apply timerInv_update|].
    destruct picked as [mv|]; [|by apply timerInv_update].
    destruct (move E _ _ _ _) as [p'|]; [|by apply timerInv_update].
    assert (Hs2 : timerInv (clearForfeitTimer (set_room s (clearOffers (set_chess r1 p'))))).
    { apply timerInv_clearForfeitTimer. by apply timerInv_update. }
    set (s2 := clearForfeitTimer _) in *.
    simpl. apply timerInv_broadcast, timerInv_update; [done|].
    by case_match.
  - (* resign *)
    unfold resign. repeat case_match; simpl; done.
  - (* offer_draw *)
    unfold offer_draw. repeat case_match; simpl; try done.
    apply timerInv_broadcast. by apply timerInv_update.
  - (* accept_draw *)
    unfold accept_draw. repeat case_match; simpl; done.
  - (* offer_rematch *)
    unfold offer_rematch. repeat case_match; simpl; try done;
      apply timerInv_broadcast, timerInv_update; try done.
    unfold resetGameForRematch.
    match goal with |- forfeit (startClockIfReady ?r _) = _ =>
      rewrite (proj1 (proj2 (proj2 (proj2 (proj2 (proj2 (proj2
                 (startClockIfReady_frame r (tm 0%nat)))))))))
    end.
    by case_match.
  - (* escrow_log *)
    unfold escrow_log. by repeat case_match.
  - (* enter_chat *)
    unfold enter_chat. repeat case_match; simpl; try done.
    apply timerInv_broadcast. by apply timerInv_update.
  - (* send_chat *)
    unfold send_chat.
    destruct (resolvePlayer _ _ _) as [[a color]|e]; [|done].
    destruct (normalizeChatMember _ _); cbv zeta beta iota;
      (destruct (negb _ || _); simpl;
       [|apply timerInv_broadcast]; by apply timerInv_update).
  - (* tick *)
    unfold tick. case_match; [done|]. by apply timerInv_broadcast.
  - (* forfeit timer expiry *)
    by apply timerInv_forfeitTimerExpired.
  - (* detach *)
    unfold removeClient_room, removeClient_tail.
    match goal with |- context [getPlayerColor (room ?x)] =>
      assert (Hs1 : timerInv x) by (by apply timerInv_update) end.
    repeat case_match; simplify_eq; simpl;
      auto using timerInv_maybeStartForfeitTimer, timerInv_broadcast.
    all: by apply (timerInv_clearForfeitTimer _ Hs1).
  - (* moved to another room *)
    by apply timerInv_update.
  - (* socket state *)
    by apply timerInv_update.
  - (* pending broadcast *)
    by apply timerInv_broadcast.
Qed.

Lemma reachable_timerInv s : reachable cfg s -> timerInv s.
Proof.
  induction 1 as [store0 ws address uuid tm _|op tm s _ IH|now uuid s _ IH].
  - unfold create_room_sys.
    apply timerInv_broadcast, timerInv_attachClientToRoom. done.
  - by apply timerInv_step.
  - unfold reloadRoom. by case_match.
Qed.

(** *** Reconnection *)

Lemma getPlayerColor_seat r address c :
  getPlayerColor r address = Some c ->
  truthyAddr address = true /\ seat (players r) c = address.
Proof.
  unfold getPlayerColor. destruct (truthyAddr address); simpl; [|done].
  repeat case_bool_decide; intros [= <-]; done.
Qed.

Lemma addClient_In cl ws : In ws (addClient cl ws).
Proof.
  unfold addClient. destruct (existsb _ cl) eqn:Hex.
  - apply existsb_exists in Hex as (c0 & Hin & Heq).
    apply in_map_iff. exists c0. by rewrite Heq.
  - apply in_or_app. right. by left.
Qed.

Lemma filter_hit {A} (f : A -> bool) (l : list A) (a : A) :
  In a l -> f a = true -> 0 < length (List.filter f l).
Proof.
  intros Hin Hf. assert (Hin' : In a (List.filter f l)) by (by apply filter_In).
  destruct (List.filter f l); [done|simpl; lia].
Qed.

(** A socket that attaches with the address of a seat, and is open, makes
    that seat online. *)
Lemma attach_makes_online r ws address c :
  getPlayerColor r (Some address) = Some c -> readyState ws = 1 ->
  isPlayerOnline
    (set_clients r
       (addClient (clients r)
          {| connId := connId ws; readyState := readyState ws;
             playerAddress := Some address; ws_roomId := Some (roomId r) |})) c
  = true.
Proof.
  intros Hc Hopen. apply getPlayerColor_seat in Hc as [Htr Hseat].
  unfold isPlayerOnline, getConnectedCount. simpl. rewrite Hseat, Htr. simpl.
  apply orb_true_iff. right. apply Nat.ltb_lt.
  eapply filter_hit; [apply addClient_In|].
  simpl. rewrite Hopen. simpl. by apply bool_decide_eq_true.
Qed.

Lemma attach_reconnect_clears s ws address c t t' :
  timerInv s -> f_color (forfeit (room s)) = Some c ->
  getPlayerColor (room s) (Some address) = Some c -> readyState ws = 1 ->
  timers (attachClientToRoom s ws address t t') = [] /\
  forfeit (room (attachClientToRoom s ws address t t')) = noForfeit.
Proof.
  intros Hinv Hflag Hc Hopen. unfold attachClientToRoom.
  set (s1 := set_room s _).
  assert (Hc1 : getPlayerColor (room s1) (Some address) = Some c) by exact Hc.
  rewrite Hc1. unfold maybeClearForfeitOnReconnect.
  assert (Hflag1 : f_color (forfeit (room s1)) = Some c) by exact Hflag.
  rewrite Hflag1, bool_decide_eq_true_2 by done.
  assert (Hon : isPlayerOnline (room s1) c = true)
    by (by apply attach_makes_online).
  rewrite Hon. simpl andb. cbv iota.
  assert (Hinv1 : timerInv s1) by (by apply timerInv_update).
  destruct (clearForfeitTimer_timers s1 Hinv1) as [Ht Hf].
  rewrite broadcastRoom_room.
  destruct (broadcastRoom_timers (clearForfeitTimer s1) t t') as [-> _].
  destruct (applyClockDecay_frame (room (clearForfeitTimer s1)) t)
    as (_&_&_&_&_&_&_&->&_).
  done.
Qed.

(** Expiry re-validates: with the flagged colour online the callback only
    clears the forfeit state and broadcasts. *)
Lemma forfeitTimerExpired_online s h fired t t' :
  List.find (fun x => Nat.eqb (tid x) h) (timers s) = Some fired ->
  isPlayerOnline (room s) (tcolor fired) = true ->
  room (forfeitTimerExpired s h t t')
  = applyClockDecay (set_forfeit (room s) noForfeit) t.
Proof.
  intros Hfind Hon. unfold forfeitTimerExpired. rewrite Hfind. cbn [room].
  rewrite Hon. by destruct (isFinished (room s)).
Qed.

Lemma forfeitTag_not_timeout w c : forfeitTag w <> timeoutAgainst c.
Proof. by destruct w, c. Qed.

(** The forfeit timer of one room object. On every reachable room object at
    most one forfeit timer is pending, and it is the one recorded in the
    forfeit state of the object; starting a timer either does nothing or
    leaves the new timer as the only pending one, the previous one being
    cancelled; when a socket that is open attaches to the object with the
    address of the flagged colour, no timer is left pending on it, so that
    no expiry callback of the object can run; and if an expiry callback runs
    while the flagged colour is online on the object, it only clears the
    forfeit state and decays the clock, and so produces no forfeit result.
    All of this is per object: a room that was evicted and loaded again has
    two objects, and a timer of the first can still be pending
    ([staleTimerExpired]). *)
Theorem forfeit_timer_unique_and_void_on_reconnect s :
  reachable cfg s ->
  (length (timers s) <= 1 /\
   forall pending, In pending (timers s) ->
     timer (forfeit (room s)) = Some (tid pending) /\
     f_color (forfeit (room s)) = Some (tcolor pending)) /\
  (forall c t0 t1 t2,
     maybeStartForfeitTimer cfg s c t0 t1 t2 = s \/
     (timers (maybeStartForfeitTimer cfg s c t0 t1 t2)
        = [ {| tid := nextTimer s; tcolor := c |} ] /\
      forall old, In old (timers s) ->
        ~ In old (timers (maybeStartForfeitTimer cfg s c t0 t1 t2)))) /\
  (forall c ws address t t',
     f_color (forfeit (room s)) = Some c ->
     getPlayerColor (room s) (Some address) = Some c ->
     readyState ws = 1 ->
     timers (attachClientToRoom s ws address t t') = [] /\
     forall h tD tS,
       forfeitTimerExpired (attachClientToRoom s ws address t t') h tD tS
       = attachClientToRoom s ws address t t') /\
  (forall h fired tD tS,
     List.find (fun x => Nat.eqb (tid x) h) (timers s) = Some fired ->
     isPlayerOnline (room s) (tcolor fired) = true ->
     room (forfeitTimerExpired s h tD tS)
     = applyClockDecay (set_forfeit (room s) noForfeit) tD /\
     forall winner,
       forcedResult (room s) <> Some (forfeitTag winner) ->
       forcedResult (room (forfeitTimerExpired s h tD tS))
       <> Some (forfeitTag winner)).
Proof.
  intros Hr. pose proof (reachable_timerInv s Hr) as Hinv.
  split_and!.
  - unfold timerInv in Hinv.
    destruct (timer _); [destruct (f_color _)|];
      try (rewrite Hinv; simpl; lia).
    destruct Hinv as [-> _]. simpl. lia.
  - intros pending Hin. unfold timerInv in Hinv.
    destruct (timer _); [destruct (f_color _)|];
      try (rewrite Hinv in Hin; destruct Hin).
    destruct Hinv as [Ht _]. rewrite Ht in Hin.
    destruct Hin as [<-|[]]. done.
  - intros c t0 t1 t2.
    destruct (maybeStartForfeitTimer_timers s c t0 t1 t2 Hinv)
      as [->|(Ht & _)]; [by left|right].
    split; [exact Ht|]. intros old Hin. rewrite Ht. intros [<-|[]].
    unfold timerInv in Hinv.
    destruct (timer _); [destruct (f_color _)|];
      try (rewrite Hinv in Hin; destruct Hin).
    destruct Hinv as [Ht' Hlt]. rewrite Ht' in Hin.
    destruct Hin as [[= -> _]|[]]. lia.
  - intros c ws address t t' Hflag Hc Hopen.
    destruct (attach_reconnect_clears s ws address c t t' Hinv Hflag Hc Hopen)
      as [Ht _].
    split; [exact Ht|]. intros h tD tS.
    unfold forfeitTimerExpired. by rewrite Ht.
  - intros h fired tD tS Hfind Hon.
    pose proof (forfeitTimerExpired_online s h fired tD tS Hfind Hon) as Heq.
    split; [exact Heq|]. intros winner Hne. rewrite Heq.
    destruct (applyClockDecay_forcedResult (set_forfeit (room s) noForfeit) tD)
      as [->|(_ & c & ->)]; [exact Hne|].
    intros [= Habs]. by apply (forfeitTag_not_timeout winner c).
Qed.

End ForfeitTimer.

(* ===================================================================== *)
(** ** Rematch *)
(* ===================================================================== *)

Section Rematch.

Context {E : Engine} (cfg : Config).

Implicit Types (r : Room E) (s : Sys E).

(** A set of colours has two elements exactly when it holds both colours. *)
Lemma colors_size_two (X : gset Color) :
  size X = 2 <-> white ∈ X /\ black ∈ X.
Proof.
  split.
  - intros Hsz. split.
    + destruct (decide (white ∈ X)) as [|Hno]; [done|].
      assert (Hsub : X ⊆ {[black]}) by (intros []; set_solver).
      apply subseteq_size in Hsub. rewrite size_singleton in Hsub. lia.
    + destruct (decide (black ∈ X)) as [|Hno]; [done|].
      assert (Hsub : X ⊆ {[white]}) by (intros []; set_solver).
      apply subseteq_size in Hsub. rewrite size_singleton in Hsub. lia.
  - intros [Hw Hb].
    assert (HX : X = {[white]} ∪ {[black]}) by (apply set_eq; intros []; set_solver).
    rewrite HX, size_union by set_solver. by rewrite !size_singleton.
Qed.

(** After a decay the offers are the old ones or none. *)
Lemma applyClockDecay_offers r now :
  (drawOfferBy (applyClockDecay r now) = drawOfferBy r /\
   rematchOffers (applyClockDecay r now) = rematchOffers r) \/
  (drawOfferBy (applyClockDecay r now) = None /\
   rematchOffers (applyClockDecay r now) = ∅).
Proof.
  unfold applyClockDecay. repeat case_match; simpl; auto.
Qed.


Lemma resetGameForRematch_fields r now :
  let fresh := resetGameForRematch cfg r now in
  chess fresh = newChess E /\ forcedResult fresh = None /\
  drawOfferBy fresh = None /\ rematchOffers fresh = ∅ /\
  whiteMs (clock fresh) = CLOCK_INITIAL_MS cfg /\
  blackMs (clock fresh) = CLOCK_INITIAL_MS cfg /\
  incrementMs (clock fresh) = CLOCK_INCREMENT_MS cfg /\
  (enabled (ai r) = true -> truthyAddr (botAddress (ai r)) = true ->
   p_black (players fresh) = botAddress (ai r)).
Proof.
  unfold resetGameForRematch.
  match goal with |- context [startClockIfReady ?x now] =>
    destruct (startClockIfReady_frame x now)
      as (_ & -> & -> & -> & -> & -> & _ & -> & -> & ->) end.
  simpl. split_and!; try (by case_match); try reflexivity.
  intros -> ->. done.
Qed.

(** C8. In a finished room an [offer_rematch] of a seated colour records the
    offer. If both colours have then offered, the room is reset (starting
    position, no forced result, no offers, both budgets at the configured
    initial value, and the AI address back on the black seat when AI is
    enabled) and broadcast; if not, the room stays finished with position,
    clock and forced result unchanged. *)
Theorem rematch_resets_exactly_when_both_offered s payload tm address color :
  resolvePlayer (room s) payload "rematch offer" = inl (address, color) ->
  isFinished (room s) = true ->
  (white ∈ {[color]} ∪ rematchOffers (room s) /\
   black ∈ {[color]} ∪ rematchOffers (room s) ->
   room (fst (offer_rematch cfg s payload tm))
   = applyClockDecay
       (resetGameForRematch cfg (recordRematchOffer (room s) color) (tm 0%nat))
       (tm 1%nat) /\
   chess (room (fst (offer_rematch cfg s payload tm))) = newChess E /\
   drawOfferBy (room (fst (offer_rematch cfg s payload tm))) = None /\
   rematchOffers (room (fst (offer_rematch cfg s payload tm))) = ∅ /\
   let fresh :=
     resetGameForRematch cfg (recordRematchOffer (room s) color) (tm 0%nat) in
   forcedResult fresh = None /\
   whiteMs (clock fresh) = CLOCK_INITIAL_MS cfg /\
   blackMs (clock fresh) = CLOCK_INITIAL_MS cfg /\
   incrementMs (clock fresh) = CLOCK_INCREMENT_MS cfg /\
   (enabled (ai (room s)) = true -> truthyAddr (botAddress (ai (room s))) = true ->
    p_black (players fresh) = botAddress (ai (room s)))) /\
  (~ (white ∈ {[color]} ∪ rematchOffers (room s) /\
      black ∈ {[color]} ∪ rematchOffers (room s)) ->
   chess (room (fst (offer_rematch cfg s payload tm))) = chess (room s) /\
   clock (room (fst (offer_rematch cfg s payload tm))) = clock (room s) /\
   forcedResult (room (fst (offer_rematch cfg s payload tm))) = forcedResult (room s) /\
   isFinished (room (fst (offer_rematch cfg s payload tm))) = true /\
   rematchOffers (room (fst (offer_rematch cfg s payload tm)))
   = {[color]} ∪ rematchOffers (room s)).
Proof.
  intros Hres Hfin. unfold offer_rematch. rewrite Hres, Hfin. simpl negb. cbv iota.
  change (rematchOffers (recordRematchOffer (room s) color))
    with ({[color]} ∪ rematchOffers (room s)).
  destruct (Nat.eqb_spec (size ({[color]} ∪ rematchOffers (room s))) 2) as [Hsz|Hsz].
  - split; [|intros Hno; by apply colors_size_two in Hsz].
    intros _. cbn [fst]. rewrite broadcastRoom_room. cbn [room set_room].
    set (fresh := resetGameForRematch cfg _ _).
    destruct (resetGameForRematch_fields (recordRematchOffer (room s) color) (tm 0%nat))
      as (Hc & Hf & Hd & Ho & Hw & Hb & Hi & Hbot).
    fold fresh in Hc, Hf, Hd, Ho, Hw, Hb, Hi, Hbot.
    split_and!; try done.
    + by rewrite applyClockDecay_chess.
    + destruct (applyClockDecay_offers fresh (tm 1%nat)) as [[-> _]|[-> _]]; done.
    + destruct (applyClockDecay_offers fresh (tm 1%nat)) as [[_ ->]|[_ ->]]; done.
  - split; [intros Hboth; by apply colors_size_two in Hboth|].
    intros _. cbn [fst]. rewrite broadcastRoom_room. cbn [room set_room].
    assert (Hfin1 : isFinished (recordRematchOffer (room s) color) = true) by exact Hfin.
    rewrite applyClockDecay_finished by exact Hfin1. done.
Qed.

End Rematch.

(* ===================================================================== *)
(** ** Moves *)
(* ===================================================================== *)

Section Moves.

Context {E : Engine} (cfg : Config).

Implicit Types (r : Room E) (s : Sys E).

(** The payload with another value in its [promotion] field. *)
Definition with_promotion (payload : Payload) (choice : option Promotion) : Payload :=
  {| pl_roomId := pl_roomId payload; pl_address := pl_address payload;
     pl_from := pl_from payload; pl_to := pl_to payload;
     pl_promotion := choice; pl_level := pl_level payload;
     pl_username := pl_username payload; pl_avatar := pl_avatar payload;
     pl_text := pl_text payload |}.

Lemma maybeStartForfeitTimer_chess s c t0 t1 t2 :
  chess (room (maybeStartForfeitTimer cfg s c t0 t1 t2)) = chess (room s).
Proof.
  unfold maybeStartForfeitTimer. repeat case_match; try done.
  rewrite broadcastRoom_room, applyClockDecay_chess. done.
Qed.

Lemma maybeRunAiTurn_begin_chess s t t' :
  chess (room (fst (maybeRunAiTurn_begin s t t'))) = chess (room s).
Proof.
  unfold maybeRunAiTurn_begin. repeat case_match; try done.
  cbn [fst]. rewrite broadcastRoom_room, applyClockDecay_chess. done.
Qed.

(** The outcomes of [make_move], branch by branch. *)
Lemma make_move_cases s payload tm :
  let res := make_move cfg s payload tm in
  let r1 := applyClockDecay (room s) (tm 0%nat) in
  (exists e, resolvePlayer (room s) payload "move" = inr e /\
             res = (s, MoveRejected e)) \/
  (exists a color, resolvePlayer (room s) payload "move" = inl (a, color) /\
     ((isFinished (room s) = true /\ res = (s, MoveRejected "Game already over")) \/
      (isFinished (room s) = false /\ currentTurnColor (room s) <> color /\
       res = (s, MoveRejected "Not your turn")) \/
      (isFinished (room s) = false /\ currentTurnColor (room s) = color /\
       isFinished r1 = true /\
       res = (broadcastRoom (set_room s r1) (tm 1%nat) (tm 2%nat), MoveTimedOut)) \/
      (isFinished (room s) = false /\ currentTurnColor (room s) = color /\
       isFinished r1 = false /\
       move E (chess r1) (pl_from payload) (pl_to payload) promo_q = None /\
       res = (set_room s r1, MoveRejected "Illegal move")) \/
      (isFinished (room s) = false /\ currentTurnColor (room s) = color /\
       isFinished r1 = false /\
       exists p', move E (chess r1) (pl_from payload) (pl_to payload) promo_q = Some p' /\
                  snd res = MoveApplied /\ chess (room (fst res)) = p'))).
Proof.
  cbv zeta. unfold make_move.
  destruct (resolvePlayer _ _ _) as [[a color]|e]; [right|left; eauto].
  exists a, color. split; [done|].
  destruct (isFinished (room s)) eqn:Hf0; [by left|right].
  case_bool_decide as Hturn; simpl negb; cbv iota; [right|by left].
  destruct (isFinished (applyClockDecay (room s) (tm 0%nat))) eqn:Hf1; [by left|right].
  destruct (move E _ _ _ _) as [p'|] eqn:Hmv; [right|by left].
  split_and!; try done. exists p'. split; [done|].
  repeat case_match; cbn [fst snd]; split; try done;
    rewrite ?maybeRunAiTurn_begin_chess, ?maybeStartForfeitTimer_chess,
      ?broadcastRoom_room, ?applyClockDecay_chess; done.
Qed.

(** C10. [make_move] does not read the promotion field of the payload: the
    outcome is the same whatever the client puts there, and when the move is
    applied the new position is the one the engine returns for the from/to
    pair with promotion to queen. *)
Theorem make_move_always_promotes_to_queen s payload choice tm :
  make_move cfg s (with_promotion payload choice) tm = make_move cfg s payload tm /\
  match snd (make_move cfg s payload tm) with
  | MoveApplied =>
      move E (chess (room s)) (pl_from payload) (pl_to payload) promo_q
      = Some (chess (room (fst (make_move cfg s payload tm))))
  | _ => True
  end.
Proof.
  split; [reflexivity|].
  destruct (make_move_cases s payload tm)
    as [(e & _ & ->)|(a & color & _ &
         [[_ ->]|[(_ & _ & ->)|[(_ & _ & _ & ->)|[(_ & _ & _ & _ & ->)|
          (_ & _ & _ & p' & Hmv & -> & ->)]]]])]; try done.
  by rewrite applyClockDecay_chess in Hmv.
Qed.


End Moves.

(* ===================================================================== *)
(** ** Snapshot round trip *)
(* ===================================================================== *)

Section SnapshotCodec.

Context {E : Engine} (cfg : Config).

Implicit Types (r : Room E).

(** [x] is what trimming and cutting to [n] code units makes of it. *)
Definition isTrimmedTo (n : nat) (x : string) : bool :=
  String.eqb (slice 0 n (trim x)) x.

(** A roster entry that [normalizeChatMember] returns as it is. *)
Definition memberNormal (m : StoredMember) : bool :=
  match m with
  | MemberName _ => false
  | MemberObj m' =>
      isTrimmedTo 24 (username m') && truthy (username m')
      && isTrimmedTo 512 (avatar m') && truthy (avatar m')
  end.

(** A message that [normalizeChatState] returns as it is. *)
Definition messageNormal (m : ChatMessage) : bool :=
  truthy (msg_id m) && negb (Z.eqb (msg_at m) 0)
  && String.eqb (toLowerCase (msg_address m)) (msg_address m)
  && isTrimmedTo 24 (msg_username m) && truthy (msg_username m)
  && isTrimmedTo 512 (msg_avatar m)
  && isTrimmedTo 280 (msg_text m) && truthy (msg_text m).

Definition chatNormal (c : ChatState) : bool :=
  forallb (fun entry => memberNormal (snd entry)) (map_to_list (members c))
  && forallb messageNormal (messages c).

Lemma normalizeChatMember_normal m address :
  memberNormal m = true ->
  MemberObj <$> normalizeChatMember (Some m) address = Some m.
Proof.
  destruct m as [name|[u a]]; [done|].
  unfold memberNormal, isTrimmedTo, normalizeChatMember. cbn [username avatar].
  intros [[[Hu Htu]%andb_prop Ha]%andb_prop Hta]%andb_prop.
  apply String.eqb_eq in Hu. apply String.eqb_eq in Ha.
  rewrite Hu, Htu, Ha, Hta. done.
Qed.

Lemma normalizeMessage_normal now uuid i m :
  messageNormal m = true ->
  normalizeMessage now uuid i m = m /\ truthy (msg_text m) = true.
Proof.
  destruct m as [mid mat maddr muser mav mtext].
  unfold messageNormal, isTrimmedTo, normalizeMessage.
  cbn [msg_id msg_at msg_address msg_username msg_avatar msg_text].
  intros [[[[[[[Hid Hat]%andb_prop Haddr]%andb_prop Hu]%andb_prop Htu]%andb_prop
             Hav]%andb_prop Htext]%andb_prop Htt]%andb_prop.
  repeat match goal with
  | Heq : String.eqb _ _ = true |- _ => apply String.eqb_eq in Heq
  end.
  apply negb_true_iff in Hat.
  rewrite Hid, Hat, Haddr, Hu, Htu, Hav, Htext. done.
Qed.

Lemma imap_normal (g : nat -> ChatMessage -> ChatMessage) (l : list ChatMessage) :
  (forall i m, In m l -> g i m = m) -> imap g l = l.
Proof.
  revert g. induction l as [|m l IH]; intros g Hg; [done|].
  rewrite imap_cons, Hg by (by left). f_equal.
  apply IH. intros i m' Hin. apply Hg. by right.
Qed.

Lemma filter_all {A} (f : A -> bool) (l : list A) :
  (forall a, In a l -> f a = true) -> List.filter f l = l.
Proof.
  induction l as [|a l IH]; intros Hf; [done|]. simpl.
  rewrite Hf by (by left). f_equal. apply IH. intros b Hb. apply Hf. by right.
Qed.

(** Normalising a chat state in normal form returns it. *)
Lemma normalizeChatState_normal (c : ChatState) now uuid :
  chatNormal c = true -> normalizeChatState (Some c) now uuid = c.
Proof.
  unfold chatNormal. intros H. apply andb_prop in H as [Hm Hl].
  rewrite forallb_forall in Hm. rewrite forallb_forall in Hl.
  destruct c as [ms l]. unfold normalizeChatState. simpl in *. f_equal.
  - apply map_eq. intros address. rewrite map_lookup_imap.
    destruct (ms !! address) as [m|] eqn:Hlook; [|done]. simpl.
    apply normalizeChatMember_normal.
    apply (Hm (address, m)). apply list_elem_of_In. by apply elem_of_map_to_list.
  - rewrite imap_normal.
    + apply filter_all. intros m Hin.
      apply (normalizeMessage_normal now uuid 0 m (Hl m Hin)).
    + intros i m Hin. apply (normalizeMessage_normal now uuid i m (Hl m Hin)).
Qed.

(** C5 (as amended). Rebuilding a room from its own snapshot gives the
    position the engine loads from the FEN of the room, hence the same FEN
    whenever the engine writes back that FEN after loading it; the same
    players, forced result, draw offer, rematch offers, clock and AI fields;
    an empty forfeit state and no connections. The chat comes back
    normalised: it is the result of [normalizeChatState] on the chat of the
    room. That is the chat of the room itself when the chat is in normal
    form ([chatNormal]): every roster entry is an object with a non-empty
    name that is its own trim cut to 24 code units and a non-empty avatar
    that is its own trim cut to 512; every message has a non-empty id, a
    non-zero timestamp, an address in lower case, a non-empty name that is
    its own trim cut to 24, an avatar that is its own trim cut to 512 and a
    non-empty text that is its own trim cut to 280. *)
Theorem snapshot_round_trip r now now' uuid :
  chess (fromSnapshot cfg (toSnapshot r now) now' uuid) = loadFen E (fen E (chess r)) /\
  (fen E (loadFen E (fen E (chess r))) = fen E (chess r) ->
   fen E (chess (fromSnapshot cfg (toSnapshot r now) now' uuid)) = fen E (chess r)) /\
  players (fromSnapshot cfg (toSnapshot r now) now' uuid) = players r /\
  forcedResult (fromSnapshot cfg (toSnapshot r now) now' uuid) = forcedResult r /\
  drawOfferBy (fromSnapshot cfg (toSnapshot r now) now' uuid) = drawOfferBy r /\
  rematchOffers (fromSnapshot cfg (toSnapshot r now) now' uuid) = rematchOffers r /\
  clock (fromSnapshot cfg (toSnapshot r now) now' uuid) = clock r /\
  ai (fromSnapshot cfg (toSnapshot r now) now' uuid) = ai r /\
  forfeit (fromSnapshot cfg (toSnapshot r now) now' uuid)
  = {| f_color := None; deadlineAt := None; timer := None |} /\
  clients (fromSnapshot cfg (toSnapshot r now) now' uuid) = [] /\
  chat (fromSnapshot cfg (toSnapshot r now) now' uuid)
  = normalizeChatState (Some (chat r)) now' uuid /\
  (chatNormal (chat r) = true ->
   chat (fromSnapshot cfg (toSnapshot r now) now' uuid) = chat r).
Proof.
  simpl. split_and!; try done.
  - apply list_to_set_elements_L.
  - apply normalizeChatState_normal.
Qed.

End SnapshotCodec.

(* ===================================================================== *)
(** ** Chat and detach: what a rejected or abandoned command leaves behind *)
(* ===================================================================== *)

Section Leftovers.

Context {E : Engine} (cfg : Config).

Implicit Types (r : Room E) (s : Sys E).

(** A rejected [send_chat] never touches the message log. *)
Lemma send_chat_rejected_keeps_messages s payload uuid tm message :
  snd (send_chat s payload uuid tm) = Error message ->
  messages (chat (room (fst (send_chat s payload uuid tm)))) = messages (chat (room s)).
Proof.
  unfold send_chat.
  destruct (resolvePlayer _ _ _) as [[a color]|e]; [|done].
  destruct (normalizeChatMember _ _); cbv zeta beta iota;
    destruct (negb _ || _); simpl; done.
Qed.

(** A rejected [send_chat] of an address without a usable roster entry has
    written one. *)
Lemma send_chat_rejected_writes_roster s payload uuid tm address color :
  resolvePlayer (room s) payload "chat message" = inl (address, color) ->
  normalizeChatMember (members (chat (room s)) !! address) address = None ->
  snd (send_chat s payload uuid tm) = Error "Chat message must be 1-280 chars" ->
  is_Some (members (chat (room (fst (send_chat s payload uuid tm)))) !! address).
Proof.
  intros Hres Hnone. unfold send_chat. rewrite Hres, Hnone. cbv zeta beta iota.
  destruct (negb _ || _); simpl; [|done].
  intros _. rewrite lookup_insert_eq. eauto.
Qed.

(** When the socket that detaches is the last one of the seated white
    player, the game is unfinished and the black seat is empty, [removeClient]
    takes the forfeit branch, [maybeStartForfeitTimer] returns at once, and
    the room is kept: the check for an empty unstarted room is never made. *)
Lemma removeClient_room_keeps_abandoned_room s ws tm :
  let r1 := set_clients (room s) (deleteClient (clients (room s)) ws) in
  getPlayerColor (room s) (playerAddress ws) = Some white ->
  isFinished (room s) = false ->
  truthyAddr (p_black (players (room s))) = false ->
  isPlayerOnline r1 white = false ->
  removeClient_room cfg s ws tm = (set_room s r1, Kept).
Proof.
  intros r1 Hc Hf Hb Hoff. unfold removeClient_room. fold r1. cbn [room set_room].
  assert (Hc1 : getPlayerColor r1 (playerAddress ws) = Some white) by exact Hc.
  assert (Hf1 : isFinished r1 = false) by exact Hf.
  assert (Hb1 : truthyAddr (seat (players r1) (getOpponentColor white)) = false)
    by exact Hb.
  rewrite Hc1, Hf1, Hoff. simpl negb. cbn [andb].
  unfold maybeStartForfeitTimer. cbn [room set_room]. by rewrite Hf1, Hb1.
Qed.

End Leftovers.

(* ===================================================================== *)
(** ** The code at concrete inputs (two-ply engine, default configuration) *)
(* ===================================================================== *)



(** C3, the code at the failing input. Alice, who has no roster entry, sends
    a chat message of three spaces. The command is rejected, the message log
    is unchanged, and the roster has gained an entry for Alice. *)
Theorem blank_chat_rejected_after_roster_write :
  snd (send_chat Sample.joined (Sample.chatCmd Sample.alice None "   ")
         "c0ffee00-1111" (Sample.at_ 3000))
  = Error "Chat message must be 1-280 chars" /\
  members (chat (room Sample.joined)) !! Sample.alice = None /\
  members (chat (room (fst (send_chat Sample.joined
                              (Sample.chatCmd Sample.alice None "   ")
                              "c0ffee00-1111" (Sample.at_ 3000))))) !! Sample.alice
  = Some (MemberObj {| username := "Player-a11c";
                       avatar := dicebear Sample.alice |}) /\
  messages (chat (room (fst (send_chat Sample.joined
                               (Sample.chatCmd Sample.alice None "   ")
                               "c0ffee00-1111" (Sample.at_ 3000)))))
  = messages (chat (room Sample.joined)).
Proof. vm_compute. split_and!; reflexivity. Qed.

(** C5, counterexample. After Alice's first message, sent with the long
    display name, the roster holds the name cut to 24 code units, which ends
    in a space. Rebuilt from its snapshot the room has another roster: the
    name is trimmed again. *)
Lemma restored_roster_differs_from_saved_roster :
  username <$> normalizeChatMember
                 (members (chat (room Sample.chattedLong)) !! Sample.alice)
                 Sample.alice
  = Some "aaaaaaaaaaaaaaaaaaaaaaa" /\
  members (chat (room Sample.chattedLong)) !! Sample.alice
  = Some (MemberObj {| username := "aaaaaaaaaaaaaaaaaaaaaaa ";
                       avatar := dicebear Sample.alice |}) /\
  members (chat (fromSnapshot defaultConfig
                   (toSnapshot (room Sample.chattedLong) 4000) 5000 Sample.uuids))
    !! Sample.alice
  = Some (MemberObj {| username := "aaaaaaaaaaaaaaaaaaaaaaa";
                       avatar := dicebear Sample.alice |}) /\
  chat (fromSnapshot defaultConfig
          (toSnapshot (room Sample.chattedLong) 4000) 5000 Sample.uuids)
  <> chat (room Sample.chattedLong).
Proof.
  split_and!; try (vm_compute; reflexivity).
  intros Heq.
  apply (f_equal (fun c => members c !! Sample.alice)) in Heq.
  vm_compute in Heq. discriminate.
Qed.

(** C6, counterexample. With an initial budget of zero both players sit
    down with no time. The room is reachable, its clock runs and White is to
    move; the decay one millisecond later leaves White with zero, and the
    result it sets is the time-out win of White, the side that ran out, not
    of the opponent: the test of Black's budget (line 284) overwrites the
    result set by the test of White's (line 283). *)
Lemma zero_budget_flag_names_the_wrong_winner :
  reachable SampleEnv.zeroBudget (SampleEnv.joinedUnder SampleEnv.zeroBudget) /\
  running (clock (room (SampleEnv.joinedUnder SampleEnv.zeroBudget))) = true /\
  forcedResult (room (SampleEnv.joinedUnder SampleEnv.zeroBudget)) = None /\
  currentTurnColor (room (SampleEnv.joinedUnder SampleEnv.zeroBudget)) = white /\
  clockMs white
    (clock (applyClockDecay (room (SampleEnv.joinedUnder SampleEnv.zeroBudget)) 2001))
  = 0%Z /\
  forcedResult (applyClockDecay (room (SampleEnv.joinedUnder SampleEnv.zeroBudget)) 2001)
  = Some white_wins_by_timeout /\
  forcedResult (applyClockDecay (room (SampleEnv.joinedUnder SampleEnv.zeroBudget)) 2001)
  <> Some (timeoutAgainst
             (currentTurnColor (room (SampleEnv.joinedUnder SampleEnv.zeroBudget)))).
Proof.
  split_and!; try (vm_compute; reflexivity).
  - apply reach_step, reach_create. reflexivity.
  - vm_compute. discriminate.
Qed.

(** C9, counterexample. With an initial budget of 300000 ms and an increment
    of -400000 ms, White's move at t = 5000, three seconds after the clock
    started, leaves White with 300000 - 3000 - 400000 ms: the increment is
    added to the mover's time as it is (lines 737-741). The room is
    reachable and the initial budget is not negative. *)
Lemma negative_increment_makes_clock_negative :
  (0 <= CLOCK_INITIAL_MS SampleEnv.negativeIncrement)%Z /\
  reachable SampleEnv.negativeIncrement
    (SampleEnv.movedUnder SampleEnv.negativeIncrement) /\
  whiteMs (clock (room (SampleEnv.joinedUnder SampleEnv.negativeIncrement)))
  = 300000%Z /\
  whiteMs (clock (room (SampleEnv.movedUnder SampleEnv.negativeIncrement)))
  = (-103000)%Z /\
  ~ (0 <= whiteMs (clock (room (SampleEnv.movedUnder SampleEnv.negativeIncrement))))%Z.
Proof.
  split_and!; try (vm_compute; reflexivity).
  - vm_compute. discriminate.
  - apply reach_step, reach_step, reach_create. reflexivity.
  - vm_compute. intros H. apply H. reflexivity.
Qed.

(** C2, the code at the failing input. Alice creates a room and her only
    socket closes before anyone joined or moved. The room had one connection,
    an empty black seat and no move; after [removeClient] it is still in the
    registry, now without connections, and still in the store. *)
Theorem abandoned_room_survives_creator_disconnect :
  (fun l => (length (clients (live_room l)), p_black (players (live_room l)),
             historyLength Sample.E (chess (live_room l))))
    <$> activeRooms Sample.world1 !! "room0001"
  = Some (1, None, 0) /\
  (fun l => length (clients (live_room l)))
    <$> activeRooms Sample.world2 !! "room0001" = Some 0 /\
  s_id <$> store Sample.world2 !! "room0001" = Some "room0001".
Proof. vm_compute. split_and!; reflexivity. Qed.

(* ===================================================================== *)
(** ** The theorems at concrete rooms *)
(* ===================================================================== *)

(** C6 at the room where both players sat down at t = 2000 and the next
    broadcast comes at t = 302000: White, to move, has no time left. *)
Lemma decay_to_zero_forces_timeout_witness :
  forcedResult (applyClockDecay (room Sample.joined) 302000)
    = Some (timeoutAgainst (currentTurnColor (room Sample.joined))) /\
  running (clock (applyClockDecay (room Sample.joined) 302000)) = false /\
  drawOfferBy (applyClockDecay (room Sample.joined) 302000) = None /\
  rematchOffers (applyClockDecay (room Sample.joined) 302000) = ∅ /\
  room (broadcastRoom Sample.joined 302000 302001)
  = applyClockDecay (room Sample.joined) 302000.
Proof.
  apply (decay_to_zero_forces_timeout defaultConfig Sample.joined 302000 302001).
  - simpl. lia.
  - simpl. lia.
  - apply reach_step, reach_create. reflexivity.
  - reflexivity.
  - reflexivity.
Defined.

(** C9 at the same room, followed by White's move e2-e4 at t = 5000. *)
Lemma clock_never_negative_decay_idempotent_witness :
  (0 <= whiteMs (clock (room Sample.joined)) /\
   0 <= blackMs (clock (room Sample.joined)))%Z /\
  (0 <= whiteMs (clock (room (step defaultConfig
                                (OpMove (Sample.moveCmd Sample.alice "e2" "e4"))
                                (Sample.at_ 5000) Sample.joined))) /\
   0 <= blackMs (clock (room (step defaultConfig
                                (OpMove (Sample.moveCmd Sample.alice "e2" "e4"))
                                (Sample.at_ 5000) Sample.joined))))%Z /\
  applyClockDecay (applyClockDecay (room Sample.joined) 5000) 5000
  = applyClockDecay (room Sample.joined) 5000.
Proof.
  apply (clock_never_negative_decay_idempotent defaultConfig Sample.joined).
  - simpl. lia.
  - simpl. lia.
  - apply reach_step, reach_create. reflexivity.
Defined.


(** The forfeit timer of the room object Bob has left: one timer is
    pending, and it is gone once Bob attaches a new open socket. *)
Lemma forfeit_timer_unique_and_void_on_reconnect_witness :
  timers Sample.bobAway = [ {| tid := 0; tcolor := black |} ] /\
  length (timers Sample.bobAway) <= 1 /\
  timers (attachClientToRoom Sample.bobAway (Sample.sock 3) Sample.bob 6000 6001) = [].
Proof.
  destruct (forfeit_timer_unique_and_void_on_reconnect defaultConfig Sample.bobAway)
    as ((Hone & _) & _ & Hback & _).
  - apply reach_step, reach_step, reach_create. reflexivity.
  - split; [reflexivity|]. split; [exact Hone|].
    apply (Hback black (Sample.sock 3) Sample.bob 6000%Z 6001%Z); reflexivity.
Defined.

(** C8 at the room White lost on time: Alice's offer alone changes nothing
    but the set of offers; Bob's offer after it resets the game. *)
Lemma rematch_resets_exactly_when_both_offered_witness :
  (chess (room (fst (offer_rematch defaultConfig Sample.flagged
                       (Sample.cmd Sample.alice) (Sample.at_ 400000))))
   = chess (room Sample.flagged) /\
   clock (room (fst (offer_rematch defaultConfig Sample.flagged
                       (Sample.cmd Sample.alice) (Sample.at_ 400000))))
   = clock (room Sample.flagged) /\
   forcedResult (room (fst (offer_rematch defaultConfig Sample.flagged
                              (Sample.cmd Sample.alice) (Sample.at_ 400000))))
   = forcedResult (room Sample.flagged) /\
   isFinished (room (fst (offer_rematch defaultConfig Sample.flagged
                            (Sample.cmd Sample.alice) (Sample.at_ 400000)))) = true /\
   rematchOffers (room (fst (offer_rematch defaultConfig Sample.flagged
                               (Sample.cmd Sample.alice) (Sample.at_ 400000))))
   = {[white]} ∪ rematchOffers (room Sample.flagged)) /\
  chess (room (fst (offer_rematch defaultConfig
                      (fst (offer_rematch defaultConfig Sample.flagged
                              (Sample.cmd Sample.alice) (Sample.at_ 400000)))
                      (Sample.cmd Sample.bob) (Sample.at_ 500000))))
  = newChess Sample.E.
Proof.
  split.
  - refine (proj2 (rematch_resets_exactly_when_both_offered defaultConfig
                     Sample.flagged (Sample.cmd Sample.alice) (Sample.at_ 400000)
                     Sample.alice white _ _) _).
    + reflexivity.
    + reflexivity.
    + intros [_ Hblack]. vm_compute in Hblack. discriminate.
  - refine (proj1 (proj2 (proj1 (rematch_resets_exactly_when_both_offered defaultConfig
                     (fst (offer_rematch defaultConfig Sample.flagged
                             (Sample.cmd Sample.alice) (Sample.at_ 400000)))
                     (Sample.cmd Sample.bob) (Sample.at_ 500000)
                     Sample.bob black _ _) _))).
    + reflexivity.
    + reflexivity.
    + split; vm_compute; reflexivity.
Defined.

(** C5 at the room in which Alice has sent "hello": the engine writes back
    the FEN it loads, the chat is in normal form, and both come back as they
    are. *)
Lemma snapshot_round_trip_witness :
  chatNormal (chat (room Sample.chatted)) = true /\
  fen Sample.E (chess (fromSnapshot defaultConfig (toSnapshot (room Sample.chatted) 4000)
                         5000 Sample.uuids))
  = fen Sample.E (chess (room Sample.chatted)) /\
  chat (fromSnapshot defaultConfig (toSnapshot (room Sample.chatted) 4000)
          5000 Sample.uuids)
  = chat (room Sample.chatted).
Proof.
  split; [vm_compute; reflexivity|]. split.
  - apply (snapshot_round_trip defaultConfig (room Sample.chatted) 4000 5000 Sample.uuids).
    vm_compute. reflexivity.
  - apply (snapshot_round_trip defaultConfig (room Sample.chatted) 4000 5000 Sample.uuids).
    vm_compute. reflexivity.
Defined.

(* ===================================================================== *)
(** ** Resignation, draw offers and the forfeit timer, command by command *)
(* ===================================================================== *)

Section Results.

Context {E : Engine} (cfg : Config).

Implicit Types (r : Room E) (s : Sys E).

(** The room a result leaves: result set, offers and forfeit state cleared,
    clock stopped. *)
Definition decidedRoom r (tag : ResultTag) : Room E :=
  set_forfeit
    (set_clock (clearOffers (set_forcedResult r (Some tag)))
       (set_running (clock r) false))
    noForfeit.

Lemma finishWith_room s tag t t' : room (finishWith s tag t t') = decidedRoom (room s) tag.
Proof.
  unfold finishWith. rewrite broadcastRoom_room.
  apply applyClockDecay_finished. reflexivity.
Qed.

(** What a decay does to an undecided game: nothing to result and offers, or
    a time-out that clears the offers and stops the clock. *)
Lemma applyClockDecay_outcome r now :
  forcedResult r = None ->
  (forcedResult (applyClockDecay r now) = None /\
   drawOfferBy (applyClockDecay r now) = drawOfferBy r /\
   rematchOffers (applyClockDecay r now) = rematchOffers r) \/
  (exists c, forcedResult (applyClockDecay r now) = Some (timeoutAgainst c) /\
             running (clock (applyClockDecay r now)) = false /\
             drawOfferBy (applyClockDecay r now) = None /\
             rematchOffers (applyClockDecay r now) = ∅).
Proof.
  intros Hn. unfold applyClockDecay.
  repeat case_match; simpl; try (by left); right;
    repeat match goal with
    | H : (if ?b then _ else _) = Some _ |- _ => destruct b eqn:?
    end; simplify_eq; try (by exists white); try (by exists black); congruence.
Qed.

(** X1. A resignation is accepted exactly from a seated address in an unfinished
    game. Accepted, it gives the game to the opponent of the resigning
    colour, stops the clock, clears the offers and the forfeit state;
    rejected, it changes nothing. *)
Theorem resign_gives_game_to_opponent s payload tm :
  (snd (resign s payload tm) = Done <->
   exists address color,
     resolvePlayer (room s) payload "resign" = inl (address, color) /\
     isFinished (room s) = false) /\
  (forall address color,
     resolvePlayer (room s) payload "resign" = inl (address, color) ->
     isFinished (room s) = false ->
     room (fst (resign s payload tm))
     = decidedRoom (room s) (resignTag (getOpponentColor color))) /\
  (snd (resign s payload tm) <> Done -> fst (resign s payload tm) = s).
Proof.
  unfold resign.
  destruct (resolvePlayer _ _ _) as [[a color]|e] eqn:Hres.
  2:{ split_and!; [split; [done|by intros (?&?&?&_)]|done|done]. }
  destruct (isFinished (room s)) eqn:Hf; cbn [fst snd].
  - split_and!; [split; [done|]|congruence|done].
    intros (?&?&_&?). congruence.
  - split_and!; [split; [eauto|done]| |done].
    intros a' c' [= <- <-] _. apply finishWith_room.
Qed.

(** X2. A draw is agreed exactly when a seated colour accepts, in an unfinished
    game, an offer made by the other colour. Then the result is the agreed
    draw, the clock is stopped, offers and forfeit state are cleared; in
    every other case the command changes nothing. *)
Theorem accept_draw_needs_offer_of_other_colour s payload tm :
  (snd (accept_draw s payload tm) = Done <->
   exists address color offerer,
     resolvePlayer (room s) payload "draw accept" = inl (address, color) /\
     isFinished (room s) = false /\
     drawOfferBy (room s) = Some offerer /\ offerer <> color) /\
  (snd (accept_draw s payload tm) = Done ->
   room (fst (accept_draw s payload tm)) = decidedRoom (room s) draw_agreed) /\
  (snd (accept_draw s payload tm) <> Done -> fst (accept_draw s payload tm) = s).
Proof.
  unfold accept_draw.
  destruct (resolvePlayer _ _ _) as [[a color]|e] eqn:Hres.
  2:{ split_and!; [split; [done|by intros (?&?&?&?&_)]|done|done]. }
  destruct (isFinished (room s)) eqn:Hf; cbn [fst snd].
  { split_and!; [split; [done|]|done|done]. intros (?&?&?&_&?&_). congruence. }
  destruct (drawOfferBy (room s)) as [offerer|] eqn:Hoff;
    cbn [fst snd negb bool_decide decide_rel];
    try rewrite bool_decide_eq_true_2 by eauto;
    try rewrite bool_decide_eq_false_2 by (by intros [? ?]);
    cbn [fst snd negb].
  2:{ split_and!; [split; [done|]|done|done]. intros (?&?&?&_&_&?&_). congruence. }
  case_bool_decide as Hown; cbn [fst snd].
  - split_and!; [split; [done|]|done|done].
    intros (?&?&?&[= <- <-]&_&[= <-]&Hne). congruence.
  - split_and!; [split; [|done]| |done].
    + intros _. exists a, color, offerer. split_and!; try done. congruence.
    + intros _. apply finishWith_room.
Qed.

(** X3. A draw offer is recorded exactly when a seated colour makes it in an
    unfinished game with both seats filled and has not already made it.
    Recorded, it stands after the broadcast unless the clock decay of that
    broadcast ended the game on time, which clears it; a rejected offer
    changes nothing. *)
Theorem offer_draw_records_one_offer s payload tm :
  (snd (offer_draw s payload tm) = Done <->
   exists address color,
     resolvePlayer (room s) payload "draw offer" = inl (address, color) /\
     isFinished (room s) = false /\
     truthyAddr (p_white (players (room s))) = true /\
     truthyAddr (p_black (players (room s))) = true /\
     drawOfferBy (room s) <> Some color) /\
  (forall address color,
     resolvePlayer (room s) payload "draw offer" = inl (address, color) ->
     snd (offer_draw s payload tm) = Done ->
     (drawOfferBy (room (fst (offer_draw s payload tm))) = Some color /\
      forcedResult (room (fst (offer_draw s payload tm))) = None) \/
     (exists c,
        forcedResult (room (fst (offer_draw s payload tm))) = Some (timeoutAgainst c) /\
        drawOfferBy (room (fst (offer_draw s payload tm))) = None)) /\
  (snd (offer_draw s payload tm) <> Done -> fst (offer_draw s payload tm) = s).
Proof.
  unfold offer_draw.
  destruct (resolvePlayer _ _ _) as [[a color]|e] eqn:Hres.
  2:{ split_and!; [split; [done|by intros (?&?&?&_)]|done|done]. }
  destruct (isFinished (room s)) eqn:Hf; cbn [fst snd].
  { split_and!; [split; [done|]|done|done]. intros (?&?&_&?&_). congruence. }
  destruct (truthyAddr (p_white (players (room s)))) eqn:Hw; cbn [fst snd negb orb].
  2:{ split_and!; [split; [done|]|done|done]. intros (?&?&_&_&?&_). congruence. }
  destruct (truthyAddr (p_black (players (room s)))) eqn:Hb; cbn [fst snd negb orb].
  2:{ split_and!; [split; [done|]|done|done]. intros (?&?&_&_&_&?&_). congruence. }
  case_bool_decide as Hown; cbn [fst snd].
  - split_and!; [split; [done|]|done|done].
    intros (?&?&[= <- <-]&_&_&_&Hne). congruence.
  - split_and!; [split; [|done]| |done].
    + intros _. exists a, color. split_and!; done.
    + intros a' c' [= <- <-] _.
      apply isFinished_false in Hf as [Hn _].
      destruct (applyClockDecay_outcome (set_drawOfferBy (room s) (Some color))
                  (tm 0%nat) Hn) as [(H1 & H2 & _)|(c & H1 & _ & H2 & _)].
      * left. split; [exact H2|exact H1].
      * right. exists c. split; [exact H1|exact H2].
Qed.

(** X4. When the forfeit timer fires: if the game is unfinished, the flagged
    colour has no live connection and its opponent has one, the opponent
    wins by forfeit, the clock is stopped and offers and forfeit state are
    cleared; in every other case the callback only clears the forfeit state
    and decays the clock. Either way the timer is no longer pending. *)
Theorem forfeitTimerExpired_awards_opponent s handle fired tD tS :
  List.find (fun x => Nat.eqb (tid x) handle) (timers s) = Some fired ->
  (isFinished (room s) = false ->
   isPlayerOnline (room s) (tcolor fired) = false ->
   isPlayerOnline (room s) (getOpponentColor (tcolor fired)) = true ->
   room (forfeitTimerExpired s handle tD tS)
   = decidedRoom (room s) (forfeitTag (getOpponentColor (tcolor fired)))) /\
  (isFinished (room s) = true \/
   isPlayerOnline (room s) (tcolor fired) = true \/
   isPlayerOnline (room s) (getOpponentColor (tcolor fired)) = false ->
   room (forfeitTimerExpired s handle tD tS)
   = applyClockDecay (set_forfeit (room s) noForfeit) tD) /\
  (forall x, In x (timers (forfeitTimerExpired s handle tD tS)) -> tid x <> handle).
Proof.
  intros Hfind. unfold forfeitTimerExpired. rewrite Hfind. cbn [room].
  split_and!.
  - intros -> -> ->. simpl negb. cbv iota.
    rewrite broadcastRoom_room. apply applyClockDecay_finished. reflexivity.
  - intros Hcase.
    destruct (isFinished (room s)); [done|].
    destruct (isPlayerOnline (room s) (tcolor fired)); [done|].
    destruct (isPlayerOnline (room s) (getOpponentColor (tcolor fired))); [|done].
    destruct Hcase as [?|[?|?]]; discriminate.
  - assert (Hgone : forall s0 : Sys E,
              timers s0 = clearTimeout handle (timers s) ->
              forall t t' x, In x (timers (broadcastRoom (clearForfeitTimer s0) t t')) ->
                             tid x <> handle).
    { intros s0 Hs0 t t' x.
      destruct (broadcastRoom_timers (clearForfeitTimer s0) t t') as [-> _].
      simpl. rewrite Hs0.
      intros Hin.
      assert (Hin' : In x (clearTimeout handle (timers s))).
      { destruct (timer (forfeit (room s0))); [|done].
        unfold clearTimeout in Hin. apply filter_In in Hin. tauto. }
      unfold clearTimeout in Hin'. apply filter_In in Hin' as [_ Hne].
      apply negb_true_iff, Nat.eqb_neq in Hne. exact Hne. }
    repeat case_match; by apply Hgone.
Qed.

(** X5. A forfeit timer is started exactly when the game is unfinished, the
    opponent of the disconnected colour is seated and online, and the
    disconnected colour is offline. Started, it is recorded with the
    disconnected colour, a fresh handle and the deadline "now plus the
    configured window"; otherwise nothing changes. *)
Theorem maybeStartForfeitTimer_starts_iff s c tNow tD tS :
  let start :=
    negb (isFinished (room s))
    && truthyAddr (seat (players (room s)) (getOpponentColor c))
    && negb (isPlayerOnline (room s) c)
    && isPlayerOnline (room s) (getOpponentColor c) in
  (start = true ->
   forfeit (room (maybeStartForfeitTimer cfg s c tNow tD tS))
   = {| f_color := Some c;
        deadlineAt := Some (tNow + DISCONNECT_FORFEIT_MS cfg)%Z;
        timer := Some (nextTimer s) |} /\
   In {| tid := nextTimer s; tcolor := c |}
      (timers (maybeStartForfeitTimer cfg s c tNow tD tS))) /\
  (start = false -> maybeStartForfeitTimer cfg s c tNow tD tS = s).
Proof.
  cbv zeta. unfold maybeStartForfeitTimer.
  destruct (isFinished (room s)); cbn [negb andb]; [done|].
  destruct (truthyAddr _); cbn [negb andb]; [|done].
  destruct (isPlayerOnline (room s) c); cbn [negb andb]; [done|].
  destruct (isPlayerOnline (room s) (getOpponentColor c)); cbn [negb andb]; [|done].
  split; [|done]. intros _. split.
  - rewrite broadcastRoom_room.
    match goal with |- context [applyClockDecay ?r tD] =>
      destruct (applyClockDecay_frame r tD) as (_&_&_&_&_&_&_&->&_) end.
    reflexivity.
  - apply in_or_app. right. by left.
Qed.

End Results.

(* ===================================================================== *)
(** ** Strings: trimming and cutting *)
(* ===================================================================== *)

Section StringFacts.

Lemma truthy_length (x : string) : truthy x = true <-> 1 <= String.length x.
Proof. destruct x; simpl; [split; [done|lia]|split; [lia|done]]. Qed.

Lemma substring_0_length (n : nat) (x : string) :
  String.length (String.substring 0 n x) = Nat.min n (String.length x).
Proof.
  revert x. induction n as [|n IH]; intros [|c x]; simpl; try done.
  by rewrite IH.
Qed.

(** [x.slice(0, n)] has at most [n] code units, and is [x] when [x] is that
    short. *)
Lemma slice_length (n : nat) (x : string) :
  String.length (slice 0 n x) = Nat.min n (String.length x).
Proof. unfold slice. rewrite Nat.sub_0_r. apply substring_0_length. Qed.

Lemma slice_short (n : nat) (x : string) :
  String.length x <= n -> slice 0 n x = x.
Proof.
  unfold slice. rewrite Nat.sub_0_r. revert x.
  induction n as [|n IH]; intros [|c x]; simpl; try done; [lia|].
  intros H. f_equal. apply IH. lia.
Qed.

(** A string that does not begin with white space. *)
Definition startsClean (x : string) : Prop :=
  match x with
  | EmptyString => True
  | String c _ => isWhite c = false
  end.

Lemma trimStart_clean (x : string) : startsClean (trimStart x).
Proof.
  induction x as [|c x IH]; simpl; [done|].
  destruct (isWhite c) eqn:Hc; [exact IH|exact Hc].
Qed.

Lemma trimStart_of_clean (x : string) : startsClean x -> trimStart x = x.
Proof. destruct x as [|c x]; simpl; [done|]. by intros ->. Qed.

Lemma trimEnd_clean (x : string) : startsClean x -> startsClean (trimEnd x).
Proof.
  destruct x as [|c x]; simpl; [done|]. intros Hc.
  destruct (trimEnd x); [by rewrite Hc|done].
Qed.

Lemma trimEnd_idempotent (x : string) : trimEnd (trimEnd x) = trimEnd x.
Proof.
  induction x as [|c x IH]; simpl; [done|].
  destruct (trimEnd x) as [|d t] eqn:Ht.
  - destruct (isWhite c) eqn:Hc; simpl; [done|by rewrite Hc].
  - change (trimEnd (String c (String d t))) with
      (match trimEnd (String d t) with
       | EmptyString => if isWhite c then EmptyString else String c EmptyString
       | u => String c u
       end).
    by rewrite IH.
Qed.

(** Trimming twice is trimming once. *)
Lemma trim_idempotent (x : string) : trim (trim x) = trim x.
Proof.
  unfold trim.
  rewrite (trimStart_of_clean (trimEnd (trimStart x)))
    by apply trimEnd_clean, trimStart_clean.
  apply trimEnd_idempotent.
Qed.

Lemma trimStart_length (x : string) : String.length (trimStart x) <= String.length x.
Proof. induction x as [|c x IH]; simpl; [done|]. destruct (isWhite c); simpl; lia. Qed.

Lemma trimEnd_length (x : string) : String.length (trimEnd x) <= String.length x.
Proof.
  induction x as [|c x IH]; simpl; [done|].
  destruct (trimEnd x); [destruct (isWhite c)|]; simpl in *; lia.
Qed.

Lemma trim_length (x : string) : String.length (trim x) <= String.length x.
Proof.
  unfold trim. etrans; [apply trimEnd_length|apply trimStart_length].
Qed.

End StringFacts.

(* ===================================================================== *)
(** ** Chat *)
(* ===================================================================== *)

Section Chat.

Context {E : Engine} (cfg : Config).

Implicit Types (r : Room E) (s : Sys E).

(** The entry that [pushChatMessage] appends. *)
Definition newMessage (address username' avatar' text id : string) (now : Z)
  : ChatMessage :=
  {| msg_id := slice 0 8 id; msg_at := now; msg_address := address;
     msg_username := username'; msg_avatar := avatar'; msg_text := text |}.

(** [pushChatMessage] appends the message, then drops the oldest entries
    beyond a hundred: what is kept is the end of the old log, in order,
    followed by the new message, and it has at most a hundred entries. The
    roster is untouched. *)
Lemma pushChatMessage_spec r address username' avatar' text id now :
  exists k,
    messages (chat (pushChatMessage r address username' avatar' text id now))
    = drop k (messages (chat r)) ++ [newMessage address username' avatar' text id now] /\
    k = length (messages (chat r)) + 1 - MAX_CHAT_MESSAGES /\
    length (messages (chat (pushChatMessage r address username' avatar' text id now)))
    = Nat.min (length (messages (chat r)) + 1) MAX_CHAT_MESSAGES /\
    members (chat (pushChatMessage r address username' avatar' text id now))
    = members (chat r).
Proof.
  unfold pushChatMessage, MAX_CHAT_MESSAGES. simpl.
  set (old := messages (chat r)).
  set (m := {| msg_id := _ |}).
  exists (length old + 1 - 100).
  rewrite length_app. simpl.
  destruct (Nat.ltb_spec 100 (length old + 1)) as [Hlt|Hge].
  - rewrite drop_app_le by lia. rewrite length_app, length_drop. simpl.
    split_and!; try done. lia.
  - replace (length old + 1 - 100) with 0 by lia. rewrite drop_0, length_app. simpl.
    split_and!; try done. lia.
Qed.

Lemma dicebear_truthy seed : truthy (dicebear seed) = true.
Proof. reflexivity. Qed.

(** A normalised roster entry has a name of at most 24 code units and a
    non-empty avatar of which the supplied part is at most 512 code units;
    the name of an entry that was stored as an object is not empty. An empty
    or absent entry, and an object whose name is blank, give [null]. *)
Lemma normalizeChatMember_bounds member address m :
  normalizeChatMember member address = Some m ->
  String.length (username m) <= 24 /\
  truthy (avatar m) = true /\
  (forall stored, member = Some (MemberObj stored) ->
     1 <= String.length (username m) /\
     username m = slice 0 24 (trim (username stored)) /\
     (truthy (slice 0 512 (trim (avatar stored))) = true ->
      String.length (avatar m) <= 512)) /\
  member <> None /\ member <> Some (MemberName "").
Proof.
  unfold normalizeChatMember.
  destruct member as [[name|stored]|]; [| |done].
  - destruct (truthy name) eqn:Hn; [|done]. intros [= <-]. simpl.
    split_and!; try done.
    + rewrite slice_length. lia.
    + intros [= ->]. discriminate.
  - destruct (truthy (slice 0 24 (trim (username stored)))) eqn:Hu; [|done].
    intros [= <-]. simpl. split_and!; try done.
    + rewrite slice_length. lia.
    + by destruct (truthy (slice 0 512 (trim (avatar stored)))) eqn:Ha.
    + intros ? [= <-]. split_and!; [by apply truthy_length|done|].
      intros ->. rewrite slice_length. lia.
Qed.

Lemma imap_In {A B} (f : nat -> A -> B) (l : list A) (b : B) :
  In b (imap f l) -> exists i a, In a l /\ b = f i a.
Proof.
  revert f. induction l as [|a l IH]; intros f; simpl; [done|].
  intros [<-|Hin]; [exists 0, a; auto|].
  destruct (IH _ Hin) as (i & a' & Hin' & ->). exists (S i), a'. auto.
Qed.

Lemma filter_length_le {A} (f : A -> bool) (l : list A) :
  length (List.filter f l) <= length l.
Proof. induction l as [|a l IH]; simpl; [done|]. destruct (f a); simpl; lia. Qed.

(** X6. Whatever the stored chat, the chat a room is rebuilt with is well
    formed: every roster entry is an object with a name of at most 24 code
    units and a non-empty avatar, every message has a text of 1 to 280 code
    units, a name of 1 to 24 and an avatar of at most 512; nothing is added
    to the roster or to the log. *)
Theorem normalizeChatState_well_formed (chat0 : option ChatState) now uuid :
  (forall address m,
     members (normalizeChatState chat0 now uuid) !! address = Some m ->
     is_Some (members (default createChatState chat0) !! address) /\
     exists m', m = MemberObj m' /\ String.length (username m') <= 24 /\
                truthy (avatar m') = true) /\
  (forall msg,
     In msg (messages (normalizeChatState chat0 now uuid)) ->
     1 <= String.length (msg_text msg) <= 280 /\
     1 <= String.length (msg_username msg) <= 24 /\
     String.length (msg_avatar msg) <= 512) /\
  length (messages (normalizeChatState chat0 now uuid))
  <= length (messages (default createChatState chat0)).
Proof.
  unfold normalizeChatState. cbv zeta. cbn [members messages]. split_and!.
  - intros address m. rewrite map_lookup_imap.
    destruct (members (default createChatState chat0) !! address) as [stored|] eqn:Hl;
      [|done]. cbn [mbind option_bind option_fmap fmap option_map].
    destruct (normalizeChatMember (Some stored) address) as [m'|] eqn:Hn; [|done].
    intros [= <-]. split; [eauto|]. exists m'.
    destruct (normalizeChatMember_bounds _ _ _ Hn) as (H1 & H2 & _). done.
  - intros msg Hin. apply filter_In in Hin as [Hin Ht].
    apply imap_In in Hin as (i & m & _ & ->).
    unfold normalizeMessage in *. simpl in *.
    apply truthy_length in Ht. rewrite !slice_length in *.
    split_and!; try lia.
    + destruct (truthy (slice 0 24 (trim (msg_username m)))) eqn:Hu;
        [by apply truthy_length|simpl; lia].
    + destruct (truthy (slice 0 24 (trim (msg_username m)))) eqn:Hu;
        [rewrite slice_length; lia|simpl; lia].
  - etrans; [apply filter_length_le|]. by rewrite length_imap.
Qed.

Lemma broadcastRoom_chat s t t' : chat (room (broadcastRoom s t t')) = chat (room s).
Proof. rewrite broadcastRoom_room. apply (applyClockDecay_frame (room s) t). Qed.

Lemma resolvePlayer_truthy r payload label address color :
  resolvePlayer r payload label = inl (address, color) ->
  truthy address = true /\ getPlayerColor r (Some address) = Some color.
Proof.
  unfold resolvePlayer.
  destruct (payloadAddress payload) as [a|]; [|done].
  destruct (getPlayerColor r (Some a)) as [c|] eqn:Hc; [|done].
  destruct (truthy a) eqn:Ha; [|done]. by intros [= <- <-].
Qed.

(** X7. [enter_chat] is accepted exactly from a seated address whose trimmed
    user name has 2 to 24 code units. Accepted, the roster maps the address
    to that trimmed name, with the trimmed avatar cut to 512 code units or,
    if that is empty, the generated avatar of the address; the other roster
    entries and the message log are unchanged. Rejected, nothing changes. *)
Theorem enter_chat_registers_trimmed_name s payload tm :
  let name := trim (orElse (pl_username payload) "") in
  (snd (enter_chat s payload tm) = Done <->
   (exists address color,
      resolvePlayer (room s) payload "chat enter" = inl (address, color)) /\
   2 <= String.length name <= 24) /\
  (forall address color,
     resolvePlayer (room s) payload "chat enter" = inl (address, color) ->
     snd (enter_chat s payload tm) = Done ->
     members (chat (room (fst (enter_chat s payload tm)))) !! address
     = Some (MemberObj
               {| username := name;
                  avatar := (let a := slice 0 512 (trim (orElse (pl_avatar payload) "")) in
                             if truthy a then a else dicebear address) |}) /\
     (forall other, other <> address ->
        members (chat (room (fst (enter_chat s payload tm)))) !! other
        = members (chat (room s)) !! other) /\
     messages (chat (room (fst (enter_chat s payload tm)))) = messages (chat (room s))) /\
  (snd (enter_chat s payload tm) <> Done -> fst (enter_chat s payload tm) = s).
Proof.
  cbv zeta. unfold enter_chat.
  destruct (resolvePlayer _ _ _) as [[a color]|e] eqn:Hres.
  2:{ split_and!; [split; [done|by intros [(?&?&?) _]]|done|done]. }
  set (name := trim (orElse (pl_username payload) "")).
  destruct (Nat.ltb_spec (String.length name) 2) as [Hshort|Hlong]; cbn [orb fst snd].
  { split_and!; [split; [done|intros [_ ?]; lia]|done|done]. }
  destruct (Nat.ltb_spec 24 (String.length name)) as [Hbig|Hok]; cbn [orb fst snd].
  { split_and!; [split; [done|intros [_ ?]; lia]|done|done]. }
  split_and!; [split; [intros _; split; [eauto|lia]|done]| |done].
  intros a' c' [= <- <-] _. rewrite broadcastRoom_chat. cbn [room set_room].
  destruct (resolvePlayer_truthy _ _ _ _ _ Hres) as [Ha _].
  assert (Htn : trim name = name) by apply trim_idempotent.
  assert (Hname : truthy name = true) by (apply truthy_length; lia).
  unfold normalizeChatMember. cbn [username avatar].
  rewrite Htn, (slice_short 24 name) by lia.
  rewrite Hname, Ha, (trim_idempotent (orElse (pl_avatar payload) "")).
  cbn [setMember chat set_chat members messages].
  split_and!; [apply lookup_insert_eq| |done].
  intros other Hne. by apply lookup_insert_ne.
Qed.

(** X8. An accepted [send_chat]: the text, trimmed, has 1 to 280 code units; the
    log then ends with a message of the acting address carrying that text,
    preceded by the end of the old log, and holds at most a hundred
    messages. A command whose trimmed text is empty or longer than 280 code
    units is rejected and leaves the log as it was. *)
Theorem send_chat_appends_trimmed_text s payload uuid tm address color :
  resolvePlayer (room s) payload "chat message" = inl (address, color) ->
  let text := trim (orElse (pl_text payload) "") in
  (snd (send_chat s payload uuid tm) = Done <-> 1 <= String.length text <= 280) /\
  (snd (send_chat s payload uuid tm) = Done ->
   exists k msg,
     messages (chat (room (fst (send_chat s payload uuid tm))))
     = drop k (messages (chat (room s))) ++ [msg] /\
     msg_text msg = text /\ msg_address msg = address /\ msg_at msg = tm 0%nat /\
     length (messages (chat (room (fst (send_chat s payload uuid tm)))))
     = Nat.min (length (messages (chat (room s))) + 1) MAX_CHAT_MESSAGES) /\
  (snd (send_chat s payload uuid tm) <> Done ->
   messages (chat (room (fst (send_chat s payload uuid tm)))) = messages (chat (room s))).
Proof.
  intros Hres. cbv zeta. unfold send_chat. rewrite Hres.
  set (text := trim (orElse (pl_text payload) "")).
  set (fallbackName := "Player-" +:+ slice 2 6 address).
  destruct (normalizeChatMember (members (chat (room s)) !! address) address)
    as [member|] eqn:Hm; cbv zeta beta iota.
  - destruct (truthy text) eqn:Ht; cbn [negb orb].
    2:{ cbn [fst snd]. split_and!; [split; [done|]|done|done].
        intros [H1 _]. apply truthy_length in H1. congruence. }
    destruct (Nat.ltb_spec 280 (String.length text)) as [Hbig|Hok]; cbn [fst snd].
    { split_and!; [split; [done|lia]|done|done]. }
    apply truthy_length in Ht.
    split_and!; [split; [lia|done]| |done].
    intros _. rewrite broadcastRoom_chat. cbn [room set_room].
    destruct (pushChatMessage_spec (room s) address (username member)
                (avatar member) text uuid (tm 0%nat)) as (k & Hk & _ & Hlen & _).
    exists k, (newMessage address (username member) (avatar member) text uuid (tm 0%nat)).
    split_and!; done.
  - destruct (truthy text) eqn:Ht; cbn [negb orb].
    2:{ cbn [fst snd]. split_and!; [split; [done|]|done|done].
        intros [H1 _]. apply truthy_length in H1. congruence. }
    destruct (Nat.ltb_spec 280 (String.length text)) as [Hbig|Hok]; cbn [fst snd].
    { split_and!; [split; [done|lia]|done|done]. }
    apply truthy_length in Ht.
    split_and!; [split; [lia|done]| |done].
    intros _. rewrite broadcastRoom_chat. cbn [room set_room].
    match goal with |- context [pushChatMessage ?r0 address ?u ?a text uuid (tm 0%nat)] =>
      destruct (pushChatMessage_spec r0 address u a text uuid (tm 0%nat))
        as (k & Hk & _ & Hlen & _);
      exists k, (newMessage address u a text uuid (tm 0%nat))
    end.
    split_and!; done.
Qed.

End Chat.

(* ===================================================================== *)
(** ** The AI search *)
(* ===================================================================== *)

(** [a <= b] and [a < b] on scores. *)
Definition sle (a b : Score) : Prop := sleb a b = true.
Definition slt (a b : Score) : Prop := sleb b a = false.

(** The scores are totally ordered. *)
Module ScoreOrder.

Definition t := Score.
Definition eq := @Logic.eq Score.
Definition lt := slt.
Definition le := sle.

Lemma eq_equiv : Equivalence eq.
Proof. unfold eq. split; red; intros; congruence. Qed.

Lemma lt_strorder : StrictOrder lt.
Proof.
  split.
  - intros [| |]; unfold complement, lt, slt; simpl; try done.
    rewrite Z.leb_refl. done.
  - intros [| |] [| |] [| |]; unfold lt, slt; simpl; try done.
    rewrite !Z.leb_gt. lia.
Qed.

Lemma lt_compat : Proper (eq ==> eq ==> iff) lt.
Proof. intros ? ? -> ? ? ->. done. Qed.

Lemma le_lteq x y : le x y <-> lt x y \/ eq x y.
Proof.
  unfold le, lt, eq, sle, slt. destruct x, y; simpl; try tauto;
    try (split; [auto|intros [?|?]; done]).
  rewrite Z.leb_le, Z.leb_gt. split; [|intros [?|[= ->]]; lia].
  intros H. destruct (Z.eq_dec z z0) as [->|]; [auto|left; lia].
Qed.

Lemma lt_total x y : lt x y \/ eq x y \/ lt y x.
Proof.
  unfold lt, eq, slt. destruct x, y; simpl; auto.
  rewrite !Z.leb_gt. destruct (Z.lt_total z z0) as [?|[->|?]]; auto.
Qed.

End ScoreOrder.

Module ScoreTac := MakeOrderTac ScoreOrder ScoreOrder.

Ltac sorder :=
  change slt with ScoreOrder.lt in *; change sle with ScoreOrder.le in *;
  ScoreTac.order.

Section ScoreFacts.

Lemma smax_spec a b :
  (sle a b /\ smax a b = b) \/ (slt b a /\ smax a b = a).
Proof. unfold smax, sle, slt. destruct (sleb a b); auto. Qed.

Lemma smin_spec a b :
  (sle a b /\ smin a b = a) \/ (slt b a /\ smin a b = b).
Proof. unfold smin, sle, slt. destruct (sleb a b); auto. Qed.

Lemma sle_or_lt a b : sle a b \/ slt b a.
Proof. unfold sle, slt. destruct (sleb a b); auto. Qed.

Lemma sle_NegInf a : sle NegInf a.
Proof. done. Qed.

Lemma sle_PosInf a : sle a PosInf.
Proof. by destruct a. Qed.

Lemma slt_Fin x y : slt (Fin x) (Fin y) <-> (x < y)%Z.
Proof. unfold slt. simpl. apply Z.leb_gt. Qed.

Lemma sle_Fin x y : sle (Fin x) (Fin y) <-> (x <= y)%Z.
Proof. unfold sle. simpl. apply Z.leb_le. Qed.

Lemma smax_NegInf_r a : smax a NegInf = a.
Proof. by destruct a. Qed.

Lemma smin_PosInf_r a : smin a PosInf = a.
Proof. by destruct a. Qed.

(** What a search with window [(alpha, beta)] that returned [r] says about
    the minimax value [v]: at or below [alpha] the result is an upper bound of
    the value, at or above [beta] a lower bound, inside the window it is the
    value. *)
Definition bounds (r v alpha beta : Score) : Prop :=
  (sle r alpha -> sle v r) /\
  (sle beta r -> sle r v) /\
  (slt alpha r -> slt r beta -> v = r).

(** The running result [best] of a node against the maximum (minimum) [P] of
    the values of the children seen so far. *)
Definition maxSeen (best P alpha0 : Score) : Prop :=
  (sle best alpha0 -> sle P best) /\ (slt alpha0 best -> P = best).

Definition minSeen (best P beta0 : Score) : Prop :=
  (sle beta0 best -> sle best P) /\ (slt best beta0 -> P = best).

End ScoreFacts.

Ltac score_imp :=
  repeat match goal with
         | H : sle ?x ?y -> _ |- _ =>
             first [ let H' := fresh in assert (H' : sle x y) by sorder; specialize (H H')
                   | let H' := fresh in assert (H' : slt y x) by sorder; clear H
                   | let H' := fresh in
                     destruct (sle_or_lt x y) as [H'|H']; [specialize (H H')|clear H] ]
         | H : slt ?x ?y -> _ |- _ =>
             first [ let H' := fresh in assert (H' : slt x y) by sorder; specialize (H H')
                   | let H' := fresh in assert (H' : sle y x) by sorder; clear H
                   | let H' := fresh in
                     destruct (sle_or_lt y x) as [H'|H']; [clear H|specialize (H H')] ]
         end.

Ltac score_max :=
  repeat match goal with
         | |- context [smax ?a ?b] =>
             let H := fresh in let Heq := fresh in
             destruct (smax_spec a b) as [[H Heq]|[H Heq]]; rewrite ?Heq in *; clear Heq;
             try (exfalso; sorder)
         | |- context [smin ?a ?b] =>
             let H := fresh in let Heq := fresh in
             destruct (smin_spec a b) as [[H Heq]|[H Heq]]; rewrite ?Heq in *; clear Heq;
             try (exfalso; sorder)
         | H0 : context [smax ?a ?b] |- _ =>
             let H := fresh in let Heq := fresh in
             destruct (smax_spec a b) as [[H Heq]|[H Heq]]; rewrite ?Heq in *; clear Heq;
             try (exfalso; sorder)
         | H0 : context [smin ?a ?b] |- _ =>
             let H := fresh in let Heq := fresh in
             destruct (smin_spec a b) as [[H Heq]|[H Heq]]; rewrite ?Heq in *; clear Heq;
             try (exfalso; sorder)
         end.

(** Order reasoning on scores: case analysis on every maximum, minimum and
    comparison, then the order tactic. *)
Ltac score_cases :=
  unfold bounds, maxSeen, minSeen in *;
  repeat match goal with
         | H : _ /\ _ |- _ => destruct H
         end;
  score_max;
  repeat match goal with
         | |- context [if sleb ?a ?b then _ else _] =>
             let H := fresh in
             destruct (sle_or_lt a b) as [H|H];
             [replace (sleb a b) with true by (symmetry; exact H)
             |replace (sleb a b) with false by (symmetry; exact H)]
         end;
  score_imp;
  repeat split; intros; score_imp; sorder.

Section ScoreSteps.

Lemma bounds_exact r alpha beta : bounds r r alpha beta.
Proof. score_cases. Qed.

Lemma bounds_full r v : bounds r v NegInf PosInf -> r = v.
Proof.
  intros H. pose proof (sle_NegInf r). pose proof (sle_PosInf r).
  pose proof (sle_NegInf v). pose proof (sle_PosInf v). score_cases.
Qed.

(** One iteration of the loop of a maximising node: either the loop breaks,
    and the result is at least [beta] and at most the value of the node, or
    it goes on with its invariant. *)
Lemma max_step alpha0 beta best P r v :
  slt alpha0 beta -> slt best beta -> maxSeen best P alpha0 ->
  bounds r v (smax alpha0 best) beta ->
  if sleb beta (smax (smax alpha0 best) (smax best r))
  then sle beta (smax best r) /\ sle (smax best r) (smax P v)
  else slt (smax best r) beta /\ maxSeen (smax best r) (smax P v) alpha0 /\
       smax (smax alpha0 best) (smax best r) = smax alpha0 (smax best r).
Proof. intros H1 H2 H3 H4. score_cases. Qed.

Lemma min_step alpha beta0 best P r v :
  slt alpha beta0 -> slt alpha best -> minSeen best P beta0 ->
  bounds r v alpha (smin beta0 best) ->
  if sleb (smin (smin beta0 best) (smin best r)) alpha
  then sle (smin best r) alpha /\ sle (smin P v) (smin best r)
  else slt alpha (smin best r) /\ minSeen (smin best r) (smin P v) beta0 /\
       smin (smin beta0 best) (smin best r) = smin beta0 (smin best r).
Proof. intros H1 H2 H3 H4. score_cases. Qed.

End ScoreSteps.

Section Search.

Context {E : Engine} (Q : EngineQueries E).

(** Minimax without cut-offs and without a window, the reference that the
    search of the source is compared with: the value of a position is its
    evaluation at depth 0, when the game is over or when there is no move,
    and else the maximum (Black to move) or the minimum (White to move) of
    the values of the positions after each listed move. *)
Fixpoint maxAll (child : Position E -> option Score) (chess : Position E)
  (ms : list VerboseMove) (best : Score) : option Score :=
  match ms with
  | [] => Some best
  | m :: ms' =>
      match afterMove Q chess m with
      | None => None
      | Some next =>
          match child next with
          | None => None
          | Some score => maxAll child chess ms' (smax best score)
          end
      end
  end.

Fixpoint minAll (child : Position E -> option Score) (chess : Position E)
  (ms : list VerboseMove) (best : Score) : option Score :=
  match ms with
  | [] => Some best
  | m :: ms' =>
      match afterMove Q chess m with
      | None => None
      | Some next =>
          match child next with
          | None => None
          | Some score => minAll child chess ms' (smin best score)
          end
      end
  end.

Fixpoint plainMinimax (depth : nat) (chess : Position E) (isBlackTurn : bool)
  : option Score :=
  match depth with
  | 0 => Some (Fin (evaluatePositionForBlack Q chess))
  | S depth' =>
      if isGameOver E chess then Some (Fin (evaluatePositionForBlack Q chess))
      else
        match moves Q chess with
        | [] => Some (Fin (evaluatePositionForBlack Q chess))
        | ms =>
            if isBlackTurn
            then maxAll (fun next => plainMinimax depth' next false) chess ms NegInf
            else minAll (fun next => plainMinimax depth' next true) chess ms PosInf
        end
  end.

(** The material balance, for Black, of the position after a listed move. *)
Definition evalAfter (chess : Position E) (m : VerboseMove) : Z :=
  match afterMove Q chess m with
  | Some next => evaluatePositionForBlack Q next
  | None => 0
  end.

(** The two-ply minimax value, for Black, of the position after a listed
    move, White to reply. *)
Definition replyValue (chess : Position E) (m : VerboseMove) : Score :=
  match afterMove Q chess m with
  | Some next => default NegInf (plainMinimax 2 next false)
  | None => NegInf
  end.

Lemma maxAll_ge child chess ms P V : maxAll child chess ms P = Some V -> sle P V.
Proof.
  revert P. induction ms as [|m ms IH]; intros P; simpl.
  - intros [= <-]. sorder.
  - destruct (afterMove Q chess m) as [next|]; [|done].
    destruct (child next) as [v|]; [|done].
    intros H%IH. score_cases.
Qed.

Lemma minAll_le child chess ms P V : minAll child chess ms P = Some V -> sle V P.
Proof.
  revert P. induction ms as [|m ms IH]; intros P; simpl.
  - intros [= <-]. sorder.
  - destruct (afterMove Q chess m) as [next|]; [|done].
    destruct (child next) as [v|]; [|done].
    intros H%IH. score_cases.
Qed.

Lemma maxLoop_bounds childAB childP chess alpha0 beta :
  slt alpha0 beta ->
  (forall next a b v, slt a b -> childP next = Some v ->
     exists r, childAB next a b = Some r /\ bounds r v a b) ->
  forall ms best P V,
    slt best beta -> maxSeen best P alpha0 ->
    maxAll childP chess ms P = Some V ->
    exists r, maxLoop Q childAB chess ms best (smax alpha0 best) beta = Some r /\
              bounds r V alpha0 beta.
Proof.
  intros Hw Hchild. induction ms as [|m ms IH]; intros best P V Hb Hseen HV;
    cbn [maxLoop maxAll] in *.
  - injection HV as <-. exists best. split; [done|]. score_cases.
  - destruct (afterMove Q chess m) as [next|]; [|done].
    destruct (childP next) as [v|] eqn:Hv; [|done].
    assert (Hwin : slt (smax alpha0 best) beta) by score_cases.
    destruct (Hchild next _ _ v Hwin Hv) as (r & -> & Hr). cbv zeta.
    pose proof (max_step alpha0 beta best P r v Hw Hb Hseen Hr) as Hstep.
    destruct (sleb beta (smax (smax alpha0 best) (smax best r))).
    + destruct Hstep as [H1 H2]. exists (smax best r). split; [done|].
      apply maxAll_ge in HV. clear Hr Hwin Hseen Hb.
      generalize dependent (smax best r). generalize dependent (smax P v).
      intros. score_cases.
    + destruct Hstep as (H1 & H2 & ->). by apply (IH _ (smax P v)).
Qed.

Lemma minLoop_bounds childAB childP chess alpha beta0 :
  slt alpha beta0 ->
  (forall next a b v, slt a b -> childP next = Some v ->
     exists r, childAB next a b = Some r /\ bounds r v a b) ->
  forall ms best P V,
    slt alpha best -> minSeen best P beta0 ->
    minAll childP chess ms P = Some V ->
    exists r, minLoop Q childAB chess ms best alpha (smin beta0 best) = Some r /\
              bounds r V alpha beta0.
Proof.
  intros Hw Hchild. induction ms as [|m ms IH]; intros best P V Hb Hseen HV;
    cbn [minLoop minAll] in *.
  - injection HV as <-. exists best. split; [done|]. score_cases.
  - destruct (afterMove Q chess m) as [next|]; [|done].
    destruct (childP next) as [v|] eqn:Hv; [|done].
    assert (Hwin : slt alpha (smin beta0 best)) by score_cases.
    destruct (Hchild next _ _ v Hwin Hv) as (r & -> & Hr). cbv zeta.
    pose proof (min_step alpha beta0 best P r v Hw Hb Hseen Hr) as Hstep.
    destruct (sleb (smin (smin beta0 best) (smin best r)) alpha).
    + destruct Hstep as [H1 H2]. exists (smin best r). split; [done|].
      apply minAll_le in HV. clear Hr Hwin Hseen Hb.
      generalize dependent (smin best r). generalize dependent (smin P v).
      intros. score_cases.
    + destruct Hstep as (H1 & H2 & ->). by apply (IH _ (smin P v)).
Qed.

Lemma minimaxForBlack_bounds depth :
  forall chess isBlackTurn alpha beta v,
    slt alpha beta ->
    plainMinimax depth chess isBlackTurn = Some v ->
    exists r, minimaxForBlack Q depth chess isBlackTurn alpha beta = Some r /\
              bounds r v alpha beta.
Proof.
  induction depth as [|d IH]; intros chess b alpha beta v Hw;
    cbn [minimaxForBlack plainMinimax].
  { intros [= <-]. eexists. split; [done|apply bounds_exact]. }
  destruct (isGameOver E chess).
  { intros [= <-]. eexists. split; [done|apply bounds_exact]. }
  destruct (moves Q chess) as [|m ms].
  { intros [= <-]. eexists. split; [done|apply bounds_exact]. }
  destruct b; intros HV.
  - pose proof (maxLoop_bounds
                  (fun next a b => minimaxForBlack Q d next false a b)
                  (fun next => plainMinimax d next false) chess alpha beta Hw
                  (fun next a b v => IH next false a b v)
                  (m :: ms) NegInf NegInf v) as H.
    rewrite smax_NegInf_r in H. apply H; [|score_cases|done].
    pose proof (sle_NegInf alpha). sorder.
  - pose proof (minLoop_bounds
                  (fun next a b => minimaxForBlack Q d next true a b)
                  (fun next => plainMinimax d next true) chess alpha beta Hw
                  (fun next a b v => IH next true a b v)
                  (m :: ms) PosInf PosInf v) as H.
    rewrite smin_PosInf_r in H. apply H; [|score_cases|done].
    pose proof (sle_PosInf beta). sorder.
Qed.

(** X9. The search with cut-offs computes the minimax value. Whenever plain
    minimax to the same depth gives a value [v] (no move of the tree throws),
    [minimaxForBlack] called with the full window returns [v]; called with a
    window [alpha < beta] it returns a result that is [v] when it lies inside
    the window, an upper bound of [v] when it is at most [alpha], and a lower
    bound of [v] when it is at least [beta]. *)
Theorem minimaxForBlack_computes_minimax depth chess isBlackTurn v :
  plainMinimax depth chess isBlackTurn = Some v ->
  minimaxForBlack Q depth chess isBlackTurn NegInf PosInf = Some v /\
  forall alpha beta,
    slt alpha beta ->
    exists r, minimaxForBlack Q depth chess isBlackTurn alpha beta = Some r /\
              bounds r v alpha beta.
Proof.
  intros HV. split.
  - destruct (minimaxForBlack_bounds depth chess isBlackTurn NegInf PosInf v)
      as (r & -> & Hr); [done|done|].
    f_equal. by apply bounds_full.
  - intros alpha beta Hw. by apply minimaxForBlack_bounds.
Qed.

(** *** The choice among the listed moves *)

(** The state of the loop of [pickAiMove] after the moves [seen]: no move
    scored above [-Infinity] yet, or [best] is the first of the moves with
    the greatest score. *)
Definition pickSeen (val : VerboseMove -> Score) (seen : list VerboseMove)
  (best : option VerboseMove) (bestScore : Score) : Prop :=
  match best with
  | None => bestScore = NegInf /\ forall m, In m seen -> val m = NegInf
  | Some b =>
      exists pre post,
        seen = pre ++ b :: post /\ val b = bestScore /\
        (forall m, In m pre -> slt (val m) bestScore) /\
        (forall m, In m post -> sle (val m) bestScore)
  end.

Lemma pickLoop_seen score chess val :
  forall ms seen best bestScore,
    (forall m, In m ms ->
       exists next, afterMove Q chess m = Some next /\ score next = Some (val m)) ->
    pickSeen val seen best bestScore ->
    exists res bestScore',
      pickLoop Q score chess ms best bestScore = Some res /\
      pickSeen val (seen ++ ms) res bestScore'.
Proof.
  induction ms as [|m ms IH]; intros seen best bestScore Hplay Hseen;
    cbn [pickLoop].
  { rewrite app_nil_r. eauto. }
  destruct (Hplay m) as (next & -> & ->); [by left|].
  assert (Hrest : forall m', In m' ms ->
            exists next', afterMove Q chess m' = Some next' /\
                          score next' = Some (val m'))
    by (intros m' Hin; apply Hplay; by right).
  replace (seen ++ m :: ms) with ((seen ++ [m]) ++ ms) by by rewrite <- app_assoc.
  unfold sgtb. destruct (sle_or_lt (val m) bestScore) as [Hle|Hgt].
  - replace (sleb (val m) bestScore) with true by (symmetry; exact Hle).
    cbn [negb]. apply IH; [done|].
    destruct best as [b|]; cbn [pickSeen] in *.
    + destruct Hseen as (pre & post & -> & Hb & Hpre & Hpost).
      exists pre, (post ++ [m]). split_and!; try done.
      * by rewrite <- app_assoc.
      * intros m' [Hin|[<-|[]]]%in_app_or; auto.
    + destruct Hseen as [-> Hall]. split; [done|].
      intros m' [Hin|[<-|[]]]%in_app_or; [auto|].
      pose proof (sle_NegInf (val m)). sorder.
  - replace (sleb (val m) bestScore) with false by (symmetry; exact Hgt).
    cbn [negb]. apply IH; [done|]. cbn [pickSeen].
    exists seen, []. split_and!; try done.
    destruct best as [b|]; cbn [pickSeen] in *.
    + destruct Hseen as (pre & post & -> & Hb & Hpre & Hpost).
      intros m' [Hin|[<-|Hin]]%in_app_or.
      * specialize (Hpre _ Hin). sorder.
      * sorder.
      * specialize (Hpost _ Hin). sorder.
    + destruct Hseen as [-> Hall]. intros m' Hin. rewrite (Hall _ Hin). done.
Qed.

(** Started with no best move, the loop followed by [best || moves[0]] gives
    the first of the moves with the greatest score. *)
Lemma pickLoop_first_best score chess val m0 ms :
  (forall m, In m (m0 :: ms) ->
     exists next, afterMove Q chess m = Some next /\ score next = Some (val m)) ->
  exists res pre b post,
    pickLoop Q score chess (m0 :: ms) None NegInf = Some res /\
    bestOrFirst res (m0 :: ms) = Some b /\
    m0 :: ms = pre ++ b :: post /\
    (forall m, In m pre -> slt (val m) (val b)) /\
    (forall m, In m post -> sle (val m) (val b)).
Proof.
  intros Hplay.
  destruct (pickLoop_seen score chess val (m0 :: ms) [] None NegInf Hplay)
    as (res & bs & Hres & Hseen); [by split|].
  exists res. rewrite Hres. cbn [app] in Hseen.
  destruct res as [b|]; cbn [pickSeen bestOrFirst head] in *.
  - destruct Hseen as (pre & post & Heq & <- & Hpre & Hpost).
    exists pre, b, post. done.
  - destruct Hseen as [_ Hall]. exists [], m0, ms. split_and!; try done.
    intros m Hin. rewrite (Hall m) by by right. apply sle_NegInf.
Qed.

(** X10. At level [hard] the AI plays the first of the listed moves after which
    the material balance (or the mate or draw score) is best for Black: the
    moves listed before it give strictly less, those after it at most as
    much. With no legal move it returns [null]. *)
Theorem pickAiMove_hard_takes_first_best_balance chess :
  (forall m, In m (moves Q chess) -> is_Some (afterMove Q chess m)) ->
  match moves Q chess with
  | [] => pickAiMove_hard Q chess = Some None
  | _ =>
      exists pre b post,
        moves Q chess = pre ++ b :: post /\
        pickAiMove_hard Q chess = Some (Some b) /\
        (forall m, In m pre -> (evalAfter chess m < evalAfter chess b)%Z) /\
        (forall m, In m post -> (evalAfter chess m <= evalAfter chess b)%Z)
  end.
Proof.
  intros Hplay. unfold pickAiMove_hard.
  destruct (moves Q chess) as [|m0 ms]; [done|].
  destruct (pickLoop_first_best
              (fun next => Some (Fin (evaluatePositionForBlack Q next))) chess
              (fun m => Fin (evalAfter chess m)) m0 ms)
    as (res & pre & b & post & -> & Hb & Heq & Hpre & Hpost).
  { intros m Hin. destruct (Hplay m Hin) as [next Hnext].
    exists next. unfold evalAfter. by rewrite Hnext. }
  exists pre, b, post. rewrite Hb. split_and!; try done.
  - intros m Hin. by apply slt_Fin, Hpre.
  - intros m Hin. by apply sle_Fin, Hpost.
Qed.

(** X11. At level [master] the AI plays the first of the listed moves whose
    two-ply minimax value (White replies, Black answers) is greatest. *)
Theorem pickAiMove_master_takes_first_best_reply_value chess :
  (forall m, In m (moves Q chess) ->
     exists next, afterMove Q chess m = Some next /\
                  is_Some (plainMinimax 2 next false)) ->
  match moves Q chess with
  | [] => pickAiMove_master Q chess = Some None
  | _ =>
      exists pre b post,
        moves Q chess = pre ++ b :: post /\
        pickAiMove_master Q chess = Some (Some b) /\
        (forall m, In m pre -> slt (replyValue chess m) (replyValue chess b)) /\
        (forall m, In m post -> sle (replyValue chess m) (replyValue chess b))
  end.
Proof.
  intros Hplay. unfold pickAiMove_master.
  destruct (moves Q chess) as [|m0 ms]; [done|].
  destruct (pickLoop_first_best
              (fun next => minimaxForBlack Q 2 next false NegInf PosInf) chess
              (replyValue chess) m0 ms)
    as (res & pre & b & post & -> & Hb & Heq & Hpre & Hpost).
  { intros m Hin. destruct (Hplay m Hin) as (next & Hnext & [v Hv]).
    exists next. split; [done|]. unfold replyValue. rewrite Hnext, Hv.
    destruct (minimaxForBlack_bounds 2 next false NegInf PosInf v)
      as (r & -> & Hr); [done|done|].
    f_equal. by apply bounds_full. }
  exists pre, b, post. rewrite Hb. done.
Qed.

End Search.

(* ===================================================================== *)
(** ** A small game tree for the examples of the search *)
(* ===================================================================== *)

(** Every position has the two moves [0] and [1]; a position is the list of
    the moves played, Black moving first. The board of a position holds only
    black pawns, [material] of them, so that the evaluation is a hundred
    times [material]. *)
Module GameTree.

Definition Pos := list nat.

Definition material (p : Pos) : nat :=
  match p with
  | [0] => 1
  | [1] => 2
  | [0; 0; 0] => 3
  | [0; 0; 1] => 5
  | [0; 1; 0] => 6
  | [0; 1; 1] => 7
  | [1; 0; 0] => 2
  | [1; 0; 1] => 4
  | [1; 1; 0] => 1
  | [1; 1; 1] => 8
  | _ => 0
  end.

Definition sideToMove (p : Pos) : Color :=
  if Nat.even (length p) then black else white.

Definition mv (c : Color) (target : string) : VerboseMove :=
  {| vm_color := c; vm_from := "x"; vm_to := target; vm_san := target;
     vm_captured := None; vm_promotion := None |}.

Definition playTo (p : Pos) (target : string) : option Pos :=
  if String.eqb target "0" then Some (p ++ [0])
  else if String.eqb target "1" then Some (p ++ [1])
  else None.

Definition engine : Engine :=
  {| Position := Pos;
     Fen := Pos;
     newChess := [];
     loadFen := fun f => f;
     fen := fun p => p;
     turn := sideToMove;
     isGameOver := fun _ => false;
     historyLength := fun p => length p;
     move := fun p _ target _ => playTo p target |}.

Definition queries : EngineQueries engine :=
  {| isCheckmate := fun _ : Position engine => false;
     isStalemate := fun _ : Position engine => false;
     isInsufficientMaterial := fun _ : Position engine => false;
     isThreefoldRepetition := fun _ : Position engine => false;
     isDraw := fun _ : Position engine => false;
     board := fun p : Position engine =>
                [repeat (Some {| pc_type := pawn; pc_color := black |})
                        (material p)];
     moves := fun p : Position engine =>
                [mv (sideToMove p) "0"; mv (sideToMove p) "1"];
     moveObject := fun (p : Position engine) m => playTo p (vm_to m);
     history := fun _ : Position engine => [] |}.

End GameTree.

(** X9 on the sample tree. After Black's move [0] and White's reply [1],
    Black's first answer is worth 600, more than the 500 that White already
    has from the reply [0]: the search cuts the second answer (worth 700) off
    and returns 600 for that reply, and still 500 for the position. *)
Lemma minimaxForBlack_computes_minimax_witness :
  plainMinimax GameTree.queries 2 [0] false = Some (Fin 500) /\
  minimaxForBlack GameTree.queries 2 [0] false NegInf PosInf = Some (Fin 500) /\
  forall alpha beta,
    slt alpha beta ->
    exists r, minimaxForBlack GameTree.queries 2 [0] false alpha beta = Some r /\
              bounds r (Fin 500) alpha beta.
Proof.
  split; [vm_compute; reflexivity|].
  apply (minimaxForBlack_computes_minimax GameTree.queries 2 [0] false (Fin 500)).
  vm_compute. reflexivity.
Defined.

Lemma GameTree_playable (p : GameTree.Pos) m :
  In m (moves GameTree.queries p) ->
  exists next, afterMove GameTree.queries p m = Some next /\
               is_Some (plainMinimax GameTree.queries 2 next false).
Proof.
  intros [<-|[<-|[]]]; eexists; (split; [reflexivity|]); eexists; reflexivity.
Qed.

(** X10 on the sample tree. At the root, level [hard] looks one ply ahead
    and plays [1] (balance 200 against 100). *)
Lemma pickAiMove_hard_takes_first_best_balance_witness :
  (forall m, In m (moves GameTree.queries ([] : GameTree.Pos)) ->
             is_Some (afterMove GameTree.queries [] m)) /\
  exists pre b post,
    [GameTree.mv black "0"; GameTree.mv black "1"] = pre ++ b :: post /\
    pickAiMove_hard GameTree.queries [] = Some (Some b) /\
    (forall m, In m pre ->
       (evalAfter GameTree.queries [] m < evalAfter GameTree.queries [] b)%Z) /\
    (forall m, In m post ->
       (evalAfter GameTree.queries [] m <= evalAfter GameTree.queries [] b)%Z).
Proof.
  assert (H : forall m, In m (moves GameTree.queries ([] : GameTree.Pos)) ->
                        is_Some (afterMove GameTree.queries [] m)).
  { intros m [<-|[<-|[]]]; eexists; reflexivity. }
  split; [exact H|].
  exact (pickAiMove_hard_takes_first_best_balance GameTree.queries [] H).
Defined.

(** X11 on the sample tree. Level [master] looks three plies ahead and
    plays [0] (value 500 against 400). *)
Lemma pickAiMove_master_takes_first_best_reply_value_witness :
  (forall m, In m (moves GameTree.queries ([] : GameTree.Pos)) ->
     exists next, afterMove GameTree.queries [] m = Some next /\
                  is_Some (plainMinimax GameTree.queries 2 next false)) /\
  exists pre b post,
    [GameTree.mv black "0"; GameTree.mv black "1"] = pre ++ b :: post /\
    pickAiMove_master GameTree.queries [] = Some (Some b) /\
    (forall m, In m pre ->
       slt (replyValue GameTree.queries [] m) (replyValue GameTree.queries [] b)) /\
    (forall m, In m post ->
       sle (replyValue GameTree.queries [] m) (replyValue GameTree.queries [] b)).
Proof.
  split; [exact (GameTree_playable [])|].
  exact (pickAiMove_master_takes_first_best_reply_value GameTree.queries []
           (GameTree_playable [])).
Defined.

(** The two levels disagree on this tree. *)
Lemma hard_and_master_choose_differently :
  pickAiMove_hard GameTree.queries [] = Some (Some (GameTree.mv black "1")) /\
  pickAiMove_master GameTree.queries [] = Some (Some (GameTree.mv black "0")) /\
  minimaxForBlack GameTree.queries 1 [0; 1] true NegInf (Fin 500) = Some (Fin 600) /\
  plainMinimax GameTree.queries 1 [0; 1] true = Some (Fin 700).
Proof. vm_compute. done. Qed.

(* ===================================================================== *)
(** ** What the operations do to a room, update by update *)
(* ===================================================================== *)

Section Updates.

Context {E : Engine} (cfg : Config).

Implicit Types (r : Room E) (s : Sys E).

(** The elementary changes that the server makes to a room, each with what
    the code has checked before it makes the change. *)
Inductive update : Room E -> Room E -> Prop :=
| up_clock r k : update r (set_clock r k)
| up_clients r cl : update r (set_clients r cl)
| up_forfeit r f : update r (set_forfeit r f)
| up_chess r p : update r (set_chess r p)
| up_decide r tag : update r (clearOffers (set_forcedResult r (Some tag)))
| up_clearOffers r : update r (clearOffers r)
| up_drawOffer r c :
    forcedResult r = None -> update r (set_drawOfferBy r (Some c))
| up_rematchOffer r c : update r (recordRematchOffer r c)
| up_reset r now : update r (resetGameForRematch cfg r now)
| up_enableAi r address lvl :
    p_white (players r) = Some address ->
    truthyAddr (p_black (players r)) && negb (isAiAddress (p_black (players r)))
      && negb (bool_decide (p_black (players r) = Some address)) = false ->
    update r (set_black
                (set_ai r {| enabled := true; level := Some lvl;
                             botAddress := Some ("ai:" +:+ levelName lvl);
                             thinking := false |})
                (Some ("ai:" +:+ levelName lvl)))
| up_join r address :
    truthyAddr (p_black (players r)) = false ->
    p_white (players r) <> Some address ->
    enabled (ai r) = false ->
    truthy address = true ->
    update r (set_black r (Some address))
| up_thinking r b : update r (set_ai r (set_thinking (ai r) b))
| up_member r address member : update r (setMember r address member)
| up_push r address username' avatar' text id now :
    update r (pushChatMessage r address username' avatar' text id now).

(** The snapshot stored under the id of the room. *)
Definition stored s : option (Snapshot E) := gameStore s !! roomId (room s).

(** [s'] comes after [s]: its room is the room of [s] after some updates, and
    the stored snapshot is the one of [s], or is gone, or was taken of the
    room on the way. *)
Definition follows s s' : Prop :=
  rtc update (room s) (room s') /\
  (stored s' = stored s \/ stored s' = None \/
   exists r' now, rtc update (room s) r' /\ stored s' = Some (toSnapshot r' now)).

Lemma update_roomId r r' : update r r' -> roomId r' = roomId r.
Proof.
  destruct 1; try done.
  unfold resetGameForRematch, startClockIfReady, stopClock.
  repeat case_match; done.
Qed.

Lemma path_roomId r r' : rtc update r r' -> roomId r' = roomId r.
Proof.
  induction 1 as [|r r1 r2 H _ IH]; [done|]. by rewrite IH, (update_roomId r r1).
Qed.

Lemma room_eta r :
  {| roomId := roomId r; chess := chess r; players := players r;
     clients := clients r; forcedResult := forcedResult r;
     drawOfferBy := drawOfferBy r; rematchOffers := rematchOffers r;
     clock := clock r; chat := chat r; ai := ai r; createdAt := createdAt r;
     forfeit := forfeit r |} = r.
Proof. by destruct r. Qed.

Lemma path_step r0 r r' : rtc update r0 r -> update r r' -> rtc update r0 r'.
Proof. intros. by eapply rtc_r. Qed.

Lemma path_decay r0 r now : rtc update r0 r -> rtc update r0 (applyClockDecay r now).
Proof.
  intros H. unfold applyClockDecay.
  destruct (negb _ || _); [done|].
  destruct (lastTickAt (clock r)) as [last|]; [|eapply path_step; [done|constructor]].
  destruct (Z.eqb last 0); [eapply path_step; [done|constructor]|].
  cbv zeta. destruct (Z.leb _ 0); [done|].
  match goal with |- context [match ?f with Some _ => _ | None => _ end] =>
    destruct f as [tag|] eqn:Hf end.
  - eapply path_step; [|apply up_decide]. eapply path_step; [done|constructor].
  - eapply path_step; [done|].
    match goal with |- update r (set_forcedResult (set_clock r ?k) None) =>
      replace (set_forcedResult (set_clock r k) None) with (set_clock r k) end;
      [constructor|].
    repeat case_match; try done.
    unfold set_forcedResult, set_clock. simpl. by f_equal.
Qed.

Lemma path_stop r0 r : rtc update r0 r -> rtc update r0 (stopClock r).
Proof. intros. eapply path_step; [done|constructor]. Qed.

Lemma path_start r0 r now : rtc update r0 r -> rtc update r0 (startClockIfReady r now).
Proof.
  intros. unfold startClockIfReady. repeat case_match;
    first [by apply path_stop | eapply path_step; [done|constructor]].
Qed.

End Updates.

Section Follows.

Context {E : Engine} (cfg : Config).

Implicit Types (r : Room E) (s : Sys E).

Lemma follows_refl s : follows cfg s s.
Proof. split; [done|by left]. Qed.

Lemma follows_trans s1 s2 s3 :
  follows cfg s1 s2 -> follows cfg s2 s3 -> follows cfg s1 s3.
Proof.
  intros [H1 S1] [H2 S2]. split; [by etrans|].
  destruct S2 as [->|[->|(r' & now & Hr' & ->)]].
  - done.
  - by right; left.
  - right; right. exists r', now. split; [by etrans|done].
Qed.

Lemma follows_same_store s s' :
  rtc (update cfg) (room s) (room s') -> gameStore s' = gameStore s ->
  follows cfg s s'.
Proof.
  intros H Hst. split; [done|]. left. unfold stored.
  by rewrite Hst, (path_roomId cfg _ _ H).
Qed.

Lemma follows_set_room s0 s r' :
  follows cfg s0 s -> rtc (update cfg) (room s) r' -> follows cfg s0 (set_room s r').
Proof.
  intros H0 H. eapply follows_trans; [exact H0|]. by apply follows_same_store.
Qed.

Lemma follows_saveRoom s0 s now : follows cfg s0 s -> follows cfg s0 (saveRoom s now).
Proof.
  intros H0. eapply follows_trans; [exact H0|]. split; [done|].
  right; right. exists (room s), now. split; [done|].
  unfold stored, saveRoom. cbn [gameStore room]. apply lookup_insert_eq.
Qed.

Lemma follows_broadcast s0 s t t' :
  follows cfg s0 s -> follows cfg s0 (broadcastRoom s t t').
Proof.
  intros H0. unfold broadcastRoom. apply follows_saveRoom, follows_set_room; [done|].
  by apply path_decay.
Qed.

Lemma follows_clearForfeitTimer s0 s :
  follows cfg s0 s -> follows cfg s0 (clearForfeitTimer s).
Proof.
  intros H0. eapply follows_trans; [exact H0|]. apply follows_same_store; [|done].
  apply rtc_once. constructor.
Qed.

Lemma follows_deleteRoom s0 s : follows cfg s0 s -> follows cfg s0 (deleteRoom s).
Proof.
  intros H0. eapply follows_trans; [exact H0|]. split; [done|].
  right; left. unfold stored, deleteRoom. cbn [gameStore room]. apply lookup_delete_eq.
Qed.

Lemma follows_maybeStartForfeitTimer s0 s c t0 t1 t2 :
  follows cfg s0 s -> follows cfg s0 (maybeStartForfeitTimer cfg s c t0 t1 t2).
Proof.
  intros H0. unfold maybeStartForfeitTimer. repeat case_match; try done.
  cbv zeta. apply follows_broadcast.
  eapply follows_trans; [apply follows_clearForfeitTimer, H0|].
  apply follows_same_store; [|done]. apply rtc_once. constructor.
Qed.

Lemma follows_forfeitTimerExpired s0 s h t t' :
  follows cfg s0 s -> follows cfg s0 (forfeitTimerExpired s h t t').
Proof.
  intros H0. unfold forfeitTimerExpired.
  destruct (List.find _ _) as [fired|]; [|done]. cbv zeta.
  match goal with |- context [isFinished (room ?x)] => set (s1 := x) end.
  assert (H1 : follows cfg s0 s1).
  { eapply follows_trans; [exact H0|]. by apply follows_same_store. }
  repeat case_match;
    try (by apply follows_broadcast, follows_clearForfeitTimer).
  apply follows_broadcast, follows_clearForfeitTimer, follows_set_room; [done|].
  eapply path_step; [|constructor]. apply rtc_once, up_decide.
Qed.

Lemma follows_maybeClearForfeitOnReconnect s0 s c t t' :
  follows cfg s0 s -> follows cfg s0 (maybeClearForfeitOnReconnect s c t t').
Proof.
  intros H0. unfold maybeClearForfeitOnReconnect. case_match; [|done].
  by apply follows_broadcast, follows_clearForfeitTimer.
Qed.

Lemma follows_attachClientToRoom s0 s ws a t t' :
  follows cfg s0 s -> follows cfg s0 (attachClientToRoom s ws a t t').
Proof.
  intros H0. unfold attachClientToRoom. cbv zeta.
  match goal with |- context [getPlayerColor (room ?x)] => set (s1 := x) end.
  assert (H1 : follows cfg s0 s1).
  { apply follows_set_room; [done|]. apply rtc_once. constructor. }
  case_match; [by apply follows_maybeClearForfeitOnReconnect|done].
Qed.

Lemma follows_finishWith s0 s tag t t' :
  follows cfg s0 s -> follows cfg s0 (finishWith s tag t t').
Proof.
  intros H0. unfold finishWith. cbv zeta.
  apply follows_broadcast, follows_clearForfeitTimer, follows_set_room; [done|].
  eapply path_step; [|constructor]. apply rtc_once, up_decide.
Qed.

Lemma follows_join_room s ws payload tm :
  follows cfg s (fst (join_room s ws payload tm)).
Proof.
  unfold join_room.
  destruct (negb _ || negb _) eqn:Hmiss; [apply follows_refl|].
  destruct (enabled (ai (room s)) && _) eqn:Hai; [apply follows_refl|].
  cbv zeta.
  match goal with |- context [p_white (players (if ?c then ?x else ?y))] =>
    set (r1 := if c then x else y) end.
  assert (H1 : rtc (update cfg) (room s) r1).
  { subst r1. destruct (negb (truthyAddr (p_black (players (room s)))) && _) eqn:Hseat;
      [|done].
    apply path_start. apply rtc_once.
    apply andb_true_iff in Hseat as [Hb Hw].
    apply negb_true_iff in Hb. apply negb_true_iff, bool_decide_eq_false in Hw.
    apply orb_false_iff in Hmiss as [Ha _]. apply negb_false_iff in Ha.
    unfold payloadAddress in *.
    destruct (pl_address payload) as [a|]; [|done]. simpl in *.
    apply up_join; try done.
    destruct (enabled (ai (room s))); [|done].
    simpl in Hai. apply negb_false_iff, bool_decide_eq_true in Hai. done. }
  clearbody r1.
  destruct (negb (bool_decide (p_white (players r1) = _)) && negb _); cbn [fst].
  - apply follows_set_room; [apply follows_refl|done].
  - apply follows_broadcast, follows_attachClientToRoom, follows_set_room;
      [apply follows_refl|done].
Qed.

Lemma follows_set_ai_level s payload tm :
  follows cfg s (fst (set_ai_level s payload tm)).
Proof.
  unfold set_ai_level.
  destruct (resolvePlayer _ _ _) as [[a color]|e] eqn:Hres; [|apply follows_refl].
  destruct (negb (bool_decide (color = white))) eqn:Hc; [apply follows_refl|].
  destruct (Nat.ltb _ _); [apply follows_refl|].
  destruct (parseLevel _) as [lvl|]; [|apply follows_refl].
  cbv zeta.
  destruct (truthyAddr _ && _ && _) eqn:Hseat; [apply follows_refl|].
  cbn [fst]. apply follows_broadcast.
  apply negb_false_iff, bool_decide_eq_true in Hc. subst color.
  apply resolvePlayer_truthy in Hres as [Ha Hcol].
  assert (Hw : p_white (players (room s)) = Some a).
  { unfold getPlayerColor in Hcol. simpl in Hcol. rewrite Ha in Hcol. simpl in Hcol.
    destruct (bool_decide_reflect (p_white (players (room s)) = Some a)); [done|].
    by destruct (bool_decide (p_black (players (room s)) = Some a)). }
  match goal with |- follows _ _ (set_room ?x _) => set (s1 := x) end.
  assert (H1 : follows cfg s s1).
  { apply follows_clearForfeitTimer, follows_set_room; [apply follows_refl|].
    apply rtc_once. by apply (up_enableAi cfg _ a). }
  apply follows_set_room; [done|]. by apply path_start.
Qed.

Lemma follows_resume_room s ws payload tm :
  follows cfg s (fst (resume_room s ws payload tm)).
Proof.
  unfold resume_room. repeat case_match; cbn [fst]; try apply follows_refl.
  apply follows_broadcast, follows_attachClientToRoom, follows_refl.
Qed.

Lemma follows_maybeRunAiTurn_begin s0 s t t' :
  follows cfg s0 s -> follows cfg s0 (fst (maybeRunAiTurn_begin s t t')).
Proof.
  intros H0. unfold maybeRunAiTurn_begin. repeat case_match; cbn [fst]; try done.
  apply follows_broadcast, follows_set_room; [done|]. apply rtc_once. constructor.
Qed.

Lemma path_moved r0 r p' :
  rtc (update cfg) r0 r -> rtc (update cfg) r0 (clearOffers (set_chess r p')).
Proof.
  intros. eapply path_step; [|apply up_clearOffers]. eapply path_step; [done|constructor].
Qed.

Lemma follows_make_move s payload tm :
  follows cfg s (fst (make_move cfg s payload tm)).
Proof.
  unfold make_move.
  destruct (resolvePlayer _ _ _) as [[a color]|e]; [|apply follows_refl].
  destruct (isFinished (room s)); [apply follows_refl|].
  destruct (negb _); [apply follows_refl|]. cbv zeta.
  set (r1 := applyClockDecay (room s) (tm 0%nat)).
  assert (Hr1 : rtc (update cfg) (room s) r1) by by apply path_decay.
  destruct (isFinished r1).
  { cbn [fst]. apply follows_broadcast, follows_set_room; [apply follows_refl|done]. }
  destruct (move E _ _ _ _) as [p'|];
    [|cbn [fst]; apply follows_set_room; [apply follows_refl|done]].
  set (s2 := clearForfeitTimer _).
  assert (H2 : follows cfg s s2).
  { apply follows_clearForfeitTimer, follows_set_room; [apply follows_refl|].
    by apply path_moved. }
  match goal with |- context [isFinished ?x] => set (r3 := x) end.
  assert (H3 : follows cfg s (set_room s2 r3)).
  { apply follows_set_room; [done|]. apply rtc_once. constructor. }
  repeat case_match; cbn [fst].
  - by apply follows_maybeRunAiTurn_begin.
  - by apply follows_maybeStartForfeitTimer.
  - by apply follows_broadcast.
  - apply follows_broadcast, follows_set_room; [done|]. apply rtc_once. constructor.
Qed.

Lemma path_aiDone r0 r : rtc (update cfg) r0 r -> rtc (update cfg) r0 (aiDone r).
Proof. intros. eapply path_step; [done|constructor]. Qed.

Lemma follows_maybeRunAiTurn_resume s picked t0 t1 t2 t3 :
  follows cfg s (fst (maybeRunAiTurn_resume s picked t0 t1 t2 t3)).
Proof.
  unfold maybeRunAiTurn_resume. cbv zeta.
  set (r1 := applyClockDecay (room s) t0).
  assert (Hr1 : rtc (update cfg) (room s) r1) by by apply path_decay.
  destruct (isFinished r1).
  { cbn [fst]. apply follows_set_room; [apply follows_refl|].
    by apply path_aiDone, path_stop. }
  destruct picked as [mv|].
  2:{ cbn [fst]. apply follows_set_room; [apply follows_refl|].
      by apply path_aiDone, path_stop. }
  destruct (move E _ _ _ _) as [p'|].
  2:{ cbn [fst]. apply follows_set_room; [apply follows_refl|]. by apply path_aiDone. }
  set (s2 := clearForfeitTimer _).
  assert (H2 : follows cfg s s2).
  { apply follows_clearForfeitTimer, follows_set_room; [apply follows_refl|].
    by apply path_moved. }
  cbn [fst]. apply follows_broadcast, follows_set_room; [done|].
  apply path_aiDone.
  case_match.
  - apply path_stop, rtc_once. constructor.
  - eapply path_step; [|constructor]. apply rtc_once. constructor.
Qed.

Lemma follows_resign s payload tm : follows cfg s (fst (resign s payload tm)).
Proof.
  unfold resign. repeat case_match; cbn [fst]; try apply follows_refl.
  apply follows_finishWith, follows_refl.
Qed.

Lemma follows_offer_draw s payload tm : follows cfg s (fst (offer_draw s payload tm)).
Proof.
  unfold offer_draw.
  destruct (resolvePlayer _ _ _) as [[a color]|e]; [|apply follows_refl].
  destruct (isFinished (room s)) eqn:Hf; [apply follows_refl|].
  repeat case_match; cbn [fst]; try apply follows_refl.
  apply follows_broadcast, follows_set_room; [apply follows_refl|].
  apply rtc_once, up_drawOffer. by apply isFinished_false in Hf as [? _].
Qed.

Lemma follows_accept_draw s payload tm : follows cfg s (fst (accept_draw s payload tm)).
Proof.
  unfold accept_draw. repeat case_match; cbn [fst]; try apply follows_refl.
  apply follows_finishWith, follows_refl.
Qed.

Lemma follows_offer_rematch s payload tm :
  follows cfg s (fst (offer_rematch cfg s payload tm)).
Proof.
  unfold offer_rematch. repeat case_match; cbn [fst]; try apply follows_refl.
  - apply follows_broadcast, follows_set_room; [apply follows_refl|].
    eapply path_step; [|apply up_reset]. apply rtc_once. constructor.
  - apply follows_broadcast, follows_set_room; [apply follows_refl|].
    apply rtc_once. constructor.
Qed.

Lemma follows_escrow_log s payload : follows cfg s (fst (escrow_log s payload)).
Proof. unfold escrow_log. case_match; apply follows_refl. Qed.

Lemma follows_enter_chat s payload tm : follows cfg s (fst (enter_chat s payload tm)).
Proof.
  unfold enter_chat. repeat case_match; cbn [fst]; try apply follows_refl.
  apply follows_broadcast, follows_set_room; [apply follows_refl|].
  apply rtc_once. constructor.
Qed.

Lemma follows_send_chat s payload uuid tm :
  follows cfg s (fst (send_chat s payload uuid tm)).
Proof.
  unfold send_chat.
  destruct (resolvePlayer _ _ _) as [[a color]|e]; [|apply follows_refl].
  cbv zeta.
  destruct (normalizeChatMember (members (chat (room s)) !! a) a) as [member|].
  - destruct (negb _ || _); cbn [fst].
    + apply follows_set_room; [apply follows_refl|done].
    + apply follows_broadcast, follows_set_room; [apply follows_refl|].
      apply rtc_once. constructor.
  - destruct (negb _ || _); cbn [fst].
    + apply follows_set_room; [apply follows_refl|]. apply rtc_once. constructor.
    + apply follows_broadcast, follows_set_room; [apply follows_refl|].
      eapply path_step; [|constructor]. apply rtc_once. constructor.
Qed.

Lemma follows_tick s tm : follows cfg s (tick s tm).
Proof.
  unfold tick. case_match; [apply follows_refl|]. apply follows_broadcast, follows_refl.
Qed.

Lemma follows_removeClient_tail s0 s tm :
  follows cfg s0 s -> follows cfg s0 (fst (removeClient_tail s tm)).
Proof.
  intros H0. unfold removeClient_tail. cbv zeta. repeat case_match; cbn [fst].
  - by apply follows_deleteRoom, follows_clearForfeitTimer.
  - by apply follows_broadcast.
  - by apply follows_broadcast.
Qed.

Lemma follows_removeClient_room s ws tm :
  follows cfg s (fst (removeClient_room cfg s ws tm)).
Proof.
  unfold removeClient_room. cbv zeta.
  match goal with |- context [getPlayerColor (room ?x)] => set (s1 := x) end.
  assert (H1 : follows cfg s s1).
  { apply follows_set_room; [apply follows_refl|]. apply rtc_once. constructor. }
  repeat case_match; cbn [fst];
    auto using follows_removeClient_tail, follows_maybeStartForfeitTimer.
Qed.

(** Every operation changes the room by a sequence of the updates above, and
    leaves in the store, under the id of the room, the snapshot that was
    there, or none, or a snapshot of the room as it was after some of these
    updates. *)
Lemma follows_step op tm s : follows cfg s (step cfg op tm s).
Proof.
  destruct op; cbn [step];
    auto using follows_join_room, follows_set_ai_level, follows_resume_room,
      follows_make_move, follows_maybeRunAiTurn_resume, follows_resign,
      follows_offer_draw, follows_accept_draw, follows_offer_rematch,
      follows_escrow_log, follows_enter_chat, follows_send_chat, follows_tick,
      follows_forfeitTimerExpired, follows_removeClient_room, follows_broadcast,
      follows_refl.
  - apply follows_set_room; [apply follows_refl|]. apply rtc_once. constructor.
  - apply follows_set_room; [apply follows_refl|]. apply rtc_once. constructor.
Qed.

End Follows.

(* ===================================================================== *)
(** ** Properties that every later state of a room keeps *)
(* ===================================================================== *)

Section Evolution.

Context {E : Engine} (cfg : Config).

Implicit Types (r : Room E) (s : Sys E).

(** The states that come after a state, by operations and by loading the
    room again from the store. *)
Inductive evolves (s0 : Sys E) : Sys E -> Prop :=
| ev_refl : evolves s0 s0
| ev_step op tm s : evolves s0 s -> evolves s0 (step cfg op tm s)
| ev_reload now uuid s : evolves s0 s -> evolves s0 (reloadRoom cfg s now uuid).

Lemma reachable_evolves s :
  reachable cfg s ->
  exists store0 ws address uuid tm,
    truthy address = true /\
    evolves (create_room_sys cfg store0 ws address uuid tm) s.
Proof.
  induction 1 as [store0 ws address uuid tm Ha
                 |op tm s _ (store0 & ws & address & uuid & tm0 & Ha & IH)
                 |now uuid s _ (store0 & ws & address & uuid0 & tm0 & Ha & IH)].
  - exists store0, ws, address, uuid, tm. split; [done|constructor].
  - exists store0, ws, address, uuid, tm0. split; [done|by constructor].
  - exists store0, ws, address, uuid0, tm0. split; [done|by constructor].
Qed.

Section Closed.

Variables (P : Room E -> Prop) (PS : Snapshot E -> Prop).

Hypothesis P_update : forall r r', update cfg r r' -> P r -> P r'.
Hypothesis P_save : forall r now, P r -> PS (toSnapshot r now).
Hypothesis P_load : forall snap now uuid, PS snap -> P (fromSnapshot cfg snap now uuid).

(** The room has the property, and so has the snapshot stored under its id,
    which carries that id. *)
Definition holds s : Prop :=
  P (room s) /\
  forall snap, stored s = Some snap -> s_id snap = roomId (room s) /\ PS snap.

Lemma P_path r r' : rtc (update cfg) r r' -> P r -> P r'.
Proof. induction 1; eauto. Qed.

Lemma holds_follows s s' : follows cfg s s' -> holds s -> holds s'.
Proof.
  intros [Hp Hst] [HP HS]. split; [by eapply P_path|].
  intros snap Hsnap. rewrite (path_roomId cfg _ _ Hp).
  destruct Hst as [Heq|[Heq|(r' & now & Hr' & Heq)]]; rewrite Heq in Hsnap.
  - by apply HS.
  - done.
  - injection Hsnap as <-. split; [apply (path_roomId cfg _ _ Hr')|].
    by eapply P_save, P_path.
Qed.

Lemma holds_reload s now uuid : holds s -> holds (reloadRoom cfg s now uuid).
Proof.
  intros [HP HS]. unfold reloadRoom. fold (stored s).
  destruct (stored s) as [snap|] eqn:Hsnap;
    [|split; [done|intros snap Hx; unfold stored in *; congruence]].
  destruct (HS snap eq_refl) as [Hid HPS].
  split; [by apply P_load|].
  intros snap'. unfold stored. cbn [room gameStore fromSnapshot roomId].
  rewrite Hid. fold (stored s). rewrite Hsnap. intros [= <-]. done.
Qed.

Lemma holds_evolves s s' : evolves s s' -> holds s -> holds s'.
Proof.
  induction 1 as [|op tm s1 _ IH|now uuid s1 _ IH]; intros H; [done| |].
  - eapply holds_follows; [apply follows_step|auto].
  - apply holds_reload. auto.
Qed.

Lemma holds_saveRoom s now : P (room s) -> holds (saveRoom s now).
Proof.
  intros HP. split; [done|]. intros snap. unfold stored, saveRoom.
  cbn [room gameStore]. rewrite lookup_insert_eq. intros [= <-]. split; [done|].
  by apply P_save.
Qed.

Lemma holds_broadcast s t t' : P (room s) -> holds (broadcastRoom s t t').
Proof.
  intros HP. unfold broadcastRoom. apply holds_saveRoom. cbn [room set_room].
  eapply P_path; [|exact HP]. by apply path_decay.
Qed.

Lemma holds_create store0 ws address uuid tm :
  P (newRoom cfg (slice 0 8 uuid) address (tm 0%nat)) ->
  holds (create_room_sys cfg store0 ws address uuid tm).
Proof.
  intros HP. unfold create_room_sys. cbv zeta.
  eapply holds_follows;
    [apply follows_broadcast, follows_attachClientToRoom, follows_refl|].
  by apply holds_saveRoom.
Qed.

End Closed.

End Evolution.

Section Kept.

Context {E : Engine} (cfg : Config).

Implicit Types (r : Room E) (s : Sys E).

Lemma normalizeChatState_length (chat0 : option ChatState) now uuid :
  length (messages (normalizeChatState chat0 now uuid))
  <= length (messages (default createChatState chat0)).
Proof.
  unfold normalizeChatState. cbv zeta. cbn [messages].
  etrans; [apply filter_length_le|]. by rewrite length_imap.
Qed.

Lemma resetGameForRematch_frame r now :
  roomId (resetGameForRematch cfg r now) = roomId r /\
  chat (resetGameForRematch cfg r now) = chat r /\
  ai (resetGameForRematch cfg r now) = ai r /\
  forcedResult (resetGameForRematch cfg r now) = None /\
  p_white (players (resetGameForRematch cfg r now)) = p_white (players r) /\
  p_black (players (resetGameForRematch cfg r now))
  = (if enabled (ai r) && truthyAddr (botAddress (ai r)) then botAddress (ai r)
     else p_black (players r)).
Proof.
  unfold resetGameForRematch, startClockIfReady, stopClock. cbv zeta.
  cbn [ai clearOffers set_forcedResult set_chess].
  destruct (enabled (ai r) && truthyAddr (botAddress (ai r))); repeat case_match; done.
Qed.

(** *** The chat log *)

Definition chatBounded r : Prop := length (messages (chat r)) <= MAX_CHAT_MESSAGES.

Definition chatBoundedS (snap : Snapshot E) : Prop :=
  length (messages (default createChatState (s_chat snap))) <= MAX_CHAT_MESSAGES.

Lemma chatBounded_update r r' : update cfg r r' -> chatBounded r -> chatBounded r'.
Proof.
  unfold chatBounded. destruct 1; try done.
  - by destruct (resetGameForRematch_frame r now) as (_ & -> & _).
  - intros _.
    destruct (pushChatMessage_spec r address username' avatar' text id now)
      as (k & _ & _ & -> & _). apply Nat.le_min_r.
Qed.

(** X12. The chat log of a room never holds more than a hundred messages,
    whatever was sent and however often the room was stored and loaded. *)
Theorem chat_log_never_exceeds_hundred s :
  reachable cfg s -> length (messages (chat (room s))) <= MAX_CHAT_MESSAGES.
Proof.
  intros (store0 & ws & address & uuid & tm & _ & Hev)%reachable_evolves.
  refine (proj1 (holds_evolves cfg chatBounded chatBoundedS
                   chatBounded_update _ _ _ _ Hev _)).
  - intros r now. done.
  - intros snap now uuid'. unfold chatBounded, chatBoundedS.
    cbn [fromSnapshot chat]. intros H.
    etrans; [apply normalizeChatState_length|done].
  - apply holds_create; [apply chatBounded_update|done|].
    unfold chatBounded, MAX_CHAT_MESSAGES. simpl. lia.
Qed.

(** *** A decided game has no draw offer *)

Definition noOfferOnceDecided r : Prop :=
  is_Some (forcedResult r) -> drawOfferBy r = None.

Definition noOfferOnceDecidedS (snap : Snapshot E) : Prop :=
  is_Some (s_forcedResult snap) -> s_drawOfferBy snap = None.

Lemma noOfferOnceDecided_update r r' :
  update cfg r r' -> noOfferOnceDecided r -> noOfferOnceDecided r'.
Proof.
  unfold noOfferOnceDecided. destruct 1; try done.
  - intros _ [x Hx]. simpl in Hx. congruence.
  - destruct (resetGameForRematch_frame r now) as (_ & _ & _ & -> & _).
    intros _ [x Hx]. done.
Qed.

(** X13. In no state of a room is a draw offer pending once the result was
    forced (resignation, agreed draw, time-out or forfeit): the view sent to
    the clients never shows both. *)
Theorem no_draw_offer_once_result_forced s :
  reachable cfg s -> is_Some (forcedResult (room s)) -> drawOfferBy (room s) = None.
Proof.
  intros (store0 & ws & address & uuid & tm & _ & Hev)%reachable_evolves.
  refine (proj1 (holds_evolves cfg noOfferOnceDecided noOfferOnceDecidedS
                   noOfferOnceDecided_update _ _ _ _ Hev _)).
  - intros r now. done.
  - intros snap now uuid'. done.
  - apply holds_create; [apply noOfferOnceDecided_update|done|].
    intros [x Hx]. done.
Qed.

(** *** The identity of a room *)

Definition identity (id w : string) r : Prop :=
  roomId r = id /\ p_white (players r) = Some w.

Definition identityS (id w : string) (snap : Snapshot E) : Prop :=
  s_id snap = id /\ p_white (s_players snap) = Some w.

Lemma identity_update id w r r' :
  update cfg r r' -> identity id w r -> identity id w r'.
Proof.
  unfold identity. destruct 1; try done.
  by destruct (resetGameForRematch_frame r now) as (-> & _ & _ & _ & -> & _).
Qed.

(** X14. A room keeps the id it was created with, and its creator keeps the white
    seat, through every operation and every reload from the store. *)
Theorem room_keeps_id_and_white_seat store0 ws address uuid tm s :
  evolves cfg (create_room_sys cfg store0 ws address uuid tm) s ->
  roomId (room s) = slice 0 8 uuid /\ p_white (players (room s)) = Some address.
Proof.
  intros Hev.
  refine (proj1 (holds_evolves cfg (identity (slice 0 8 uuid) address)
                   (identityS (slice 0 8 uuid) address)
                   (identity_update _ _) _ _ _ _ Hev _)).
  - intros r now. done.
  - intros snap now uuid'. done.
  - apply holds_create; [apply identity_update|done|done].
Qed.

(** *** The bot of an AI room *)

Definition botSeated (a : AiState) (p : Players) : Prop :=
  enabled a = true ->
  exists lvl,
    level a = Some lvl /\
    botAddress a = Some ("ai:" +:+ levelName lvl) /\
    p_black p = botAddress a.

Definition aiSeated r : Prop := botSeated (ai r) (players r).

Definition aiSeatedS (snap : Snapshot E) : Prop :=
  botSeated (default createAiState (s_ai snap)) (s_players snap).

Lemma aiSeated_update r r' : update cfg r r' -> aiSeated r -> aiSeated r'.
Proof.
  unfold aiSeated, botSeated. destruct 1; try done.
  - destruct (resetGameForRematch_frame r now) as (_ & _ & -> & _ & _ & ->).
    intros H Hen. destruct (H Hen) as (lvl & Hlvl & Hbot & Hb). rewrite Hen, Hbot.
    exists lvl. split_and!; [done|done|]. by destruct lvl.
  - intros _ _. simpl. eauto.
  - simpl. intros _ Hen. congruence.
Qed.

Lemma isAiAddress_bot lvl : isAiAddress (Some ("ai:" +:+ levelName lvl)) = true.
Proof. by destruct lvl. Qed.

(** X15. In every state of an AI room, the level of the room is one of the
    four levels, the bot address of the room is "ai:" followed by the name
    of that level, the black seat holds exactly that address, and Black
    counts as online. (Which sockets are attached under that address is not
    part of the statement: [resume_room] attaches any socket that sends
    it.) *)
Theorem ai_room_black_seat_is_the_bot s :
  reachable cfg s -> enabled (ai (room s)) = true ->
  (exists lvl,
     level (ai (room s)) = Some lvl /\
     botAddress (ai (room s)) = Some ("ai:" +:+ levelName lvl) /\
     p_black (players (room s)) = Some ("ai:" +:+ levelName lvl)) /\
  p_black (players (room s)) = botAddress (ai (room s)) /\
  isAiAddress (p_black (players (room s))) = true /\
  isPlayerOnline (room s) black = true.
Proof.
  intros (store0 & ws & address & uuid & tm & _ & Hev)%reachable_evolves Hen.
  assert (H : aiSeated (room s)).
  { refine (proj1 (holds_evolves cfg aiSeated aiSeatedS aiSeated_update _ _ _ _ Hev _)).
    - intros r now. done.
    - intros snap now uuid'. done.
    - apply holds_create; [apply aiSeated_update|done|]. intros Hen'. done. }
  destruct (H Hen) as (lvl & Hlvl & Hbot & Hb).
  assert (Hai : isAiAddress (p_black (players (room s))) = true)
    by (rewrite Hb, Hbot; apply isAiAddress_bot).
  split_and!; try done.
  - exists lvl. split_and!; [done|done|by rewrite Hb].
  - unfold isPlayerOnline. cbn [seat]. by rewrite Hai.
Qed.

(** *** The seat of a human opponent *)

Section HumanSeat.

Variable b : string.
Hypothesis b_truthy : truthy b = true.
Hypothesis b_human : isAiAddress (Some b) = false.

Definition seated (a : AiState) (p : Players) : Prop :=
  p_black p = Some b /\ p_white p <> Some b /\ enabled a = false.

Definition humanSeated r : Prop := seated (ai r) (players r).

Definition humanSeatedS (snap : Snapshot E) : Prop :=
  seated (default createAiState (s_ai snap)) (s_players snap).

Lemma humanSeated_update r r' : update cfg r r' -> humanSeated r -> humanSeated r'.
Proof.
  unfold humanSeated, seated. destruct 1; try done.
  - destruct (resetGameForRematch_frame r now) as (_ & _ & -> & _ & -> & ->).
    intros (Hb & Hw & Hen). by rewrite Hen.
  - intros (Hb & Hw & Hen). exfalso.
    rewrite Hb in H0. cbn [truthyAddr] in H0. rewrite b_truthy, b_human in H0.
    cbn [negb andb] in H0. apply negb_false_iff, bool_decide_eq_true in H0.
    congruence.
  - intros (Hb & Hw & Hen). exfalso.
    rewrite Hb in H. cbn [truthyAddr] in H. congruence.
Qed.

Lemma humanSeated_evolves s s' :
  evolves cfg s s' -> holds humanSeated humanSeatedS s -> humanSeated (room s').
Proof.
  intros Hev H.
  refine (proj1 (holds_evolves cfg humanSeated humanSeatedS
                   humanSeated_update _ _ _ _ Hev H)).
  - intros r now. done.
  - intros snap now uuid'. done.
Qed.

End HumanSeat.

(** X16. Once a human opponent has joined, the black seat is theirs for good: no
    later operation or reload gives the seat to another address, and the
    room can no longer be turned into an AI room. *)
Theorem joined_opponent_keeps_black_seat s ws payload tm b s' :
  payloadAddress payload = Some b ->
  isAiAddress (Some b) = false ->
  p_white (players (room s)) <> Some b ->
  snd (join_room s ws payload tm) = Done ->
  evolves cfg (fst (join_room s ws payload tm)) s' ->
  p_black (players (room s')) = Some b /\ enabled (ai (room s')) = false.
Proof.
  intros Hb Hhuman Hw Hdone Hev.
  assert (Hjoin : truthy b = true /\
                  holds (humanSeated b) (humanSeatedS b) (fst (join_room s ws payload tm))).
  { revert Hdone. unfold join_room. rewrite Hb. cbn [truthyAddr].
    destruct (truthy b) eqn:Htb; [|done]. cbn [negb orb].
    destruct (negb (truthyAddr (pl_roomId payload))); [done|].
    destruct (enabled (ai (room s))) eqn:Hen; cbn [andb].
    { rewrite bool_decide_eq_false_2 by done. done. }
    cbv zeta.
    match goal with |- context [p_white (players (if ?c then ?x else ?y))] =>
      set (r1 := if c then x else y) end.
    assert (Hr1 : rtc (update cfg) (room s) r1 /\ p_white (players r1) <> Some b /\
                  enabled (ai r1) = false /\
                  (p_black (players r1) = Some b \/
                   p_black (players r1) = p_black (players (room s)))).
    { subst r1.
      destruct (negb (truthyAddr (p_black (players (room s)))) && _) eqn:Hseat;
        [|split_and!; [done|done|done|by right]].
      apply andb_true_iff in Hseat as [Hempty _]. apply negb_true_iff in Hempty.
      split; [apply path_start, rtc_once; by constructor|].
      unfold startClockIfReady, stopClock. repeat case_match; auto. }
    clearbody r1. destruct Hr1 as (Hp & Hw1 & Hen1 & Hb1).
    rewrite (bool_decide_eq_false_2 (p_white (players r1) = Some b)) by done.
    cbn [negb andb].
    destruct (bool_decide_reflect (p_black (players r1) = Some b)) as [Hseat|];
      [|done].
    cbn [negb fst snd]. intros _. split; [done|].
    apply (holds_broadcast cfg (humanSeated b) (humanSeatedS b));
      [by apply humanSeated_update|done|].
    match goal with |- humanSeated _ (room ?x) =>
      assert (Hf : follows cfg (set_room s r1) x)
        by apply follows_attachClientToRoom, follows_refl
    end.
    eapply (P_path cfg (humanSeated b)); [by apply humanSeated_update|apply Hf|].
    done. }
  destruct Hjoin as [Htb Hholds].
  destruct (humanSeated_evolves b Htb Hhuman _ _ Hev Hholds) as (H1 & _ & H2).
  done.
Qed.

End Kept.

(* ===================================================================== *)
(** ** Joining, resuming, and the AI opponent *)
(* ===================================================================== *)

Section Seats.

Context {E : Engine} (cfg : Config).

Implicit Types (r : Room E) (s : Sys E).

(** The socket as the room holds it once attached. *)
Definition attached (ws : Client) (address : option string) (id : string) : Client :=
  {| connId := connId ws; readyState := readyState ws;
     playerAddress := address; ws_roomId := Some id |}.

Lemma sys_eta s : set_room s (room s) = s.
Proof. by destruct s. Qed.

Lemma broadcastRoom_frame s t t' :
  let r' := room (broadcastRoom s t t') in
  roomId r' = roomId (room s) /\ chess r' = chess (room s) /\
  players r' = players (room s) /\ clients r' = clients (room s) /\
  chat r' = chat (room s) /\ ai r' = ai (room s) /\
  forfeit r' = forfeit (room s).
Proof.
  cbv zeta. rewrite broadcastRoom_room.
  destruct (applyClockDecay_frame (room s) t) as (?&?&?&?&?&?&?&?&?). done.
Qed.

Lemma attachClientToRoom_frame s ws a t t' :
  let r' := room (attachClientToRoom s ws a t t') in
  roomId r' = roomId (room s) /\ chess r' = chess (room s) /\
  players r' = players (room s) /\
  clients r' = addClient (clients (room s)) (attached ws (Some a) (roomId (room s))) /\
  chat r' = chat (room s) /\ ai r' = ai (room s).
Proof.
  cbv zeta. unfold attachClientToRoom. cbv zeta.
  case_match; [|done].
  unfold maybeClearForfeitOnReconnect. case_match; [|done].
  match goal with |- context [broadcastRoom ?x t t'] =>
    destruct (broadcastRoom_frame x t t') as (->&->&->&->&->&->&_) end.
  done.
Qed.

Lemma isPlayerOnline_ext r r' c :
  players r' = players r -> clients r' = clients r ->
  isPlayerOnline r' c = isPlayerOnline r c.
Proof. unfold isPlayerOnline, getConnectedCount. by intros -> ->. Qed.

(** After attaching and broadcasting: the seats are as before, the socket is
    among the clients of the room under the given address, and if it is
    open and the address holds a seat, that seat is online. *)
Lemma attach_then_broadcast s ws a t1 t2 t3 t4 :
  let r' := room (broadcastRoom (attachClientToRoom s ws a t1 t2) t3 t4) in
  players r' = players (room s) /\ ai r' = ai (room s) /\
  chess r' = chess (room s) /\ chat r' = chat (room s) /\
  In (attached ws (Some a) (roomId (room s))) (clients r') /\
  (forall c, getPlayerColor (room s) (Some a) = Some c -> readyState ws = 1 ->
             isPlayerOnline r' c = true).
Proof.
  cbv zeta.
  destruct (broadcastRoom_frame (attachClientToRoom s ws a t1 t2) t3 t4)
    as (Hid & Hch & Hpl & Hcl & Hchat & Hai & _).
  destruct (attachClientToRoom_frame s ws a t1 t2)
    as (Hid' & Hch' & Hpl' & Hcl' & Hchat' & Hai').
  split_and!; try congruence.
  - rewrite Hcl, Hcl'. apply addClient_In.
  - intros c Hc Hopen.
    rewrite <- (attach_makes_online (room s) ws a c Hc Hopen).
    apply isPlayerOnline_ext; [by rewrite Hpl, Hpl'|by rewrite Hcl, Hcl'].
Qed.

(** X17. [join_room] is accepted when address and room id are given, the room is
    not an AI room of somebody else, and the address holds a seat or the
    black seat is free. The black seat is taken exactly when it was free and
    the address is not White's; the white seat never changes; the socket is
    then among the clients of the room. A refused join leaves the room as it
    was. *)
Theorem join_room_takes_free_black_seat s ws payload tm :
  let address := payloadAddress payload in
  let r := room s in
  let s' := fst (join_room s ws payload tm) in
  let takes := negb (truthyAddr (p_black (players r)))
               && negb (bool_decide (p_white (players r) = address)) in
  (snd (join_room s ws payload tm) = Done <->
   truthyAddr address = true /\ truthyAddr (pl_roomId payload) = true /\
   (enabled (ai r) = true -> p_white (players r) = address) /\
   (p_white (players r) = address \/ p_black (players r) = address \/
    truthyAddr (p_black (players r)) = false)) /\
  (snd (join_room s ws payload tm) <> Done -> s' = s) /\
  (snd (join_room s ws payload tm) = Done ->
   p_white (players (room s')) = p_white (players r) /\
   p_black (players (room s')) = (if takes then address else p_black (players r)) /\
   In (attached ws address (roomId r)) (clients (room s'))).
Proof.
  cbv zeta. unfold join_room.
  destruct (payloadAddress payload) as [a|] eqn:Ha; cbn [truthyAddr negb orb];
    [|split_and!; [split; [done|by intros [? _]]|done|done]].
  destruct (truthy a) eqn:Hta; cbn [negb orb];
    [|split_and!; [split; [done|by intros [? _]]|done|done]].
  destruct (truthyAddr (pl_roomId payload)) eqn:Hid; cbn [negb];
    [|split_and!; [split; [done|by intros (_ & ? & _)]|done|done]].
  destruct (enabled (ai (room s))
            && negb (bool_decide (p_white (players (room s)) = Some a))) eqn:Hpriv.
  { apply andb_true_iff in Hpriv as [Hen Hw].
    apply negb_true_iff, bool_decide_eq_false in Hw.
    split_and!; [split; [done|]|done|done]. intros (_ & _ & H & _). by destruct Hw, H. }
  cbv zeta.
  set (takes := negb (truthyAddr (p_black (players (room s))))
                && negb (bool_decide (p_white (players (room s)) = Some a))).
  set (r1 := if takes then _ else room s).
  assert (Hr1 : roomId r1 = roomId (room s) /\
                p_white (players r1) = p_white (players (room s)) /\
                p_black (players r1)
                = (if takes then Some a else p_black (players (room s))) /\
                (takes = false -> r1 = room s)).
  { subst r1. destruct takes; [|done].
    destruct (startClockIfReady_frame (set_black (room s) (Some a)) (tm 0%nat))
      as (-> & _ & -> & _). done. }
  clearbody r1. destruct Hr1 as (Hi1 & Hw1 & Hb1 & Hsame).
  rewrite Hw1, Hb1. change (default "" (Some a)) with a.
  destruct (attach_then_broadcast (set_room s r1) ws a
              (tm 1%nat) (tm 2%nat) (tm 3%nat) (tm 4%nat))
    as (Hpl & _ & _ & _ & Hin & _).
  cbn [room set_room] in Hpl, Hin. rewrite Hi1 in Hin.
  destruct (bool_decide_reflect (p_white (players (room s)) = Some a)) as [Hw|Hw];
    cbn [negb andb fst snd].
  { rewrite Hpl, Hw1, Hb1.
    split_and!; [split; [intros _; split_and!; auto|done]|done|done]. }
  destruct (bool_decide_reflect
              ((if takes then Some a else p_black (players (room s))) = Some a))
    as [Hb|Hb]; cbn [negb andb fst snd].
  { rewrite Hpl, Hw1, Hb1.
    split_and!; [split; [intros _; split_and!|done]|done|done].
    - done.
    - done.
    - intros Hen. rewrite Hen in Hpriv. done.
    - subst takes. destruct (truthyAddr (p_black (players (room s)))); auto. }
  assert (Htakes : takes = false) by (by destruct takes).
  rewrite Htakes in Hb.
  split_and!; [split; [done|]|intros _; rewrite Hsame by done; apply sys_eta|done].
  intros (_ & _ & _ & [?|[?|Hfree]]); try done.
  subst takes. rewrite Hfree in Htakes. done.
Qed.

(** X18. [resume_room] attaches a socket only under the address of one of the two
    seats; the seats and the position are as before, and with an open socket
    the seat is online again. Any other address is refused and nothing
    changes. *)
Theorem resume_room_only_for_seated_address s ws payload tm :
  let address := payloadAddress payload in
  let r := room s in
  let s' := fst (resume_room s ws payload tm) in
  (snd (resume_room s ws payload tm) = Done <->
   truthyAddr address = true /\ truthyAddr (pl_roomId payload) = true /\
   (p_white (players r) = address \/ p_black (players r) = address)) /\
  (snd (resume_room s ws payload tm) <> Done -> s' = s) /\
  (snd (resume_room s ws payload tm) = Done ->
   players (room s') = players r /\ chess (room s') = chess r /\
   In (attached ws address (roomId r)) (clients (room s')) /\
   exists c, getPlayerColor r address = Some c /\
             (readyState ws = 1 -> isPlayerOnline (room s') c = true)).
Proof.
  cbv zeta. unfold resume_room.
  destruct (payloadAddress payload) as [a|] eqn:Ha; cbn [truthyAddr negb orb];
    [|split_and!; [split; [done|by intros [? _]]|done|done]].
  destruct (truthy a) eqn:Hta; cbn [negb orb];
    [|split_and!; [split; [done|by intros [? _]]|done|done]].
  destruct (truthyAddr (pl_roomId payload)) eqn:Hid; cbn [negb];
    [|split_and!; [split; [done|by intros (_ & ? & _)]|done|done]].
  destruct (attach_then_broadcast s ws a (tm 0%nat) (tm 1%nat) (tm 2%nat) (tm 3%nat))
    as (Hpl & _ & Hch & _ & Hin & Hon).
  change (default "" (Some a)) with a.
  assert (Hcol : getPlayerColor (room s) (Some a)
                 = if bool_decide (p_white (players (room s)) = Some a) then Some white
                   else if bool_decide (p_black (players (room s)) = Some a)
                        then Some black else None).
  { unfold getPlayerColor. cbn [truthyAddr]. by rewrite Hta. }
  destruct (bool_decide_reflect (p_white (players (room s)) = Some a)) as [Hw|Hw];
    cbn [negb andb fst snd].
  { split_and!; [split; [intros _; split_and!; auto|done]|done|].
    intros _. split_and!; try done. exists white. split; [done|].
    by apply Hon. }
  destruct (bool_decide_reflect (p_black (players (room s)) = Some a)) as [Hb|Hb];
    cbn [negb andb fst snd].
  { split_and!; [split; [intros _; split_and!; auto|done]|done|].
    intros _. split_and!; try done. exists black. split; [done|].
    by apply Hon. }
  split_and!; [split; [done|]|done|done].
  intros (_ & _ & [?|?]); done.
Qed.

(** X19. [set_ai_level] is accepted exactly when it comes from White, the
    move history of the engine object of the room is empty, the level is one
    of the four level names (in any letter case), and no human other than
    White holds the black seat. The history is that of the object: with
    chess.js a room rebuilt by [fromSnapshot] starts from its FEN with an
    empty history, so the command is accepted there whatever was played
    before the room was stored. The room is then an AI room of that level: the bot sits at Black
    and counts as online, no forfeit is pending, White and the position are
    as before. A refused command changes nothing. *)
Theorem set_ai_level_seats_the_bot s payload tm :
  let r := room s in
  let s' := fst (set_ai_level s payload tm) in
  let asked := parseLevel (toLowerCase (orElse (pl_level payload) "")) in
  (snd (set_ai_level s payload tm) = Done <->
   exists address lvl,
     resolvePlayer r payload "ai setup" = inl (address, white) /\
     historyLength E (chess r) = 0 /\
     asked = Some lvl /\
     truthyAddr (p_black (players r)) && negb (isAiAddress (p_black (players r)))
       && negb (bool_decide (p_black (players r) = Some address)) = false) /\
  (snd (set_ai_level s payload tm) <> Done -> s' = s) /\
  (forall lvl,
     asked = Some lvl -> snd (set_ai_level s payload tm) = Done ->
     ai (room s') = {| enabled := true; level := Some lvl;
                       botAddress := Some ("ai:" +:+ levelName lvl);
                       thinking := false |} /\
     p_black (players (room s')) = Some ("ai:" +:+ levelName lvl) /\
     p_white (players (room s')) = p_white (players r) /\
     isPlayerOnline (room s') black = true /\
     forfeit (room s') = noForfeit /\
     chess (room s') = chess r).
Proof.
  cbv zeta. unfold set_ai_level.
  destruct (resolvePlayer _ _ _) as [[a color]|e] eqn:Hres.
  2:{ split_and!; [split; [done|by intros (?&?&?&_)]|done|done]. }
  destruct (bool_decide_reflect (color = white)) as [->|Hc]; cbn [negb].
  2:{ split_and!; [split; [done|]|done|done]. intros (?&?&[= ? ?]&_). done. }
  destruct (Nat.ltb_spec 0 (historyLength E (chess (room s)))) as [Hh|Hh].
  { split_and!; [split; [done|]|done|done]. intros (?&?&_&?&_). lia. }
  destruct (parseLevel _) as [lvl|] eqn:Hlvl.
  2:{ split_and!; [split; [done|by intros (?&?&_&_&?&_)]|done|done]. }
  cbv zeta.
  destruct (truthyAddr _ && _ && _) eqn:Hseat.
  { split_and!; [split; [done|]|done|done].
    intros (a' & ? & [= <-] & _ & _ & H). congruence. }
  cbn [fst snd].
  split_and!; [split; [intros _; exists a, lvl; split_and!; (done || lia)|done]|done|].
  intros lvl' [= <-] _.
  match goal with |- context [broadcastRoom ?x (tm 1%nat) (tm 2%nat)] =>
    destruct (broadcastRoom_frame x (tm 1%nat) (tm 2%nat))
      as (_ & Hch & Hpl & Hcl & _ & Hai & Hff)
  end.
  unfold isPlayerOnline. rewrite Hai, Hpl, Hff, Hch. cbn [room set_room].
  match goal with |- context [startClockIfReady ?x ?t] =>
    destruct (startClockIfReady_frame x t) as (_ & Hch1 & Hpl1 & _ & _ & _ & Hff1 & _);
    assert (Hai1 : ai (startClockIfReady x t) = ai x)
      by (unfold startClockIfReady, stopClock; repeat case_match; done)
  end.
  rewrite Hai1, Hpl1, Hff1, Hch1. cbn.
  split_and!; try done. by destruct lvl.
Qed.

(** X20. The first half of an AI turn starts exactly in an unfinished AI room
    with Black to move and no turn under way, and marks the turn as under
    way. The second half always ends with the mark removed, whether the
    clock ran out, no move was found, the move was refused or it was played;
    the position is the old one or the one after the picked move, promoting
    to a queen unless the move says otherwise, and a played move clears the
    draw and rematch offers. *)
Theorem ai_turn_marks_and_always_unmarks s picked t0 t1 t2 t3 :
  let r := room s in
  (snd (maybeRunAiTurn_begin s t0 t1) = true <->
   enabled (ai r) = true /\ isFinished r = false /\
   currentTurnColor r = black /\ thinking (ai r) = false) /\
  (snd (maybeRunAiTurn_begin s t0 t1) = true ->
   thinking (ai (room (fst (maybeRunAiTurn_begin s t0 t1)))) = true) /\
  (snd (maybeRunAiTurn_begin s t0 t1) = false ->
   fst (maybeRunAiTurn_begin s t0 t1) = s) /\
  let s' := fst (maybeRunAiTurn_resume s picked t0 t1 t2 t3) in
  thinking (ai (room s')) = false /\
  enabled (ai (room s')) = enabled (ai r) /\
  level (ai (room s')) = level (ai r) /\
  (chess (room s') = chess r \/
   exists mv,
     picked = Some mv /\
     move E (chess r) (am_from mv) (am_to mv) (default promo_q (am_promotion mv))
     = Some (chess (room s')) /\
     drawOfferBy (room s') = None /\ rematchOffers (room s') = ∅ /\
     snd (maybeRunAiTurn_resume s picked t0 t1 t2 t3) = Done).
Proof.
  cbv zeta. split_and!.
  - unfold maybeRunAiTurn_begin.
    destruct (enabled (ai (room s))); cbn [negb];
      [|split; [done|by intros [? _]]].
    destruct (isFinished (room s)); [split; [done|by intros (_&?&_)]|].
    destruct (bool_decide_reflect (currentTurnColor (room s) = black)) as [Hc|Hc];
      cbn [negb]; [|split; [done|by intros (_&_&?&_)]].
    destruct (thinking (ai (room s))); [split; [done|by intros (_&_&_&?)]|].
    done.
  - unfold maybeRunAiTurn_begin. repeat case_match; try done. intros _.
    cbn [fst].
    match goal with |- context [broadcastRoom ?x t0 t1] =>
      destruct (broadcastRoom_frame x t0 t1) as (_&_&_&_&_&->&_) end.
    done.
  - unfold maybeRunAiTurn_begin. repeat case_match; done.
  - unfold maybeRunAiTurn_resume. cbv zeta. repeat case_match; cbn [fst]; try done.
    match goal with |- context [broadcastRoom ?x t2 t3] =>
      destruct (broadcastRoom_frame x t2 t3) as (_&_&_&_&_&->&_) end.
    done.
  - unfold maybeRunAiTurn_resume. cbv zeta.
    destruct (applyClockDecay_frame (room s) t0) as (_&_&_&_&_&Hai&_).
    repeat case_match; cbn [fst]; try (by rewrite <- Hai).
    match goal with |- context [broadcastRoom ?x t2 t3] =>
      destruct (broadcastRoom_frame x t2 t3) as (_&_&_&_&_&->&_) end.
    cbn. by rewrite <- Hai.
  - unfold maybeRunAiTurn_resume. cbv zeta.
    destruct (applyClockDecay_frame (room s) t0) as (_&_&_&_&_&Hai&_).
    repeat case_match; cbn [fst]; try (by rewrite <- Hai).
    match goal with |- context [broadcastRoom ?x t2 t3] =>
      destruct (broadcastRoom_frame x t2 t3) as (_&_&_&_&_&->&_) end.
    cbn. by rewrite <- Hai.
  - unfold maybeRunAiTurn_resume. cbv zeta.
    pose proof (applyClockDecay_chess (room s) t0) as Hch0.
    destruct (isFinished (applyClockDecay (room s) t0)); [by left|].
    destruct picked as [mv|]; [|by left].
    destruct (move E _ _ _ _) as [p'|] eqn:Hmove; [|by left].
    right. exists mv. rewrite Hch0 in Hmove. cbn [fst snd].
    match goal with |- context [broadcastRoom ?x t2 t3] =>
      destruct (broadcastRoom_frame x t2 t3) as (_&Hch&_);
      pose proof (broadcastRoom_room x t2 t3) as Hroom;
      set (s2 := broadcastRoom x t2 t3) in *
    end.
    rewrite Hch. split_and!; try done.
    + rewrite Hmove. f_equal. by case_match.
    + rewrite Hroom.
      match goal with |- drawOfferBy (applyClockDecay ?x t2) = _ =>
        destruct (applyClockDecay_offers x t2) as [[-> _]|[-> _]]; [|done] end.
      by case_match.
    + rewrite Hroom.
      match goal with |- rematchOffers (applyClockDecay ?x t2) = _ =>
        destruct (applyClockDecay_offers x t2) as [[_ ->]|[_ ->]]; [|done] end.
      by case_match.
Qed.

End Seats.

(* ===================================================================== *)
(** ** The result and the view sent to the clients *)
(* ===================================================================== *)

Section ViewFacts.

Context {E : Engine} (Q : EngineQueries E).

Implicit Types (r : Room E).

Lemma imap_lookup_ply {A B} (f : nat -> A -> B) (l : list A) i b :
  imap f l !! i = Some b -> exists a, l !! i = Some a /\ b = f i a.
Proof.
  rewrite list_lookup_imap. destruct (l !! i) as [a|]; [|done].
  intros [= <-]. eauto.
Qed.

(** X21. The view says [finished] exactly when it carries a result; a forced
    result takes precedence over the verdict of the board; the move history
    lists the moves of the engine in order, numbered from 1. *)
Theorem game_view_finished_iff_it_has_a_result r :
  let view := serializeGame Q r in
  (gv_finished view = true <-> is_Some (gv_result view)) /\
  (forall tag, forcedResult r = Some tag -> gv_result view = Some (Forced tag)) /\
  (forcedResult r = None -> forall tag, gv_result view <> Some (Forced tag)) /\
  length (gv_moveHistory view) = length (history Q (chess r)) /\
  (forall i mv, gv_moveHistory view !! i = Some mv ->
     mv_ply mv = i + 1 /\
     exists m, history Q (chess r) !! i = Some m /\
               mv_from mv = vm_from m /\ mv_to mv = vm_to m /\
               mv_san mv = vm_san m /\ mv_color mv = vm_color m).
Proof.
  cbv zeta. unfold serializeGame. cbv zeta.
  cbn [gv_finished gv_result gv_moveHistory].
  unfold getGameResult, isFinished. split_and!.
  - destruct (forcedResult r) as [tag|].
    + rewrite bool_decide_eq_true_2 by eauto. cbn. split; eauto.
    + rewrite bool_decide_eq_false_2 by (by intros [? ?]). cbn [orb].
      destruct (isGameOver E (chess r)); cbn [negb].
      * split; [intros _|done]. repeat case_match; eauto.
      * split; [done|by intros [? ?]].
  - by intros tag ->.
  - intros -> tag.
    destruct (isGameOver E (chess r)); cbn [negb]; repeat case_match; done.
  - by rewrite length_imap.
  - intros i mv Hmv. apply imap_lookup_ply in Hmv as (m & Hm & ->).
    cbn. split; [done|]. by exists m.
Qed.

End ViewFacts.

(* ===================================================================== *)
(** ** The registry of live rooms *)
(* ===================================================================== *)

Section Registry.

Context {E : Engine} (cfg : Config).

Implicit Types (w : World E).

(** X22. [loadRoom] returns the live room when there is one and does not read the
    store; else it rebuilds the room from the stored snapshot, without
    clients or timers, registers it, and a second load returns that same
    room without rebuilding it; with neither it returns nothing. Other ids
    and the store are not touched. *)
Theorem loadRoom_prefers_live_room_then_store w id now uuid :
  (forall snap, store w !! id = Some snap -> s_id snap = id) ->
  let res := loadRoom cfg w id now uuid in
  store (snd res) = store w /\
  (forall other, other <> id ->
     activeRooms (snd res) !! other = activeRooms w !! other) /\
  activeRooms (snd res) !! id = fst res /\
  (forall now' uuid', loadRoom cfg (snd res) id now' uuid' = res) /\
  match activeRooms w !! id, store w !! id with
  | Some l, _ => res = (Some l, w)
  | None, None => res = (None, w)
  | None, Some snap =>
      fst res = Some {| live_room := fromSnapshot cfg snap now uuid;
                        live_timers := []; live_next := 0 |}
  end.
Proof.
  intros Hkeys. cbv zeta. unfold loadRoom.
  destruct (activeRooms w !! id) as [l|] eqn:Hl.
  { cbn [fst snd]. rewrite Hl. done. }
  destruct (store w !! id) as [snap|] eqn:Hs.
  2:{ cbn [fst snd]. rewrite Hl, Hs. done. }
  cbv zeta. cbn [fst snd live_room fromSnapshot roomId store activeRooms].
  rewrite (Hkeys snap eq_refl). rewrite lookup_insert_eq.
  split_and!; try done.
  intros other Hne. by apply lookup_insert_ne.
Qed.

End Registry.

(* ===================================================================== *)
(** ** The further properties at the sample rooms *)
(* ===================================================================== *)

Module SampleAi.

(** Alice asks for the level "Hard" at t = 1500, before anybody joined. *)
Definition levelCmd : Payload :=
  {| pl_roomId := Some "room0001"; pl_address := Some Sample.alice;
     pl_from := ""; pl_to := ""; pl_promotion := None; pl_level := Some "Hard";
     pl_username := None; pl_avatar := None; pl_text := None |}.

Definition aiRoom : Sys Sample.E :=
  step defaultConfig (OpSetAiLevel levelCmd) (Sample.at_ 1500) Sample.created.

(** A server restarted with the store that holds Alice's room. *)
Definition restarted : World Sample.E :=
  {| activeRooms := ∅; store := store Sample.world1; evicted := [] |}.

End SampleAi.

(** Alice's AI room, with a second socket that resumes it under the address
    of the bot ([resume_room] accepts the address of either seat). *)
Module SampleStale.

Import Sample.

Definition botCmd : Payload := cmd "ai:hard".

(** Socket 9 as the room holds it once attached, now closed. *)
Definition botSocket : Client :=
  {| connId := 9; readyState := 3; playerAddress := Some "ai:hard";
     ws_roomId := Some "room0001" |}.

(** Alice's second socket, likewise. *)
Definition aliceSecondSocket : Client :=
  {| connId := 3; readyState := 3; playerAddress := Some alice;
     ws_roomId := Some "room0001" |}.

(** Alice, alone in her room, asks for the level "Hard" at t = 1500. *)
Definition aiWorld : World E :=
  fst (withRoom defaultConfig world1 SampleAi.levelCmd 1500 uuids
         (fun s => set_ai_level s SampleAi.levelCmd (at_ 1500))).

(** Socket 9 resumes the room under the address "ai:hard" at t = 2000. *)
Definition watched : World E :=
  fst (resume_room_message defaultConfig aiWorld (sock 9) botCmd uuids (at_ 2000)).

(** Alice's socket closes at t = 5000: White is flagged until t = 65000. *)
Definition whiteAway : World E :=
  removeClient defaultConfig watched aliceSocket uuids (at_ 5000).

(** Socket 9 closes at t = 6000: the room has no connection left. *)
Definition emptied : World E :=
  removeClient defaultConfig whiteAway botSocket uuids (at_ 6000).

(** Alice resumes the room on socket 3 at t = 7000. *)
Definition whiteBack : World E :=
  fst (resume_room_message defaultConfig emptied (sock 3) (cmd alice) uuids (at_ 7000)).

(** The timer started at t = 5000 fires at t = 65000. *)
Definition expired : World E := staleTimerExpired whiteBack 0 0 (at_ 65000).

(** Or else Alice's socket 3 closes at t = 8000. *)
Definition whiteAwayAgain : World E :=
  removeClient defaultConfig whiteBack aliceSecondSocket uuids (at_ 8000).

End SampleStale.

(** X4 at the room Bob has left. Bob stayed away: the timer started at
    t = 5000 fires at t = 65000 and White wins by forfeit. *)
Lemma forfeitTimerExpired_awards_opponent_witness :
  forcedResult (room (forfeitTimerExpired Sample.bobAway 0 65000 65001))
  = Some white_wins_by_forfeit.
Proof.
  destruct (forfeitTimerExpired_awards_opponent Sample.bobAway 0
              {| tid := 0; tcolor := black |} 65000 65001 eq_refl) as (H & _ & _).
  rewrite H; reflexivity.
Defined.

(** X8 at the room of Alice and Bob: Alice's "hello" is accepted. *)
Lemma send_chat_appends_trimmed_text_witness :
  snd (send_chat Sample.joined (Sample.chatCmd Sample.alice None "hello")
         "c0ffee00-1111" (Sample.at_ 3000)) = Done.
Proof.
  refine (proj2 (proj1 (send_chat_appends_trimmed_text Sample.joined
                          (Sample.chatCmd Sample.alice None "hello")
                          "c0ffee00-1111" (Sample.at_ 3000) Sample.alice white _)) _).
  - vm_compute. reflexivity.
  - simpl. lia.
Defined.

(** X12 at the room in which Alice has sent "hello". *)
Lemma chat_log_never_exceeds_hundred_witness :
  length (messages (chat (room Sample.chatted))) <= MAX_CHAT_MESSAGES.
Proof.
  apply (chat_log_never_exceeds_hundred defaultConfig Sample.chatted).
  apply reach_step, reach_step, reach_create. reflexivity.
Defined.

(** X13 at the room White lost on time: no draw offer is pending. *)
Lemma no_draw_offer_once_result_forced_witness :
  drawOfferBy (room Sample.flagged) = None.
Proof.
  apply (no_draw_offer_once_result_forced defaultConfig Sample.flagged).
  - apply reach_step, reach_step, reach_create. reflexivity.
  - vm_compute. eauto.
Defined.

(** X14 at the same room: it has the id it was created with and Alice is
    White. *)
Lemma room_keeps_id_and_white_seat_witness :
  roomId (room Sample.chatted) = "room0001" /\
  p_white (players (room Sample.chatted)) = Some Sample.alice.
Proof.
  apply (room_keeps_id_and_white_seat defaultConfig ∅ (Sample.sock 1) Sample.alice
           "room0001-uuid" (Sample.at_ 1000) Sample.chatted).
  apply ev_step, ev_step, ev_refl.
Defined.

(** X15 at the room for which Alice asked for the level "Hard". *)
Lemma ai_room_black_seat_is_the_bot_witness :
  (exists lvl,
     level (ai (room SampleAi.aiRoom)) = Some lvl /\
     botAddress (ai (room SampleAi.aiRoom)) = Some ("ai:" +:+ levelName lvl) /\
     p_black (players (room SampleAi.aiRoom)) = Some ("ai:" +:+ levelName lvl)) /\
  p_black (players (room SampleAi.aiRoom)) = botAddress (ai (room SampleAi.aiRoom)) /\
  isAiAddress (p_black (players (room SampleAi.aiRoom))) = true /\
  isPlayerOnline (room SampleAi.aiRoom) black = true.
Proof.
  apply (ai_room_black_seat_is_the_bot defaultConfig SampleAi.aiRoom).
  - apply reach_step, reach_create. reflexivity.
  - vm_compute. reflexivity.
Defined.

(** X16 at the room Bob joined: after Alice's chat message the black seat
    is still Bob's. *)
Lemma joined_opponent_keeps_black_seat_witness :
  p_black (players (room Sample.chatted)) = Some Sample.bob /\
  enabled (ai (room Sample.chatted)) = false.
Proof.
  apply (joined_opponent_keeps_black_seat defaultConfig Sample.created (Sample.sock 2)
           (Sample.cmd Sample.bob) (Sample.at_ 2000) Sample.bob Sample.chatted).
  - vm_compute. reflexivity.
  - vm_compute. reflexivity.
  - vm_compute. discriminate.
  - vm_compute. reflexivity.
  - apply (ev_step defaultConfig _
             (OpSendChat (Sample.chatCmd Sample.alice None "hello") "c0ffee00-1111")
             (Sample.at_ 3000)), ev_refl.
Defined.

(** X22 after a restart: the first load rebuilds Alice's room from the
    store and the second returns the room that the first registered. *)
Lemma loadRoom_prefers_live_room_then_store_witness :
  loadRoom defaultConfig
    (snd (loadRoom defaultConfig SampleAi.restarted "room0001" 7000%Z Sample.uuids))
    "room0001" 8000%Z Sample.uuids
  = loadRoom defaultConfig SampleAi.restarted "room0001" 7000%Z Sample.uuids.
Proof.
  refine (proj1 (proj2 (proj2 (proj2
            (loadRoom_prefers_live_room_then_store defaultConfig SampleAi.restarted
               "room0001" 7000%Z Sample.uuids _)))) 8000%Z Sample.uuids).
  intros snap Hs. vm_compute in Hs. injection Hs as <-. reflexivity.
Defined.

Section Durability.

Context {E : Engine} (cfg : Config).

Implicit Types (r : Room E) (s : Sys E) (w : World E).

Lemma maybeStartForfeitTimer_frame s c t0 t1 t2 :
  let r' := room (maybeStartForfeitTimer cfg s c t0 t1 t2) in
  roomId r' = roomId (room s) /\ chess r' = chess (room s) /\
  players r' = players (room s).
Proof.
  cbv zeta. unfold maybeStartForfeitTimer. repeat case_match; try done.
  cbv zeta.
  match goal with |- context [broadcastRoom ?x t1 t2] =>
    destruct (broadcastRoom_frame x t1 t2) as (-> & -> & -> & _) end.
  done.
Qed.

(** What detaching a socket leaves of the room: id, position and seats are
    as before; the room is deleted only if nobody sat at Black and no move
    was made; a room that is evicted from memory was saved just before. *)
Lemma removeClient_room_outcome s ws tm :
  let res := removeClient_room cfg s ws tm in
  roomId (room (fst res)) = roomId (room s) /\
  chess (room (fst res)) = chess (room s) /\
  players (room (fst res)) = players (room s) /\
  (snd res = DeletedRoom ->
   truthyAddr (p_black (players (room s))) = false /\
   historyLength E (chess (room s)) = 0) /\
  (snd res = Evicted ->
   exists t, gameStore (fst res) !! roomId (room s)
             = Some (toSnapshot (room (fst res)) t)).
Proof.
  cbv zeta. unfold removeClient_room. cbv zeta.
  set (s1 := set_room s _).
  assert (Htail : let res := removeClient_tail s1 tm in
            roomId (room (fst res)) = roomId (room s) /\
            chess (room (fst res)) = chess (room s) /\
            players (room (fst res)) = players (room s) /\
            (snd res = DeletedRoom ->
             truthyAddr (p_black (players (room s))) = false /\
             historyLength E (chess (room s)) = 0) /\
            (snd res = Evicted ->
             exists t, gameStore (fst res) !! roomId (room s)
                       = Some (toSnapshot (room (fst res)) t))).
  { cbv zeta. unfold removeClient_tail. cbv zeta.
    destruct (Nat.eqb (length (clients (room s1))) 0
              && negb (truthyAddr (p_black (players (room s1))))
              && Nat.eqb (historyLength E (chess (room s1))) 0) eqn:Hdel.
    - cbn [fst snd]. split_and!; try done. intros _.
      apply andb_true_iff in Hdel as [Hdel Hh].
      apply andb_true_iff in Hdel as [_ Hb].
      apply negb_true_iff in Hb. apply Nat.eqb_eq in Hh. done.
    - destruct (broadcastRoom_frame s1 (tm 0%nat) (tm 1%nat)) as (Hi & Hc & Hp & _).
      assert (Hst : gameStore (broadcastRoom s1 (tm 0%nat) (tm 1%nat)) !! roomId (room s)
                    = Some (toSnapshot (room (broadcastRoom s1 (tm 0%nat) (tm 1%nat)))
                              (tm 1%nat))).
      { unfold broadcastRoom at 1. unfold saveRoom. cbn [gameStore room set_room].
        rewrite applyClockDecay_roomId. apply lookup_insert_eq. }
      case_match; cbn [fst snd]; split_and!; try done; eauto. }
  destruct (getPlayerColor (room s1) (playerAddress ws)) as [c|]; [|exact Htail].
  destruct (negb (isFinished (room s1)) && negb (isPlayerOnline (room s1) c));
    [|exact Htail].
  cbn [fst snd].
  destruct (maybeStartForfeitTimer_frame s1 c (tm 0%nat) (tm 1%nat) (tm 2%nat))
    as (-> & -> & ->).
  done.
Qed.

(** X23. A live room with somebody at Black, or with a non-empty move
    history of its engine object, survives the disconnect of any of its
    sockets: after [removeClient] the room can still be loaded under its id,
    from memory or from the store, with the same two seats and the same
    position (as it is, or rebuilt from its FEN). The history is that of the
    live object, which with chess.js is empty for a room rebuilt by
    [fromSnapshot], whatever was played before the room was stored. *)
Theorem started_room_survives_disconnect w ws uuid tm id l now uuid' :
  ws_roomId ws = Some id -> truthy id = true ->
  activeRooms w !! id = Some l -> roomId (live_room l) = id ->
  truthyAddr (p_black (players (live_room l))) = true \/
  0 < historyLength E (chess (live_room l)) ->
  exists l',
    fst (loadRoom cfg (removeClient cfg w ws uuid tm) id now uuid') = Some l' /\
    roomId (live_room l') = id /\
    players (live_room l') = players (live_room l) /\
    (chess (live_room l') = chess (live_room l) \/
     chess (live_room l') = loadFen E (fen E (chess (live_room l)))).
Proof.
  intros Hws Hid Hl Hrid Hstarted.
  unfold removeClient. rewrite Hws, Hid. cbn [negb].
  unfold loadRoom at 2. rewrite Hl.
  pose proof (removeClient_room_outcome (focus w l) ws tm) as Hout.
  cbv zeta in Hout. cbn [room focus] in Hout.
  destruct (removeClient_room cfg (focus w l) ws tm) as [s' d].
  cbn [fst snd] in Hout. destruct Hout as (Hi & Hc & Hp & Hdel & Hev).
  destruct d.
  - exists (toLive s'). unfold loadRoom, commit. cbn [activeRooms].
    rewrite Hi, Hrid, lookup_insert_eq. cbn [fst toLive live_room].
    split_and!; try done; [congruence|by left].
  - destruct (Hdel eq_refl) as [Hb Hh]. destruct Hstarted as [Hs|Hs]; [congruence|lia].
  - destruct (Hev eq_refl) as [t Hst]. rewrite Hrid in Hst.
    unfold loadRoom. cbn [activeRooms store].
    rewrite Hi, Hrid, lookup_delete_eq, Hst. cbn [fst].
    eexists. split; [done|]. cbn [live_room fromSnapshot toSnapshot roomId players
                                  chess s_id s_players s_fen].
    split_and!; try done; [congruence|right; by rewrite Hc].
Qed.

End Durability.

(** X23 at the room of Alice and Bob, where Bob sits at Black: Bob's socket
    closes and the room is still loaded with both seats. *)
Lemma started_room_survives_disconnect_witness :
  exists l',
    fst (loadRoom defaultConfig
           (removeClient defaultConfig
              {| activeRooms := {["room0001" := toLive Sample.joined]};
                 store := gameStore Sample.joined; evicted := [] |}
              Sample.bobSocket Sample.uuids (Sample.at_ 9000))
           "room0001" 9500%Z Sample.uuids) = Some l' /\
    roomId (live_room l') = "room0001" /\
    players (live_room l') = players (room Sample.joined) /\
    (chess (live_room l') = chess (room Sample.joined) \/
     chess (live_room l')
     = loadFen Sample.E (fen Sample.E (chess (room Sample.joined)))).
Proof.
  apply (started_room_survives_disconnect defaultConfig
           {| activeRooms := {["room0001" := toLive Sample.joined]};
              store := gameStore Sample.joined; evicted := [] |}
           Sample.bobSocket Sample.uuids (Sample.at_ 9000) "room0001"
           (toLive Sample.joined) 9500%Z Sample.uuids).
  - reflexivity.
  - reflexivity.
  - vm_compute. reflexivity.
  - vm_compute. reflexivity.
  - left. vm_compute. reflexivity.
Defined.

(* ===================================================================== *)
(** ** What reaches the store *)
(* ===================================================================== *)

Section WriteThrough.

Context {E : Engine} (cfg : Config).

Implicit Types (r : Room E) (s : Sys E).

(** The store holds, under the id of the room, a snapshot of the room as it
    is now. *)
Definition saved s : Prop :=
  exists t, gameStore s !! roomId (room s) = Some (toSnapshot (room s) t).

Lemma saved_broadcast s t t' : saved (broadcastRoom s t t').
Proof.
  exists t'. unfold broadcastRoom, saveRoom. cbn [gameStore room set_room].
  apply lookup_insert_eq.
Qed.

(** X24. Every accepted command that changes a room is written through: when
    [join_room], [set_ai_level], [resume_room], [resign], [offer_draw],
    [accept_draw], [offer_rematch], [enter_chat] or [send_chat] is accepted,
    the store holds a snapshot of the room exactly as the handler left it. *)
Theorem accepted_command_is_written_through s ws payload uuid tm :
  (snd (join_room s ws payload tm) = Done -> saved (fst (join_room s ws payload tm))) /\
  (snd (set_ai_level s payload tm) = Done -> saved (fst (set_ai_level s payload tm))) /\
  (snd (resume_room s ws payload tm) = Done ->
   saved (fst (resume_room s ws payload tm))) /\
  (snd (resign s payload tm) = Done -> saved (fst (resign s payload tm))) /\
  (snd (offer_draw s payload tm) = Done -> saved (fst (offer_draw s payload tm))) /\
  (snd (accept_draw s payload tm) = Done -> saved (fst (accept_draw s payload tm))) /\
  (snd (offer_rematch cfg s payload tm) = Done ->
   saved (fst (offer_rematch cfg s payload tm))) /\
  (snd (enter_chat s payload tm) = Done -> saved (fst (enter_chat s payload tm))) /\
  (snd (send_chat s payload uuid tm) = Done ->
   saved (fst (send_chat s payload uuid tm))).
Proof.
  split_and!.
  - unfold join_room. repeat case_match; cbn [fst snd]; try done;
      intros _; apply saved_broadcast.
  - unfold set_ai_level. repeat case_match; cbn [fst snd]; try done;
      intros _; apply saved_broadcast.
  - unfold resume_room. repeat case_match; cbn [fst snd]; try done;
      intros _; apply saved_broadcast.
  - unfold resign, finishWith. repeat case_match; cbn [fst snd]; try done;
      intros _; apply saved_broadcast.
  - unfold offer_draw. repeat case_match; cbn [fst snd]; try done;
      intros _; apply saved_broadcast.
  - unfold accept_draw, finishWith. repeat case_match; cbn [fst snd]; try done;
      intros _; apply saved_broadcast.
  - unfold offer_rematch. repeat case_match; cbn [fst snd]; try done;
      intros _; apply saved_broadcast.
  - unfold enter_chat. repeat case_match; cbn [fst snd]; try done;
      intros _; apply saved_broadcast.
  - unfold send_chat. repeat case_match; cbn [fst snd]; try done;
      intros _; apply saved_broadcast.
Qed.

(** Decay charges the side to move only. *)
Lemma applyClockDecay_other_side r now c :
  c <> currentTurnColor r ->
  clockMs c (clock (applyClockDecay r now)) = clockMs c (clock r).
Proof.
  intros Hc. unfold applyClockDecay.
  repeat case_match; try done; cbn [clock set_clock set_forcedResult clearOffers];
    destruct c, (currentTurnColor r); done.
Qed.

(** What an applied move has done when the handler returns, whichever way
    it took after the move. *)
Definition moved (p' : Position E) (mover : Color) (budget : Z) r : Prop :=
  chess r = p' /\ drawOfferBy r = None /\ rematchOffers r = ∅ /\
  (turn E p' <> mover -> clockMs mover (clock r) = budget).

Lemma moved_decay p' mover budget r now :
  moved p' mover budget r -> moved p' mover budget (applyClockDecay r now).
Proof.
  intros (Hc & Hd & Hr & Hk).
  destruct (applyClockDecay_offers r now) as [[Hd' Hr']|[Hd' Hr']];
    (split_and!; [by rewrite applyClockDecay_chess|congruence|congruence|]);
    intros Hturn; rewrite applyClockDecay_other_side; auto;
    unfold currentTurnColor; rewrite Hc; congruence.
Qed.

Lemma moved_broadcast p' mover budget s t t' :
  moved p' mover budget (room s) -> moved p' mover budget (room (broadcastRoom s t t')).
Proof. rewrite broadcastRoom_room. apply moved_decay. Qed.

(** X25. An applied move: the position is the one the engine returns for the
    from/to pair with a queen promotion, no draw or rematch offer is left,
    and, the turn having passed to the other side, the mover's budget is the
    budget decayed to the time of the command plus the increment. The room
    is then saved as the handler left it, except in two cases in which the
    handler returns without saving or broadcasting: an AI room whose AI turn
    is already under way, and a room in which neither the player now to move
    nor the other one has an open connection. *)
Theorem applied_move_effect_and_persistence s payload tm address color :
  resolvePlayer (room s) payload "move" = inl (address, color) ->
  snd (make_move cfg s payload tm) = MoveApplied ->
  let r1 := applyClockDecay (room s) (tm 0%nat) in
  let s' := fst (make_move cfg s payload tm) in
  exists p',
    move E (chess (room s)) (pl_from payload) (pl_to payload) promo_q = Some p' /\
    chess (room s') = p' /\
    drawOfferBy (room s') = None /\ rematchOffers (room s') = ∅ /\
    (turn E p' <> color ->
     clockMs color (clock (room s'))
     = (clockMs color (clock r1) + incrementMs (clock r1))%Z) /\
    (saved s' \/
     (isFinished (room s') = false /\
      ((enabled (ai (room s')) = true /\ thinking (ai (room s')) = true) \/
       (isPlayerOnline (room s') (turn E p') = false /\
        isPlayerOnline (room s') (getOpponentColor (turn E p')) = false)))).
Proof.
  intros Hres Happ. cbv zeta. revert Happ. unfold make_move. rewrite Hres.
  destruct (isFinished (room s)); [done|].
  destruct (negb _); [done|]. cbv zeta.
  set (r1 := applyClockDecay (room s) (tm 0%nat)).
  destruct (isFinished r1) eqn:Hf1; [done|].
  assert (Hch1 : chess r1 = chess (room s)) by apply applyClockDecay_chess.
  destruct (move E (chess r1) _ _ _) as [p'|] eqn:Hmv; [|done].
  rewrite Hch1 in Hmv. intros _. exists p'. split; [done|].
  set (s2 := clearForfeitTimer _).
  set (budget := (clockMs color (clock r1) + incrementMs (clock r1))%Z).
  match goal with |- context [isFinished ?x] =>
    match x with
    | set_clock _ _ => set (r3 := x)
    end
  end.
  assert (H3 : moved p' color budget r3).
  { subst r3 budget. split_and!; try done. intros _. by destruct color. }
  assert (Hturn : currentTurnColor r3 = turn E p') by done.
  assert (Hk3 : clock r3
                = set_running
                    (set_lastTickAt
                       (set_ms color (clock (room s2))
                          (clockMs color (clock (room s2))
                           + incrementMs (clock (room s2))))
                       (Some (tm 1%nat))) true) by done.
  clearbody r3 budget. clearbody s2.
  assert (Hwide : forall s0,
            moved p' color budget (room s0) ->
            (saved s0 \/
             (isFinished (room s0) = false /\
              ((enabled (ai (room s0)) = true /\ thinking (ai (room s0)) = true) \/
               (isPlayerOnline (room s0) (turn E p') = false /\
                isPlayerOnline (room s0) (getOpponentColor (turn E p')) = false)))) ->
            chess (room s0) = p' /\ drawOfferBy (room s0) = None /\
            rematchOffers (room s0) = ∅ /\
            (turn E p' <> color -> clockMs color (clock (room s0)) = budget) /\
            (saved s0 \/
             (isFinished (room s0) = false /\
              ((enabled (ai (room s0)) = true /\ thinking (ai (room s0)) = true) \/
               (isPlayerOnline (room s0) (turn E p') = false /\
                isPlayerOnline (room s0) (getOpponentColor (turn E p')) = false))))).
  { intros s0 (?&?&?&?) ?. done. }
  destruct (isFinished r3) eqn:Hf3; cbn [negb].
  2:{ destruct (enabled (ai r3) && bool_decide (currentTurnColor r3 = black)) eqn:Hai.
      - cbn [fst]. apply andb_true_iff in Hai as [Hen Hblack].
        unfold maybeRunAiTurn_begin. cbn [room set_room].
        rewrite Hen, Hf3, Hblack. cbn [negb].
        destruct (thinking (ai r3)) eqn:Hth; cbn [fst].
        + apply Hwide; [done|]. right. cbn [room set_room]. auto.
        + apply Hwide; [|left; apply saved_broadcast].
          apply moved_broadcast. done.
      - destruct (isPlayerOnline r3 (currentTurnColor r3)) eqn:Hon; cbn [negb].
        + cbn [fst]. apply Hwide; [|left; apply saved_broadcast].
          by apply moved_broadcast.
        + cbn [fst]. unfold maybeStartForfeitTimer. cbn [room set_room].
          rewrite Hf3, Hon. rewrite Hturn in *.
          destruct (truthyAddr (seat (players r3) (getOpponentColor (turn E p'))))
            eqn:Hseat; cbn [negb].
          2:{ apply Hwide; [done|]. right. cbn [room set_room].
              split; [done|]. right. split; [done|].
              unfold isPlayerOnline, getConnectedCount. cbv zeta.
              destruct (seat (players r3) (getOpponentColor (turn E p'))) as [a|];
                [|done].
              cbn [truthyAddr] in Hseat. cbn [isAiAddress truthyAddr].
              rewrite Hseat. cbn [negb].
              destruct a; [|done]. done. }
          destruct (isPlayerOnline r3 (getOpponentColor (turn E p'))) eqn:Hopp;
            cbn [negb].
          * apply Hwide; [|left; apply saved_broadcast].
            apply moved_broadcast. done.
          * apply Hwide; [done|]. right. cbn [room set_room]. auto. }
  cbn [fst]. apply Hwide; [|left; apply saved_broadcast].
  apply moved_broadcast. cbn [room set_room].
  destruct H3 as (Hc3 & Hd3 & Hr3 & Hb3). split_and!; try done.
  intros Ht. rewrite <- (Hb3 Ht), Hk3. by destruct color.
Qed.

End WriteThrough.

Section Creation.

Context {E : Engine} (cfg : Config).

Implicit Types (r : Room E) (s : Sys E) (w : World E).

Lemma broadcastRoom_store_other s t t' other :
  other <> roomId (room s) ->
  gameStore (broadcastRoom s t t') !! other = gameStore s !! other.
Proof.
  intros Hne. unfold broadcastRoom, saveRoom. cbn [gameStore room set_room].
  rewrite applyClockDecay_roomId. by apply lookup_insert_ne.
Qed.

Lemma attachClientToRoom_store_other s ws a t t' other :
  other <> roomId (room s) ->
  gameStore (attachClientToRoom s ws a t t') !! other = gameStore s !! other.
Proof.
  intros Hne. unfold attachClientToRoom. cbv zeta. case_match; [|done].
  unfold maybeClearForfeitOnReconnect. case_match; [|done].
  by rewrite broadcastRoom_store_other.
Qed.

Lemma detachFromPreviousRoom_rest w ws id :
  store (detachFromPreviousRoom w ws id) = store w /\
  evicted (detachFromPreviousRoom w ws id) = evicted w.
Proof.
  unfold detachFromPreviousRoom.
  destruct (ws_roomId ws) as [previous|]; [|done].
  destruct (negb (truthy previous) || String.eqb previous id); [done|].
  by destruct (activeRooms w !! previous).
Qed.

(** What [detachFromPreviousRoom] does to the registry entry [other] when a
    socket is attached to the room [id]. *)
Lemma detachFromPreviousRoom_lookup w ws id other :
  other <> id ->
  activeRooms (detachFromPreviousRoom w ws id) !! other
  = (if bool_decide (ws_roomId ws = Some other) && truthy other
     then withoutSocket ws <$> activeRooms w !! other
     else activeRooms w !! other) /\
  store (detachFromPreviousRoom w ws id) = store w /\
  evicted (detachFromPreviousRoom w ws id) = evicted w.
Proof.
  intros Hne. unfold detachFromPreviousRoom.
  destruct (ws_roomId ws) as [previous|]; [|done].
  destruct (truthy previous) eqn:Ht; cbn [negb orb].
  2:{ split_and!; try done. case_bool_decide as Heq; [|done].
      injection Heq as <-. by rewrite Ht. }
  destruct (String.eqb_spec previous id) as [->|Hpi].
  { split_and!; try done. rewrite bool_decide_eq_false_2; [done|congruence]. }
  destruct (activeRooms w !! previous) as [l|] eqn:Hl; cbn [activeRooms store evicted].
  - split_and!; try done. case_bool_decide as Heq.
    + injection Heq as <-. by rewrite Ht, lookup_insert_eq, Hl.
    + rewrite lookup_insert_ne; [done|congruence].
  - split_and!; try done. case_bool_decide as Heq; [|done].
    injection Heq as <-. by rewrite Ht, Hl.
Qed.

(** X26. [create_room] needs an address. With one it makes a room under the
    first eight characters of the UUID, with the creator at White, nobody at
    Black and the starting position, attaches the creator's socket,
    registers the room as live and stores its snapshot. Of the other ids,
    the store is untouched, and the registry changes in one place only: if
    the socket was attached to another live room, it is deleted from the
    clients of that room (and nothing else of that room changes). Without an
    address nothing changes. *)
Theorem create_room_registers_and_stores_new_room w ws payload uuid tm :
  let id := slice 0 8 uuid in
  let w' := fst (create_room cfg w ws payload uuid tm) in
  (snd (create_room cfg w ws payload uuid tm) = Done <->
   truthyAddr (payloadAddress payload) = true) /\
  (snd (create_room cfg w ws payload uuid tm) <> Done -> w' = w) /\
  (forall a,
     payloadAddress payload = Some a ->
     snd (create_room cfg w ws payload uuid tm) = Done ->
     exists l,
       activeRooms w' !! id = Some l /\
       roomId (live_room l) = id /\
       players (live_room l) = {| p_white := Some a; p_black := None |} /\
       chess (live_room l) = newChess E /\
       In (attached ws (Some a) id) (clients (live_room l)) /\
       (exists t, store w' !! id = Some (toSnapshot (live_room l) t)) /\
       evicted w' = evicted w /\
       (forall other, other <> id ->
          store w' !! other = store w !! other /\
          activeRooms w' !! other
          = (if bool_decide (ws_roomId ws = Some other) && truthy other
             then withoutSocket ws <$> activeRooms w !! other
             else activeRooms w !! other))).
Proof.
  cbv zeta. unfold create_room.
  destruct (payloadAddress payload) as [a|]; cbn [truthyAddr];
    [|split_and!; [done|done|done]].
  destruct (truthy a) eqn:Ha; cbn [fst snd]; [|split_and!; [done|done|done]].
  split_and!; [done|done|]. intros a' [= <-] _.
  set (s0 := {| room := newRoom cfg (slice 0 8 uuid) a (tm 0%nat); timers := [];
                nextTimer := 0; gameStore := store w |}).
  assert (Hsys : create_room_sys cfg (store w) ws a uuid tm
                 = broadcastRoom
                     (attachClientToRoom (saveRoom s0 (tm 1%nat)) ws a
                        (tm 2%nat) (tm 3%nat)) (tm 4%nat) (tm 5%nat)) by done.
  rewrite Hsys. clear Hsys.
  destruct (attach_then_broadcast (saveRoom s0 (tm 1%nat)) ws a
              (tm 2%nat) (tm 3%nat) (tm 4%nat) (tm 5%nat))
    as (Hpl & _ & Hch & _ & Hin & _).
  destruct (broadcastRoom_frame
              (attachClientToRoom (saveRoom s0 (tm 1%nat)) ws a (tm 2%nat) (tm 3%nat))
              (tm 4%nat) (tm 5%nat)) as (Hid & _).
  destruct (attachClientToRoom_frame (saveRoom s0 (tm 1%nat)) ws a (tm 2%nat) (tm 3%nat))
    as (Hid' & _).
  rewrite Hid' in Hid. cbn [room saveRoom s0 newRoom roomId] in Hid.
  set (s1 := broadcastRoom _ (tm 4%nat) (tm 5%nat)) in *.
  exists (toLive s1). unfold commit. cbn [activeRooms store evicted toLive live_room].
  rewrite Hid, lookup_insert_eq.
  split_and!; try done.
  - destruct (saved_broadcast
                (attachClientToRoom (saveRoom s0 (tm 1%nat)) ws a (tm 2%nat) (tm 3%nat))
                (tm 4%nat) (tm 5%nat)) as [t Ht].
    fold s1 in Ht. rewrite Hid in Ht. eauto.
  - apply detachFromPreviousRoom_rest.
  - intros other Hne. split.
    + subst s1. rewrite broadcastRoom_store_other by (by rewrite Hid').
      rewrite attachClientToRoom_store_other by done.
      unfold saveRoom. cbn [gameStore room s0 newRoom roomId].
      by apply lookup_insert_ne.
    + rewrite lookup_insert_ne by done.
      by apply detachFromPreviousRoom_lookup.
Qed.

End Creation.

(** X25 at the room of Alice and Bob: White plays e2-e4 at t = 5000, five
    seconds after the clock started; Black is connected, and the move is
    saved. *)
Lemma applied_move_effect_and_persistence_witness :
  let s := Sample.joined in
  let payload := Sample.moveCmd Sample.alice "e2" "e4" in
  let r1 := applyClockDecay (room s) 5000 in
  let s' := fst (make_move defaultConfig s payload (Sample.at_ 5000)) in
  exists p',
    move Sample.E (chess (room s)) (pl_from payload) (pl_to payload) promo_q = Some p' /\
    chess (room s') = p' /\
    drawOfferBy (room s') = None /\ rematchOffers (room s') = ∅ /\
    (turn Sample.E p' <> white ->
     clockMs white (clock (room s'))
     = (clockMs white (clock r1) + incrementMs (clock r1))%Z) /\
    (saved s' \/
     (isFinished (room s') = false /\
      ((enabled (ai (room s')) = true /\ thinking (ai (room s')) = true) \/
       (isPlayerOnline (room s') (turn Sample.E p') = false /\
        isPlayerOnline (room s') (getOpponentColor (turn Sample.E p')) = false)))).
Proof.
  apply (applied_move_effect_and_persistence defaultConfig Sample.joined
           (Sample.moveCmd Sample.alice "e2" "e4") (Sample.at_ 5000)
           Sample.alice white).
  - vm_compute. reflexivity.
  - vm_compute. reflexivity.
Defined.

(** The second exception of X25 at work. After a restart the room of Alice
    and Bob is loaded without connections; a move sent before anybody
    resumed is applied to the room in memory, and the store still holds the
    old position. *)
Lemma move_applied_with_nobody_connected_is_not_saved :
  let s := reloadRoom defaultConfig Sample.joined 4000 Sample.uuids in
  let s' := fst (make_move defaultConfig s
                   (Sample.moveCmd Sample.alice "e2" "e4") (Sample.at_ 5000)) in
  snd (make_move defaultConfig s (Sample.moveCmd Sample.alice "e2" "e4")
         (Sample.at_ 5000)) = MoveApplied /\
  fen Sample.E (chess (room s')) = [("e2", "e4")] /\
  option_map (fun snap : Snapshot Sample.E => s_fen snap)
    (gameStore s' !! "room0001") = Some [].
Proof. vm_compute. split_and!; reflexivity. Qed.

(* ===================================================================== *)
(** ** The forfeit timer of an evicted room object *)
(* ===================================================================== *)

(** What is looked at in a room object: its pending timers, its forfeit
    state, its result, whether White is online, and its connections. *)
Definition timerView (l : Live Sample.E)
  : list Timer * ForfeitState * option ResultTag * bool * nat :=
  (live_timers l, forfeit (live_room l), forcedResult (live_room l),
   isPlayerOnline (live_room l) white, length (clients (live_room l))).

(** C7, the code at the failing input. In Alice's AI room a second socket is
    attached under the address of the bot. Alice's socket closes at
    t = 5000: White is flagged, timer 0 is pending, the deadline is
    t = 65000. The second socket closes at t = 6000: Black, the bot, counts
    as online, so [removeClient] broadcasts and takes the room out of the
    registry, and timer 0 stays pending on the object. Alice resumes at
    t = 7000, before the deadline: the room is rebuilt from the store, White
    is online on it, it has no forfeit state, no timer and no result. At
    t = 65000 timer 0 fires on the first object, on which White is offline:
    it sets the forfeit win of Black there and saves that object, so the
    store holds a forfeit result for the very disconnection White came back
    from, while White is online in the registered room and no result is
    forced there. And if, instead, Alice's new socket closes at t = 8000,
    a second timer is started for the same room, on the registered object,
    while the first is still pending (handles are numbered per object: both
    are handle 0 of their object). *)
Theorem evicted_timer_forfeits_reconnected_player :
  timerView <$> activeRooms SampleStale.whiteAway !! "room0001"
  = Some ([ {| tid := 0; tcolor := white |} ],
          {| f_color := Some white; deadlineAt := Some 65000%Z; timer := Some 0 |},
          None, false, 1) /\
  activeRooms SampleStale.emptied !! "room0001" = None /\
  timerView <$> evicted SampleStale.emptied
  = [ ([ {| tid := 0; tcolor := white |} ],
       {| f_color := Some white; deadlineAt := Some 65000%Z; timer := Some 0 |},
       None, false, 0) ] /\
  timerView <$> activeRooms SampleStale.whiteBack !! "room0001"
  = Some ([], noForfeit, None, true, 1) /\
  live_timers <$> evicted SampleStale.whiteBack
  = [ [ {| tid := 0; tcolor := white |} ] ] /\
  s_forcedResult <$> store SampleStale.whiteBack !! "room0001" = Some None /\
  s_forcedResult <$> store SampleStale.expired !! "room0001"
  = Some (Some black_wins_by_forfeit) /\
  timerView <$> evicted SampleStale.expired
  = [ ([], noForfeit, Some black_wins_by_forfeit, false, 0) ] /\
  timerView <$> activeRooms SampleStale.expired !! "room0001"
  = Some ([], noForfeit, None, true, 1) /\
  live_timers <$> activeRooms SampleStale.whiteAwayAgain !! "room0001"
  = Some [ {| tid := 0; tcolor := white |} ] /\
  live_timers <$> evicted SampleStale.whiteAwayAgain
  = [ [ {| tid := 0; tcolor := white |} ] ].
Proof. vm_compute. split_and!; reflexivity. Qed.
